(** * The debug blocker driver of py_entitymatching, embedded and verified

    Source: [py_entitymatching/debugblocker/debugblocker.py].

    The Python driver prepares two tables for a top-k similarity join
    (feature selection, tokenisation, global token order, candidate-set
    index, configuration count) and hands the prepared arrays to Cython
    routines.  The driver is embedded function by function, in source
    order and under the source's names.  The Cython routines, the catalog
    manager [cm], [mg.get_attr_corres], [multiprocessing.cpu_count] and
    [pickle] are collaborators whose code is not part of the file: they are
    fields of the record [Collaborators] and every theorem holds for all of
    them.

    Conventions.
    - Python [int] is [Z]; counters that only count up from 0 are [nat].
    - Python [float] is an abstract type with the operations the driver
      uses ([FloatOps]); rationals give one instance.
    - [str] is [string]; its order is the byte-wise lexicographic order of
      [String.compare] (for UTF-8 text this is the code point order Python
      uses); [lower] is modelled on ASCII letters.
    - A raised exception is [Err e]; calls to collaborators and to the
      logger are recorded in a trace, so that "X happens before Y is
      called" is a statement about the trace. *)

From Stdlib Require Import List String Ascii ZArith QArith Qround Bool Arith Lia.
From Stdlib Require Import Permutation Sorted OrderedTypeEx.
From Stdlib Require Decimal DecimalNat DecimalString.
Import ListNotations.

(** ** Exceptions and the error monad *)

Inductive exn : Type :=
| AssertionError
| ValueError
| KeyError
| IndexError
| TypeError
| OverflowError.

Inductive result (A : Type) : Type :=
| Ok (a : A)
| Err (e : exn).

Arguments Ok {A} a.
Arguments Err {A} e.

Definition rbind {A B : Type} (c : result A) (k : A -> result B) : result B :=
  match c with
  | Ok a => k a
  | Err e => Err e
  end.

Declare Scope result_scope.
Delimit Scope result_scope with res.
Notation "x <- c ;; k" := (rbind c (fun x => k))
  (at level 61, c at next level, right associativity) : result_scope.
Notation "' p <- c ;; k" := (rbind c (fun x => match x with p => k end))
  (at level 61, p pattern, c at next level, right associativity) : result_scope.

(** [for x in xs: acc = f(acc, x)] where the body may raise. *)
Fixpoint foldM {A B : Type} (f : A -> B -> result A) (xs : list B) (acc : A)
  : result A :=
  match xs with
  | [] => Ok acc
  | x :: xs' => rbind (f acc x) (foldM f xs')
  end.

(** A list comprehension whose element expression may raise. *)
Fixpoint mapM {A B : Type} (f : A -> result B) (xs : list A) : result (list B) :=
  match xs with
  | [] => Ok []
  | x :: xs' =>
      rbind (f x) (fun y => rbind (mapM f xs') (fun ys => Ok (y :: ys)))
  end.

(** ** Python lists *)

(** [l[i]] for a non-negative index. *)
Definition py_index {A : Type} (l : list A) (i : nat) : result A :=
  match nth_error l i with
  | Some x => Ok x
  | None => Err IndexError
  end.

Fixpoint remove_at {A : Type} (i : nat) (l : list A) {struct l} : list A :=
  match l, i with
  | [], _ => []
  | _ :: l', O => l'
  | x :: l', S i' => x :: remove_at i' l'
  end.

(** [l.pop(i)]: a negative index counts from the end, an index out of range
    raises [IndexError].  Only the remaining list is returned, the driver
    never uses the popped element. *)
Definition py_pop {A : Type} (l : list A) (i : Z) : result (list A) :=
  let n := Z.of_nat (List.length l) in
  let j := if (i <? 0)%Z then (i + n)%Z else i in
  if ((0 <=? j)%Z && (j <? n)%Z)%bool
  then Ok (remove_at (Z.to_nat j) l)
  else Err IndexError.

(** [l.remove(x)]: deletes the first occurrence, [ValueError] without one. *)
Fixpoint py_remove {A : Type} (eqb : A -> A -> bool) (x : A) (l : list A)
  : result (list A) :=
  match l with
  | [] => Err ValueError
  | y :: l' =>
      if eqb y x then Ok l'
      else rbind (py_remove eqb x l') (fun r => Ok (y :: r))
  end.

(** [sorted]: Python's sort is stable.  [le x y] says that [x] may stand
    before [y]; an element is placed before the first element of the sorted
    rest that it may stand before, so equal elements keep their order. *)
Fixpoint insert_by {A : Type} (le : A -> A -> bool) (x : A) (l : list A)
  : list A :=
  match l with
  | [] => [x]
  | y :: l' => if le x y then x :: l else y :: insert_by le x l'
  end.

Definition py_sorted {A : Type} (le : A -> A -> bool) (l : list A) : list A :=
  fold_right (insert_by le) [] l.

(** ** Python dictionaries

    A [dict] keeps its keys in insertion order, and assigning to a key that
    is present keeps the key's position. *)

Section Dict.
Variables (K V : Type) (keq : K -> K -> bool).

Definition dict : Type := list (K * V).

Fixpoint dict_get (d : dict) (k : K) : option V :=
  match d with
  | [] => None
  | (k', v) :: d' => if keq k k' then Some v else dict_get d' k
  end.

Definition dict_mem (d : dict) (k : K) : bool :=
  match dict_get d k with
  | Some _ => true
  | None => false
  end.

Fixpoint dict_set (d : dict) (k : K) (v : V) : dict :=
  match d with
  | [] => [(k, v)]
  | (k', v') :: d' =>
      if keq k k' then (k', v) :: d' else (k', v') :: dict_set d' k v
  end.

Definition dict_keys (d : dict) : list K := map fst d.

(** [d[k]] *)
Definition dict_item (d : dict) (k : K) : result V :=
  match dict_get d k with
  | Some v => Ok v
  | None => Err KeyError
  end.
End Dict.

Arguments dict_get {K V} keq d k.
Arguments dict_mem {K V} keq d k.
Arguments dict_set {K V} keq d k v.
Arguments dict_keys {K V} d.
Arguments dict_item {K V} keq d k.

(** A Python [set] over an equality test: a list without repetitions. *)
Definition set_add {A : Type} (eqb : A -> A -> bool) (x : A) (s : list A)
  : list A :=
  if existsb (eqb x) s then s else s ++ [x].

(** ** Python strings *)

Open Scope string_scope.
Open Scope list_scope.

(** [str(k)] for a non-negative integer. *)
Definition str_of_nat (k : nat) : string :=
  DecimalString.NilEmpty.string_of_uint (Nat.to_uint k).

Definition lower_ascii (c : ascii) : ascii :=
  let n := nat_of_ascii c in
  if ((65 <=? n)%nat && (n <=? 90)%nat)%bool then ascii_of_nat (n + 32) else c.

(** [s.lower()] *)
Fixpoint lower (s : string) : string :=
  match s with
  | EmptyString => EmptyString
  | String c s' => String (lower_ascii c) (lower s')
  end.

(** [s.split(' ')]: split at every single space, empty pieces kept. *)
Fixpoint split_space (s : string) : list string :=
  match s with
  | EmptyString => [EmptyString]
  | String c s' =>
      if Ascii.eqb c " "%char then EmptyString :: split_space s'
      else match split_space s' with
           | [] => [String c EmptyString]
           | piece :: rest => String c piece :: rest
           end
  end.

(** ** Python floats

    The driver computes field weights as floats and sorts by them.  The
    operations it uses are kept abstract.  The weights are sums, products
    and quotients of counts with a positive denominator, so neither NaN nor
    an infinity arises; on such values [<=] is a total preorder, which is
    all [FloatOrder] says. *)

Class FloatOps : Type := {
  float : Type;
  float_of_int : Z -> float;
  fadd : float -> float -> float;
  fmul : float -> float -> float;
  fdiv : float -> float -> float;
  fleb : float -> float -> bool
}.

Class FloatOrder (F : FloatOps) : Prop := {
  fleb_total : forall x y : float, fleb x y = true \/ fleb y x = true;
  fleb_trans : forall x y z : float,
      fleb x y = true -> fleb y z = true -> fleb x z = true
}.

(** ** Tables

    A pandas [DataFrame] is kept column by column.  A column label is a
    string, or a position for the default labels of a frame built from a
    list of rows.  Several columns may carry the same label.  [CNone]
    and [CNaN] are the two missing values; [CNum] is a Python or numpy
    integer or float, by its numeric value.  The rows are indexed by the
    default integer index [0 .. df_len - 1]: a frame with another index
    is outside the model, and what is stated of [loc] is stated of tables
    with the default index only. *)

Inductive label : Type :=
| LName (s : string)
| LPos (n : nat).

Inductive dtype : Type :=
| DObject
| DNumeric.

Inductive cell : Type :=
| CNone
| CNaN
| CStr (s : string)
| CNum (q : Q).

Record column : Type := mkColumn {
  col_label : label;
  col_dtype : dtype;
  col_values : list cell
}.

Record DataFrame : Type := mkFrame {
  df_len : nat;
  df_cols : list column
}.

Definition label_eqb (a b : label) : bool :=
  match a, b with
  | LName s, LName t => String.eqb s t
  | LPos n, LPos m => Nat.eqb n m
  | _, _ => false
  end.

Definition dtype_eqb (a b : dtype) : bool :=
  match a, b with
  | DObject, DObject => true
  | DNumeric, DNumeric => true
  | _, _ => false
  end.

(** Python's [==] on cell values: numbers are equal by value, NaN is
    equal to nothing.  A [set] or [dict] tests identity before [==], which
    differs for NaN only: one NaN object met twice is one key.  Cells do
    not record the identity of objects, so a NaN key is outside the
    model. *)
Definition cell_eqb (a b : cell) : bool :=
  match a, b with
  | CNone, CNone => true
  | CStr s, CStr t => String.eqb s t
  | CNum p, CNum q => Qeq_bool p q
  | _, _ => false
  end.

(** [pd.isnull] *)
Definition isnull (v : cell) : bool :=
  match v with
  | CNone | CNaN => true
  | _ => false
  end.

Definition pair_eqb (a b : label * label) : bool :=
  (label_eqb (fst a) (fst b) && label_eqb (snd a) (snd b))%bool.

(** [table.columns] *)
Definition columns (t : DataFrame) : list label := map col_label (df_cols t).

(** [table.dtypes] *)
Definition dtypes (t : DataFrame) : list dtype := map col_dtype (df_cols t).

(** The columns of [t] that carry the label [c], in the order of the
    table. *)
Definition labelled (t : DataFrame) (c : label) : list column :=
  filter (fun col => label_eqb (col_label col) c) (df_cols t).

(** A column label as a value: iterating a frame yields its labels. *)
Definition cell_of_label (l : label) : cell :=
  match l with
  | LName s => CStr s
  | LPos n => CNum (inject_Z (Z.of_nat n))
  end.

(** [list(table[col])], which is also what a [for] over [table[col]]
    sees.  When one column carries [col], [table[col]] is that column and
    the values are its cells.  When several columns carry [col],
    [table[col]] is the frame of these columns, and iterating a frame
    yields its column labels: [col], once per such column.  [KeyError]
    without such a column. *)
Definition getitem (t : DataFrame) (c : label) : result (list cell) :=
  match labelled t c with
  | [] => Err KeyError
  | [col] => Ok (col_values col)
  | cols => Ok (map (fun _ => cell_of_label c) cols)
  end.

(** [len(table[col])]: the number of rows, of the column or of the frame
    of the columns that carry [col]. *)
Definition getitem_len (t : DataFrame) (c : label) : result nat :=
  match labelled t c with
  | [] => Err KeyError
  | [col] => Ok (List.length (col_values col))
  | _ => Ok (df_len t)
  end.

(** [table[cols]] for a list of labels: for each requested label, in
    the order of the list, every column that carries it; [KeyError] when
    a label is carried by no column. *)
Definition getitems (t : DataFrame) (cs : list label) : result DataFrame :=
  rbind (mapM (fun c => match labelled t c with
                        | [] => Err KeyError
                        | cols => Ok cols
                        end) cs)
        (fun found => Ok (mkFrame (df_len t) (List.concat found))).

(** [list(table.loc[i])] under the default integer index: the cells of
    row [i], [KeyError] for an [i] that is no row. *)
Definition loc (t : DataFrame) (i : nat) : result (list cell) :=
  if (i <? df_len t)%nat
  then mapM (fun col => py_index (col_values col) i) (df_cols t)
  else Err KeyError.


(** ** Dynamically typed arguments of the entry point *)

#[warnings="-register-all"]
Inductive pyobj : Type :=
| PNone
| PBool (b : bool)
| PInt (z : Z)
| PStr (s : string)
| PTuple (items : list pyobj)
| PList (items : list pyobj)
| PFrame (df : DataFrame).

Inductive pytype : Type :=
| TDataFrame
| TInt
| TBool
| TList
| TTuple.

(** [isinstance]; [bool] is a subclass of [int]. *)
Definition isinstance (o : pyobj) (ty : pytype) : bool :=
  match ty, o with
  | TDataFrame, PFrame _ => true
  | TInt, PInt _ => true
  | TInt, PBool _ => true
  | TBool, PBool _ => true
  | TList, PList _ => true
  | TTuple, PTuple _ => true
  | _, _ => false
  end.

(** The column label a Python value is equal to, if any. *)
Definition label_of (o : pyobj) : option label :=
  match o with
  | PStr s => Some (LName s)
  | PInt z => if (0 <=? z)%Z then Some (LPos (Z.to_nat z)) else None
  | PBool b => Some (LPos (if b then 1 else 0))
  | _ => None
  end.

(** [o in labels] *)
Definition in_labels (o : pyobj) (ls : list label) : bool :=
  match label_of o with
  | Some l => existsb (label_eqb l) ls
  | None => false
  end.

(** ** Trace of collaborator calls *)

Inductive event : Type :=
| LoggerError (msg : string)
| Call_get_keys_for_ltable_rtable
| Call_validate_metadata_for_table (table_name : string)
| Call_get_attr_corres
| Call_get_metadata_for_candset
| Call_validate_metadata_for_candset
| Call_debugblocker_config_cython
| Call_debugblocker_topk_cython (i : nat)
| Call_debugblocker_merge_topk_cython
| Call_set_candset_properties.

Definition trace : Type := list event.

(** A computation that may raise and that extends the trace. *)
Definition M (A : Type) : Type := trace -> result A * trace.

Definition mret {A : Type} (a : A) : M A := fun t => (Ok a, t).

Definition mbind {A B : Type} (c : M A) (k : A -> M B) : M B :=
  fun t =>
    match c t with
    | (Ok a, t') => k a t'
    | (Err e, t') => (Err e, t')
    end.

Definition raise {A : Type} (e : exn) : M A := fun t => (Err e, t).

Definition lift {A : Type} (r : result A) : M A := fun t => (r, t).

(** A call to a collaborator: the call is recorded, its outcome returned. *)
Definition call {A : Type} (ev : event) (r : result A) : M A :=
  fun t => (r, t ++ [ev]).

Definition log_error (msg : string) : M unit :=
  fun t => (Ok tt, t ++ [LoggerError msg]).

Declare Scope trace_scope.
Delimit Scope trace_scope with M.
Notation "x <- c ;; k" := (mbind c (fun x => k))
  (at level 61, c at next level, right associativity) : trace_scope.
Notation "' p <- c ;; k" := (mbind c (fun x => match x with p => k end))
  (at level 61, p pattern, c at next level, right associativity) : trace_scope.

Fixpoint mfor {A B : Type} (f : A -> B -> M A) (xs : list B) (acc : A) : M A :=
  match xs with
  | [] => mret acc
  | x :: xs' => mbind (f acc x) (mfor f xs')
  end.

Fixpoint mmap {A B : Type} (f : A -> M B) (xs : list A) : M (list B) :=
  match xs with
  | [] => mret []
  | x :: xs' =>
      mbind (f x) (fun y => mbind (mmap f xs') (fun ys => mret (y :: ys)))
  end.

(** ** Collaborators

    What the driver calls and the file does not define.  A record id is a
    cell value; a record of the store is a pair of [array('I')]s, kept as
    lists of integers below [2^32]. *)

Record candset_metadata : Type := mkCandsetMetadata {
  cm_key : label;
  cm_fk_ltable : label;
  cm_fk_rtable : label;
  cm_ltable : DataFrame;
  cm_rtable : DataFrame;
  cm_l_key : label;
  cm_r_key : label
}.

Definition candset_index : Type := dict nat (list nat).

Record Collaborators {F : FloatOps} : Type := mkCollaborators {
  (* cm.get_keys_for_ltable_rtable(ltable, rtable, logger, verbose) *)
  get_keys_for_ltable_rtable :
    DataFrame -> DataFrame -> bool -> result (label * label);
  (* cm._validate_metadata_for_table(table, key, name, logger, verbose) *)
  validate_metadata_for_table :
    DataFrame -> label -> string -> bool -> result unit;
  (* mg.get_attr_corres(ltable, rtable)['corres'] *)
  get_attr_corres : DataFrame -> DataFrame -> result (list (label * label));
  (* cm.get_metadata_for_candset(candset, logger, verbose) *)
  get_metadata_for_candset : DataFrame -> bool -> result candset_metadata;
  (* cm._validate_metadata_for_candset(candset, ..., logger, verbose) *)
  validate_metadata_for_candset :
    DataFrame -> candset_metadata -> bool -> result unit;
  (* cm.set_candset_properties(frame, key, fk_ltable, fk_rtable, l, r) *)
  set_candset_properties :
    DataFrame -> label -> label -> label -> DataFrame -> DataFrame ->
    result unit;
  (* multiprocessing.cpu_count() *)
  cpu_count : Z;
  (* pickle.dumps on a list of arrays; only its length and the bytes
     themselves, which the Cython wrapper unpickles, are used *)
  pickled : Type;
  pickle_dumps : list (list nat) -> pickled;
  pickled_len : pickled -> nat;
  (* the configurations are opaque to the driver *)
  config : Type;
  debugblocker_config_cython :
    list nat -> list nat -> nat -> nat -> nat -> result (list config);
  (* debugblocker_topk_cython_wrapper: unpickles and calls the Cython join *)
  debugblocker_topk_cython_wrapper :
    config -> pickled -> pickled -> pickled -> pickled -> candset_index ->
    Z -> result (list (float * nat * nat));
  debugblocker_merge_topk_cython :
    list (list (float * nat * nat)) -> result (list (float * nat * nat));
  (* the dtypes pandas infers for a frame built from rows *)
  infer_dtype : list cell -> dtype
}.

Definition SELECTED_FIELDS_UPPER_BOUND : nat := 8.

(** [range(n)] *)
Definition range (n : nat) : list nat := seq 0 n.

(** ** [_get_config_num]

    [n_cpus] is the value of [multiprocessing.cpu_count()], read after the
    guard. *)
Definition _get_config_num (n_cpus n_jobs n_configs n_total_configs : Z)
  : result Z :=
  if ((n_jobs =? 0)%Z || (n_configs =? 0)%Z || (n_configs <? -2)%Z)%bool
  then Err ValueError
  else
    let n_configs :=
      if (n_configs =? -2)%Z then n_total_configs
      else if (n_configs =? -1)%Z
           then (if (n_jobs <? 0)%Z then (n_cpus + 1 + n_jobs)%Z else n_jobs)
           else n_configs in
    if (n_configs <? n_total_configs)%Z
    then Ok n_configs
    else Ok n_total_configs.

(** ** [_validate_types] *)

(** Modelled from the spec: [validate_object_type] is defined in
    [py_entitymatching.utils.validation_helper], which is not among the
    sources.  The entry point documents "AssertionError: If ltable, rtable
    or candset is not of type pandas DataFrame" and the spec lists type
    errors among its assertion-style failures, so the helper raises
    [AssertionError] when the object is not an instance of the type and
    returns otherwise. *)
Definition validate_object_type (o : pyobj) (ty : pytype) : M unit :=
  if isinstance o ty then mret tt else raise AssertionError.

Definition _validate_types
  (ltable rtable candidate_set output_size attr_corres verbose : pyobj)
  : M unit :=
  (_ <- validate_object_type ltable TDataFrame ;;
   _ <- validate_object_type rtable TDataFrame ;;
   _ <- validate_object_type candidate_set TDataFrame ;;
   _ <- validate_object_type output_size TInt ;;
   _ <- match attr_corres with
        | PNone => mret tt
        | PList pairs =>
            mfor (fun _ pair =>
                    if isinstance pair TTuple then mret tt
                    else
                      _ <- log_error
                             "Pair in attribute correspondence list is not of type tuple" ;;
                      raise AssertionError)
                 pairs tt
        | _ =>
            _ <- log_error "Input attribute correspondence is not of type list" ;;
            raise AssertionError
        end ;;
   if isinstance verbose TBool then mret tt
   else
     _ <- log_error "Parameter verbose is not of type bool" ;;
     raise AssertionError)%M.

(** ** [array('I', …)]: unsigned 32-bit items *)

Definition U32_MAX : N := 4294967295%N.

Definition fits_u32 (x : nat) : bool := (N.of_nat x <=? U32_MAX)%N.

Definition array_I (items : list nat) : result (list nat) :=
  if forallb fits_u32 items
  then Ok items
  else Err OverflowError.

Fixpoint update_at {A : Type} (i : nat) (v : A) (l : list A) {struct l}
  : list A :=
  match l, i with
  | [], _ => []
  | _ :: l', O => v :: l'
  | x :: l', S i' => x :: update_at i' v l'
  end.

(** ** [_calc_table_field_length] *)
Definition _calc_table_field_length
  (record_index_list : list (list nat)) (num_field : nat)
  : result (list (list nat)) :=
  mapM (fun record =>
          rbind (array_I (repeat 0%nat num_field)) (fun field_array =>
          foldM (fun field_array idx =>
                   if (num_field <=? idx)%nat then Err AssertionError
                   else
                     rbind (py_index field_array idx) (fun v =>
                     if fits_u32 (S v)
                     then Ok (update_at idx (S v) field_array)
                     else Err OverflowError))
                record field_array))
       record_index_list.

(** ** [_calc_table_field_token_sum] *)
Definition _calc_table_field_token_sum
  (table_field_length_list : list (list nat)) (num_field : nat)
  : result (list nat) :=
  foldM (fun table_field_token_sum field_array =>
           foldM (fun acc j =>
                    rbind (py_index acc j) (fun s =>
                    rbind (py_index field_array j) (fun v =>
                    Ok (update_at j (s + v)%nat acc))))
                 (range (List.length field_array)) table_field_token_sum)
        table_field_length_list (repeat 0%nat num_field).

(** ** [_check_input_field_correspondence_list]

    [field_corres_list] is [None] or a list here: [_validate_types] has
    run. *)
Definition is_pair (o : pyobj) : bool :=
  match o with
  | PTuple [_; _] => true
  | _ => false
  end.

(** [pair[k]] for a 2-tuple [pair] *)
Definition component (k : nat) (pair : pyobj) : pyobj :=
  match pair with
  | PTuple items => nth k items PNone
  | _ => PNone
  end.

Definition _check_input_field_correspondence_list
  (ltable rtable : DataFrame) (field_corres_list : option (list pyobj))
  : result unit :=
  match field_corres_list with
  | None => Ok tt
  | Some [] => Ok tt
  | Some pairs =>
      let true_ltable_fields := columns ltable in
      let true_rtable_fields := columns rtable in
      (_ <- foldM (fun _ pair =>
                     if is_pair pair then Ok tt else Err AssertionError)
                  pairs tt ;;
       let given_ltable_fields := map (component 0) pairs in
       let given_rtable_fields := map (component 1) pairs in
       _ <- foldM (fun _ given_field =>
                     if in_labels given_field true_ltable_fields then Ok tt
                     else Err AssertionError)
                  given_ltable_fields tt ;;
       foldM (fun _ given_field =>
                if in_labels given_field true_rtable_fields then Ok tt
                else Err AssertionError)
             given_rtable_fields tt)%res
  end.

(** ** [_get_field_correspondence_list]

    [attr_corres] is the user's list with its components read as column
    labels ([_check_input_field_correspondence_list] has accepted them). *)
Definition _get_field_correspondence_list {F : FloatOps} (X : Collaborators)
  (ltable rtable : DataFrame) (lkey rkey : label)
  (attr_corres : option (list (label * label)))
  : M (list (label * label)) :=
  (corres_list <-
     match attr_corres with
     | None | Some [] =>
         corres_list <- call Call_get_attr_corres
                          (get_attr_corres X ltable rtable) ;;
         if (List.length corres_list =? 0)%nat then raise AssertionError
         else mret corres_list
     | Some pairs => mret (fold_left (fun acc tu => acc ++ [tu]) pairs [])
     end ;;
   let key_pair := (lkey, rkey) in
   if negb (existsb (pair_eqb key_pair) corres_list)
   then mret (corres_list ++ [key_pair])
   else mret corres_list)%M.

(** ** [_build_col_name_index_dict] *)
Definition _build_col_name_index_dict (table : DataFrame) : dict label nat :=
  let col_names := columns table in
  fold_left (fun col_dict i =>
               match nth_error col_names i with
               | Some name => dict_set label_eqb col_dict name i
               | None => col_dict
               end)
            (range (List.length col_names)) [].

(** ** [_filter_corres_list]

    The list is changed in place in the source; the changed list is
    returned here.  [and] evaluates its right operand only when the left
    one holds, so the right table's dictionary is read only for a numeric
    left column. *)
Definition _filter_corres_list
  (ltable rtable : DataFrame) (ltable_key rtable_key : label)
  (ltable_col_dict rtable_col_dict : dict label nat)
  (corres_list : list (label * label))
  : result (list (label * label)) :=
  let ltable_dtypes := dtypes ltable in
  let rtable_dtypes := dtypes rtable in
  (corres_list <-
     foldM (fun corres_list i =>
              p <- py_index corres_list i ;;
              let lcol_name := fst p in
              let rcol_name := snd p in
              li <- dict_item label_eqb ltable_col_dict lcol_name ;;
              ld <- py_index ltable_dtypes li ;;
              if negb (dtype_eqb ld DObject) then
                ri <- dict_item label_eqb rtable_col_dict rcol_name ;;
                rd <- py_index rtable_dtypes ri ;;
                if negb (dtype_eqb rd DObject) then
                  if (negb (label_eqb lcol_name ltable_key)
                      && negb (label_eqb rcol_name rtable_key))%bool
                  then py_pop corres_list (Z.of_nat i)
                  else Ok corres_list
                else Ok corres_list
              else Ok corres_list)
           (List.rev (range (List.length corres_list))) corres_list ;;
   match corres_list with
   | [p] =>
       if (label_eqb (fst p) ltable_key && label_eqb (snd p) rtable_key)%bool
       then Err AssertionError
       else Ok corres_list
   | _ => Ok corres_list
   end)%res.

(** ** [_get_filtered_table] *)
Definition _get_filtered_table
  (ltable rtable : DataFrame) (corres_list : list (label * label))
  : result (DataFrame * DataFrame) :=
  let ltable_cols := map fst corres_list in
  let rtable_cols := map snd corres_list in
  (lfiltered_table <- getitems ltable ltable_cols ;;
   rfiltered_table <- getitems rtable rtable_cols ;;
   Ok (lfiltered_table, rfiltered_table))%res.

(** ** [_get_feature_weight]

    [n * 1.0 / m] converts both counts to floats; [0.0] is the float of
    [0]. *)
Definition is_non_empty (value : cell) : bool :=
  (negb (isnull value) && negb (cell_eqb value (CStr "")))%bool.

Definition count_column (col_values : list cell) : list cell * nat :=
  fold_left (fun '(value_set, non_empty_count) value =>
               if is_non_empty value
               then (set_add cell_eqb value value_set, S non_empty_count)
               else (value_set, non_empty_count))
            col_values ([], 0%nat).

Definition fnat {F : FloatOps} (n : nat) : float := float_of_int (Z.of_nat n).

Definition column_weight {F : FloatOps} (num_records : nat)
  (col_values : list cell) : float :=
  let '(value_set, non_empty_count) := count_column col_values in
  let selectivity :=
    if (non_empty_count =? 0)%nat then fnat 0
    else fdiv (fmul (fnat (List.length value_set)) (fnat 1))
              (fnat non_empty_count) in
  let non_empty_ratio :=
    fdiv (fmul (fnat non_empty_count) (fnat 1)) (fnat num_records) in
  fadd non_empty_ratio selectivity.

Definition _get_feature_weight {F : FloatOps} (table : DataFrame)
  : result (list float) :=
  let num_records := df_len table in
  if (num_records =? 0)%nat then Err AssertionError
  else
    mapM (fun col =>
            rbind (getitem table col) (fun col_values =>
            Ok (column_weight num_records col_values)))
         (columns table).

(** ** [_select_features] *)

Record Rank {F : FloatOps} : Type := mkRank {
  index : nat;
  weight : float
}.

Arguments mkRank {F} index weight.

(** [key_index = -1; for i in range(len(cols)): if key == cols[i]:
    key_index = i] *)
Definition find_key_index (key : label) (cols : list label) : Z :=
  fold_left (fun key_index i =>
               match nth_error cols i with
               | Some c => if label_eqb key c then Z.of_nat i else key_index
               | None => key_index
               end)
            (range (List.length cols)) (-1)%Z.

(** [sorted(rank_list, key=attrgetter('weight'), reverse=True)]: a stable
    sort by descending weight. *)
Definition sort_by_weight_desc {F : FloatOps} (rank_list : list Rank)
  : list Rank :=
  py_sorted (fun a b => fleb (weight b) (weight a)) rank_list.

Definition _select_features {F : FloatOps}
  (ltable rtable : DataFrame) (lkey rkey : label) : result (list nat) :=
  let lcolumns := columns ltable in
  let rcolumns := columns rtable in
  if negb (List.length lcolumns =? List.length rcolumns)%nat
  then Err AssertionError
  else
    let lkey_index := find_key_index lkey lcolumns in
    if (lkey_index <? 0)%Z then Err AssertionError
    else
      let rkey_index := find_key_index rkey rcolumns in
      if (rkey_index <? 0)%Z then Err AssertionError
      else
        (lweight <- _get_feature_weight ltable ;;
         rweight <- _get_feature_weight rtable ;;
         if negb (List.length lweight =? List.length rweight)%nat
         then Err AssertionError
         else
           rank_list <-
             foldM (fun rank_list i =>
                      lw <- py_index lweight i ;;
                      rw <- py_index rweight i ;;
                      Ok (rank_list ++ [mkRank i (fmul lw rw)]))
                   (range (List.length lweight)) [] ;;
           rank_list <-
             (if (lkey_index =? rkey_index)%Z
              then py_pop rank_list lkey_index
              else if (lkey_index >? rkey_index)%Z
                   then (rank_list <- py_pop rank_list lkey_index ;;
                         py_pop rank_list rkey_index)
                   else (rank_list <- py_pop rank_list rkey_index ;;
                         py_pop rank_list lkey_index)) ;;
           let rank_list := sort_by_weight_desc rank_list in
           let num_selected_fields :=
             if (List.length rank_list <? SELECTED_FIELDS_UPPER_BOUND)%nat
             then List.length rank_list
             else SELECTED_FIELDS_UPPER_BOUND in
           foldM (fun rank_index_list i =>
                    r <- py_index rank_list i ;;
                    Ok (rank_index_list ++ [index r]))
                 (range num_selected_fields) [])%res.

(** ** [_build_id_to_index_map] *)
Definition _build_id_to_index_map (table : DataFrame) (table_key : label)
  : result (dict cell nat) :=
  (id_col <- getitem table table_key ;;
   foldM (fun record_id_to_index i =>
            id <- py_index id_col i ;;
            if dict_mem cell_eqb record_id_to_index id
            then Err AssertionError
            else Ok (dict_set cell_eqb record_id_to_index id i))
         (range (List.length id_col)) [])%res.

(** ** [_replace_nan_to_empty]

    ['{0:.0f}'.format(x)] rounds to the nearest integer, ties to the even
    one, and keeps the sign of a negative [x] (so [-0.4] gives "-0"). *)
Definition round_half_even (q : Q) : Z :=
  let f := Qfloor q in
  match Qcompare (q - inject_Z f) (1 # 2) with
  | Lt => f
  | Gt => (f + 1)%Z
  | Eq => if Z.even f then f else (f + 1)%Z
  end.

Definition format_0f (q : Q) : string :=
  let sign := match Qcompare q 0 with Lt => "-" | _ => "" end in
  (sign ++ str_of_nat (Z.abs_nat (round_half_even q)))%string.

Definition _replace_nan_to_empty (field : cell) : string :=
  match field with
  | CNone | CNaN => ""
  | CNum q => format_0f q
  | CStr s => s
  end.

(** ** [_get_tokenized_column] *)
Definition _get_tokenized_column (column : list cell) : list (list string) :=
  map (fun value =>
         let tmp_value := _replace_nan_to_empty value in
         if negb (String.eqb tmp_value "")
         then split_space (lower tmp_value)
         else [""])
      column.

(** ** [_get_tokenized_table] *)

(** The body of [for token in tmp_col_tokens], for field [j]. *)
Definition add_token (j : nat)
  (st : list (string * nat) * dict string nat) (token : string)
  : list (string * nat) * dict string nat :=
  let '(token_list, index_map) := st in
  if negb (String.eqb token "") then
    match dict_get String.eqb index_map token with
    | Some k =>
        (token_list ++ [((token ++ "_" ++ str_of_nat k)%string, j)],
         dict_set String.eqb index_map token (S k))
    | None =>
        (token_list ++ [(token, j)], dict_set String.eqb index_map token 1%nat)
    end
  else st.

Definition _get_tokenized_table
  (table : DataFrame) (table_key : label) (feature_list : list nat)
  : result (list (list (string * nat))) :=
  (cols <- mapM (py_index (columns table)) feature_list ;;
   tmp_table <- mapM (fun col =>
                        column <- getitem table col ;;
                        Ok (_get_tokenized_column column))
                     cols ;;
   num_records <- getitem_len table table_key ;;
   mapM (fun i =>
           st <- foldM (fun st j =>
                          column_token_list <- py_index tmp_table j ;;
                          tmp_col_tokens <- py_index column_token_list i ;;
                          Ok (fold_left (add_token j) tmp_col_tokens st))
                       (range (List.length cols)) ([], []) ;;
           Ok (fst st))
        (range num_records))%res.

(** ** [_index_candidate_set] *)
Definition _index_candidate_set {F : FloatOps} (X : Collaborators)
  (candidate_set : DataFrame)
  (lrecord_id_to_index_map rrecord_id_to_index_map : dict cell nat)
  (verbose : bool) : M candset_index :=
  if (df_len candidate_set =? 0)%nat then mret []
  else
    (md <- call Call_get_metadata_for_candset
             (get_metadata_for_candset X candidate_set verbose) ;;
     _ <- call Call_validate_metadata_for_candset
            (validate_metadata_for_candset X candidate_set md verbose) ;;
     ltable_key_data <- lift (getitem candidate_set (cm_fk_ltable md)) ;;
     rtable_key_data <- lift (getitem candidate_set (cm_fk_rtable md)) ;;
     lift
       (foldM (fun new_formatted_candidate_set i =>
                 (lid <- py_index ltable_key_data i ;;
                  if dict_mem cell_eqb lrecord_id_to_index_map lid then
                    rid <- py_index rtable_key_data i ;;
                    if dict_mem cell_eqb rrecord_id_to_index_map rid then
                      l_key_data <- dict_item cell_eqb
                                      lrecord_id_to_index_map lid ;;
                      r_key_data <- dict_item cell_eqb
                                      rrecord_id_to_index_map rid ;;
                      match dict_get Nat.eqb new_formatted_candidate_set
                                     l_key_data with
                      | Some s =>
                          Ok (dict_set Nat.eqb new_formatted_candidate_set
                                l_key_data (set_add Nat.eqb r_key_data s))
                      | None =>
                          Ok (dict_set Nat.eqb new_formatted_candidate_set
                                l_key_data [r_key_data])
                      end
                    else Ok new_formatted_candidate_set
                  else Ok new_formatted_candidate_set)%res)
              (range (List.length ltable_key_data)) []))%M.

(** ** [_build_global_token_order_impl] *)
Definition count_token (order_dict : dict string nat) (tup : string * nat)
  : dict string nat :=
  let token := fst tup in
  match dict_get String.eqb order_dict token with
  | Some c => dict_set String.eqb order_dict token (S c)
  | None => dict_set String.eqb order_dict token 1%nat
  end.

Definition _build_global_token_order_impl
  (record_list : list (list (string * nat))) (order_dict : dict string nat)
  : dict string nat :=
  fold_left (fun order_dict record => fold_left count_token record order_dict)
            record_list order_dict.

(** ** [_build_global_token_order] *)

(** [<=] on the sort keys [(freq_order_dict[x], x)], Python's order on
    tuples of an integer and a string. *)
Definition key_leb (a b : nat * string) : bool :=
  ((fst a <? fst b)%nat
   || ((fst a =? fst b)%nat && String.leb (snd a) (snd b)))%bool.

Definition _build_global_token_order
  (lrecord_list rrecord_list : list (list (string * nat)))
  : result (dict string nat * dict nat string) :=
  let freq_order_dict := _build_global_token_order_impl lrecord_list [] in
  let freq_order_dict :=
    _build_global_token_order_impl rrecord_list freq_order_dict in
  let token_list :=
    fold_left (fun token_list token => token_list ++ [token])
              (dict_keys freq_order_dict) [] in
  (keyed <- mapM (fun x =>
                    c <- dict_item String.eqb freq_order_dict x ;;
                    Ok ((c, x), x))
                 token_list ;;
   let token_list :=
     map snd (py_sorted (fun a b => key_leb (fst a) (fst b)) keyed) in
   foldM (fun '(order_dict, token_index_dict) i =>
            token <- py_index token_list i ;;
            Ok (dict_set String.eqb order_dict token i,
                dict_set Nat.eqb token_index_dict i token))
         (range (List.length token_list)) ([], []))%res.

(** ** [_replace_token_with_numeric_index] *)
Definition _replace_token_with_numeric_index
  (record_list : list (list (string * nat))) (order_dict : dict string nat)
  : list (list (nat * nat)) :=
  map (fun record =>
         fold_left (fun tmp_record tup =>
                      let token := fst tup in
                      let index := snd tup in
                      match dict_get String.eqb order_dict token with
                      | Some rank => tmp_record ++ [(rank, index)]
                      | None => tmp_record
                      end)
                   record [])
      record_list.

(** ** [_sort_record_tokens_by_global_order] *)
Definition _sort_record_tokens_by_global_order
  (record_list : list (list (nat * nat))) : list (list (nat * nat)) :=
  map (py_sorted (fun a b => (fst a <=? fst b)%nat)) record_list.

(** ** [_split_record_token_and_index] *)
Definition _split_record_token_and_index
  (record_list : list (list (nat * nat)))
  : result (list (list nat) * list (list nat)) :=
  foldM (fun '(record_token_list, record_index_list) record =>
           let token_list := map fst record in
           let index_list := map snd record in
           (tokens <- array_I token_list ;;
            fields <- array_I index_list ;;
            Ok (record_token_list ++ [tokens],
                record_index_list ++ [fields]))%res)
        record_list ([], []).

(** ** [_assemble_topk_table] *)

(** [prefix + name]: string concatenation, a [TypeError] for a label that
    is not a string. *)
Definition prefix_label (prefix : string) (l : label) : result string :=
  match l with
  | LName s => Ok (prefix ++ s)%string
  | LPos _ => Err TypeError
  end.

(** [key_index = 0; for i in range(len(names)): if names[i] == key:
    key_index = i] *)
Definition key_position (key : label) (names : list label) : nat :=
  fold_left (fun key_index i =>
               match nth_error names i with
               | Some c => if label_eqb c key then i else key_index
               | None => key_index
               end)
            (range (List.length names)) 0%nat.

(** [pd.DataFrame(rows)]: one column per position, labelled by position;
    a frame without rows has no column. *)
Definition frame_of_rows {F : FloatOps} (X : Collaborators)
  (rows : list (list cell)) : DataFrame :=
  let width := fold_right (fun row w => Nat.max (List.length row) w) 0%nat rows in
  mkFrame (List.length rows)
          (map (fun j =>
                  let values := map (fun row => nth j row CNaN) rows in
                  mkColumn (LPos j) (infer_dtype X values) values)
               (range width)).

(** [frame.columns = names]: a [ValueError] on a length mismatch. *)
Definition set_columns (t : DataFrame) (names : list label)
  : result DataFrame :=
  if (List.length names =? List.length (df_cols t))%nat
  then Ok (mkFrame (df_len t)
             (map (fun nc => mkColumn (fst nc) (col_dtype (snd nc))
                                      (col_values (snd nc)))
                  (combine names (df_cols t))))
  else Err ValueError.

(** [x for j, x in enumerate(record) if j != key_index] *)
Definition without_position {A : Type} (key_index : nat) (record : list A)
  : list A :=
  map snd (filter (fun jx => negb (fst jx =? key_index)%nat)
                  (combine (range (List.length record)) record)).

Definition _assemble_topk_table {F : FloatOps} (X : Collaborators)
  (rec_list : list (float * nat * nat)) (ltable rtable : DataFrame)
  (lkey rkey : label) : M DataFrame :=
  let ret_key := "_id" in
  let l_output_prefix := "ltable_" in
  let r_output_prefix := "rtable_" in
  let ret_data_col_name_list := ["_id"] in
  let ltable_col_names := columns ltable in
  let rtable_col_names := columns rtable in
  let lkey_index := key_position lkey ltable_col_names in
  let rkey_index := key_position rkey rtable_col_names in
  (l_name <- lift (prefix_label l_output_prefix lkey) ;;
   let ret_data_col_name_list := ret_data_col_name_list ++ [l_name] in
   r_name <- lift (prefix_label r_output_prefix rkey) ;;
   let ret_data_col_name_list := ret_data_col_name_list ++ [r_name] in
   ltable_col_names <- lift (py_remove label_eqb lkey ltable_col_names) ;;
   rtable_col_names <- lift (py_remove label_eqb rkey rtable_col_names) ;;
   ret_data_col_name_list <-
     lift (foldM (fun names c =>
                    rbind (prefix_label l_output_prefix c) (fun s =>
                    Ok (names ++ [s])))
                 ltable_col_names ret_data_col_name_list) ;;
   ret_data_col_name_list <-
     lift (foldM (fun names c =>
                    rbind (prefix_label r_output_prefix c) (fun s =>
                    Ok (names ++ [s])))
                 rtable_col_names ret_data_col_name_list) ;;
   ret_tuple_list <-
     lift (foldM (fun ret_tuple_list i =>
                    (tup <- py_index rec_list i ;;
                     lrecord <- loc ltable (snd (fst tup)) ;;
                     rrecord <- loc rtable (snd tup) ;;
                     let ret_tuple := [CNum (inject_Z (Z.of_nat i))] in
                     lk <- py_index lrecord lkey_index ;;
                     let ret_tuple := ret_tuple ++ [lk] in
                     rk <- py_index rrecord rkey_index ;;
                     let ret_tuple := ret_tuple ++ [rk] in
                     let ret_tuple :=
                       ret_tuple ++ without_position lkey_index lrecord in
                     let ret_tuple :=
                       ret_tuple ++ without_position rkey_index rrecord in
                     Ok (ret_tuple_list ++ [ret_tuple]))%res)
                 (range (List.length rec_list)) []) ;;
   let data_frame := frame_of_rows X ret_tuple_list in
   if (df_len data_frame =? 0)%nat then mret data_frame
   else
     data_frame <- lift (set_columns data_frame
                           (map LName ret_data_col_name_list)) ;;
     _ <- call Call_set_candset_properties
            (set_candset_properties X data_frame (LName ret_key)
               (LName l_name) (LName r_name) ltable rtable) ;;
     mret data_frame)%M.

(** ** [debugblocker_cython_parallel]

    [Parallel(n_jobs)(…)] is taken as running the configurations in order.
    [len] is applied to the pickled bytes, as in the source. *)
Definition debugblocker_cython_parallel {F : FloatOps} (X : Collaborators)
  (lrecord_token_list rrecord_token_list : list (list nat))
  (lrecord_index_list rrecord_index_list : list (list nat))
  (ltable_field_token_sum rtable_field_token_sum : list nat)
  (py_cand_set : candset_index) (py_num_fields : nat)
  (py_output_size n_jobs n_configs : Z) : M (list (float * nat * nat)) :=
  let lrecord_token_list := pickle_dumps X lrecord_token_list in
  let rrecord_token_list := pickle_dumps X rrecord_token_list in
  let lrecord_index_list := pickle_dumps X lrecord_index_list in
  let rrecord_index_list := pickle_dumps X rrecord_index_list in
  (py_config_lists <-
     call Call_debugblocker_config_cython
       (debugblocker_config_cython X ltable_field_token_sum
          rtable_field_token_sum py_num_fields
          (pickled_len X lrecord_token_list)
          (pickled_len X rrecord_token_list)) ;;
   n_configs <- lift (_get_config_num (cpu_count X) n_jobs n_configs
                        (Z.of_nat (List.length py_config_lists))) ;;
   rec_lists <-
     mmap (fun i =>
             cfg <- lift (py_index py_config_lists i) ;;
             call (Call_debugblocker_topk_cython i)
               (debugblocker_topk_cython_wrapper X cfg lrecord_token_list
                  rrecord_token_list lrecord_index_list rrecord_index_list
                  py_cand_set py_output_size))
          (range (Z.to_nat n_configs)) ;;
   call Call_debugblocker_merge_topk_cython
     (debugblocker_merge_topk_cython X rec_lists))%M.

(** ** [debug_blocker] *)

Definition as_int (o : pyobj) : option Z :=
  match o with
  | PInt z => Some z
  | PBool b => Some (if b then 1 else 0)%Z
  | _ => None
  end.

Definition corres_of (o : pyobj) : option (list pyobj) :=
  match o with
  | PList pairs => Some pairs
  | _ => None
  end.

Definition labels_of_pair (pair : pyobj) : result (label * label) :=
  match label_of (component 0 pair), label_of (component 1 pair) with
  | Some a, Some b => Ok (a, b)
  | _, _ => Err TypeError
  end.

Definition labels_of_corres (attr_corres : pyobj)
  : result (option (list (label * label))) :=
  match corres_of attr_corres with
  | None => Ok None
  | Some pairs => rbind (mapM labels_of_pair pairs) (fun l => Ok (Some l))
  end.

(** [debug_blocker] after its checks on the table sizes and on
    [output_size], in two parts.  First part: the keys, the correspondence
    list and the two filtered tables. *)
Definition prepare_tables {F : FloatOps} (X : Collaborators)
  (ltable rtable : DataFrame) (attr_corres : pyobj) (verbose : bool)
  : M (label * label * DataFrame * DataFrame) :=
  (keys <- call Call_get_keys_for_ltable_rtable
             (get_keys_for_ltable_rtable X ltable rtable verbose) ;;
   let l_key := fst keys in
   let r_key := snd keys in
   _ <- call (Call_validate_metadata_for_table "ltable")
          (validate_metadata_for_table X ltable l_key "ltable" verbose) ;;
   _ <- call (Call_validate_metadata_for_table "rtable")
          (validate_metadata_for_table X rtable r_key "rtable" verbose) ;;
   _ <- lift (_check_input_field_correspondence_list ltable rtable
                (corres_of attr_corres)) ;;
   user_corres <- lift (labels_of_corres attr_corres) ;;
   corres_list <- _get_field_correspondence_list X ltable rtable
                    l_key r_key user_corres ;;
   let ltable_col_dict := _build_col_name_index_dict ltable in
   let rtable_col_dict := _build_col_name_index_dict rtable in
   corres_list <- lift (_filter_corres_list ltable rtable l_key r_key
                          ltable_col_dict rtable_col_dict corres_list) ;;
   filtered <- lift (_get_filtered_table ltable rtable corres_list) ;;
   let ltable_filtered := fst filtered in
   let rtable_filtered := snd filtered in
   mret (l_key, r_key, ltable_filtered, rtable_filtered))%M.

(** Second part: from the feature selection to the assembled result. *)
Definition join_tables {F : FloatOps} (X : Collaborators)
  (candidate_set ltable_filtered rtable_filtered : DataFrame)
  (l_key r_key : label) (output_size : Z) (verbose : bool)
  (n_jobs n_configs : Z) : M DataFrame :=
  (feature_list <- lift (_select_features ltable_filtered rtable_filtered
                           l_key r_key) ;;
   if (List.length feature_list =? 0)%nat then raise AssertionError
   else
     lrecord_id_to_index_map <-
       lift (_build_id_to_index_map ltable_filtered l_key) ;;
     rrecord_id_to_index_map <-
       lift (_build_id_to_index_map rtable_filtered r_key) ;;
     lrecord_list <-
       lift (_get_tokenized_table ltable_filtered l_key feature_list) ;;
     rrecord_list <-
       lift (_get_tokenized_table rtable_filtered r_key feature_list) ;;
     orders <- lift (_build_global_token_order lrecord_list rrecord_list) ;;
     let order_dict := fst orders in
     let lrecord_list :=
       _replace_token_with_numeric_index lrecord_list order_dict in
     let rrecord_list :=
       _replace_token_with_numeric_index rrecord_list order_dict in
     let lrecord_list := _sort_record_tokens_by_global_order lrecord_list in
     let rrecord_list := _sort_record_tokens_by_global_order rrecord_list in
     lsplit <- lift (_split_record_token_and_index lrecord_list) ;;
     rsplit <- lift (_split_record_token_and_index rrecord_list) ;;
     let lrecord_token_list := fst lsplit in
     let lrecord_index_list := snd lsplit in
     let rrecord_token_list := fst rsplit in
     let rrecord_index_list := snd rsplit in
     new_formatted_candidate_set <-
       _index_candidate_set X candidate_set lrecord_id_to_index_map
         rrecord_id_to_index_map verbose ;;
     let num_fields := List.length feature_list in
     ltable_field_length_list <-
       lift (_calc_table_field_length lrecord_index_list num_fields) ;;
     rtable_field_length_list <-
       lift (_calc_table_field_length rrecord_index_list num_fields) ;;
     ltable_field_token_sum <-
       lift (_calc_table_field_token_sum ltable_field_length_list num_fields) ;;
     rtable_field_token_sum <-
       lift (_calc_table_field_token_sum rtable_field_length_list num_fields) ;;
     rec_list <-
       debugblocker_cython_parallel X lrecord_token_list rrecord_token_list
         lrecord_index_list rrecord_index_list ltable_field_token_sum
         rtable_field_token_sum new_formatted_candidate_set num_fields
         output_size n_jobs n_configs ;;
     _assemble_topk_table X (firstn (Z.to_nat output_size) rec_list)
       ltable_filtered rtable_filtered l_key r_key)%M.

Definition debug_blocker_body {F : FloatOps} (X : Collaborators)
  (candidate_set ltable rtable : DataFrame) (output_size : Z)
  (attr_corres : pyobj) (verbose : bool) (n_jobs n_configs : Z)
  : M DataFrame :=
  mbind (prepare_tables X ltable rtable attr_corres verbose)
        (fun '(l_key, r_key, ltable_filtered, rtable_filtered) =>
           join_tables X candidate_set ltable_filtered rtable_filtered
             l_key r_key output_size verbose n_jobs n_configs).

(** The entry point.  [n_jobs] and [n_configs] are integers; the other
    arguments are checked by [_validate_types], after which the tables are
    frames, [output_size] is an integer and [verbose] a boolean. *)
Definition debug_blocker {F : FloatOps} (X : Collaborators)
  (candidate_set ltable rtable output_size attr_corres verbose : pyobj)
  (n_jobs n_configs : Z) : M DataFrame :=
  (_ <- _validate_types ltable rtable candidate_set output_size
          attr_corres verbose ;;
   match ltable, rtable, candidate_set, as_int output_size, verbose with
   | PFrame ltable, PFrame rtable, PFrame candidate_set,
     Some output_size, PBool verbose =>
       if (df_len ltable =? 0)%nat then raise AssertionError
       else if (df_len rtable =? 0)%nat then raise AssertionError
       else if (output_size <=? 0)%Z then raise AssertionError
       else debug_blocker_body X candidate_set ltable rtable output_size
              attr_corres verbose n_jobs n_configs
   | _, _, _, _, _ => raise TypeError
   end)%M.

(** ** Rationals as floats, to run the definitions *)

Definition QFloat : FloatOps :=
  {| float := Q;
     float_of_int := inject_Z;
     fadd := Qplus;
     fmul := Qmult;
     fdiv := Qdiv;
     fleb := Qle_bool |}.

(** ** Concrete inputs

    Two small tables with key column [id], and collaborators that stand
    for a catalog in which both tables have key [id] and nothing is
    registered for the candidate set, and for a join that offers one
    configuration and finds no pair. *)

Definition demo_ltable : DataFrame :=
  mkFrame 2
    [mkColumn (LName "id") DObject [CStr "a1"; CStr "a2"];
     mkColumn (LName "name") DObject [CStr "Alice Smith"; CStr "Bob"];
     mkColumn (LName "age") DNumeric [CNum 30; CNum 41]].

Definition demo_rtable : DataFrame :=
  mkFrame 2
    [mkColumn (LName "id") DObject [CStr "b1"; CStr "b2"];
     mkColumn (LName "name") DObject [CStr "alice smith"; CStr "Rob"];
     mkColumn (LName "age") DNumeric [CNum 30; CNum 17]].

Definition demo_candset : DataFrame := mkFrame 0 [].

Definition demo_collaborators : @Collaborators QFloat :=
  {| get_keys_for_ltable_rtable := fun _ _ _ => Ok (LName "id", LName "id");
     validate_metadata_for_table := fun _ _ _ _ => Ok tt;
     get_attr_corres := fun l r =>
       Ok (map (fun c => (c, c))
             (filter (fun c => existsb (label_eqb c) (columns r)) (columns l)));
     get_metadata_for_candset := fun _ _ => Err KeyError;
     validate_metadata_for_candset := fun _ _ _ => Err AssertionError;
     set_candset_properties := fun _ _ _ _ _ _ => Ok tt;
     cpu_count := 4%Z;
     pickled := list (list nat);
     pickle_dumps := fun l => l;
     pickled_len := fun l => List.length l;
     config := unit;
     debugblocker_config_cython := fun _ _ _ _ _ => Ok [tt];
     debugblocker_topk_cython_wrapper := fun _ _ _ _ _ _ _ => Ok [];
     debugblocker_merge_topk_cython := fun _ => Ok [];
     infer_dtype := fun _ => DObject |}.

(** The filtered tables of the two small tables for the correspondence
    [(id, id), (name, name)], and for [(id, id), (id, name)]. *)
Definition demo_lfiltered : DataFrame :=
  mkFrame 2
    [mkColumn (LName "id") DObject [CStr "a1"; CStr "a2"];
     mkColumn (LName "name") DObject [CStr "Alice Smith"; CStr "Bob"]].

Definition demo_rfiltered : DataFrame :=
  mkFrame 2
    [mkColumn (LName "id") DObject [CStr "b1"; CStr "b2"];
     mkColumn (LName "name") DObject [CStr "alice smith"; CStr "Rob"]].

Definition demo_lfiltered_keys : DataFrame :=
  mkFrame 2
    [mkColumn (LName "id") DObject [CStr "a1"; CStr "a2"];
     mkColumn (LName "id") DObject [CStr "a1"; CStr "a2"]].

Definition demo_corres_keys : pyobj :=
  PList [PTuple [PStr "id"; PStr "id"]; PTuple [PStr "id"; PStr "name"]].

(** Two tables whose columns, the key included, are all numeric. *)
Definition demo_lnumeric : DataFrame :=
  mkFrame 2
    [mkColumn (LName "id") DNumeric [CNum 1; CNum 2];
     mkColumn (LName "age") DNumeric [CNum 30; CNum 41]].

Definition demo_rnumeric : DataFrame :=
  mkFrame 2
    [mkColumn (LName "id") DNumeric [CNum 7; CNum 8];
     mkColumn (LName "age") DNumeric [CNum 30; CNum 17]].

(** A table with one record whose [name] holds the token [a] twice and
    then the token [a_1]. *)
Definition demo_collision : DataFrame :=
  mkFrame 1
    [mkColumn (LName "id") DObject [CStr "r1"];
     mkColumn (LName "name") DObject [CStr "a a a_1"]].

(** * Vocabulary of the properties *)

(** From [t] to [t'] only logger messages were added to the trace. *)
Definition only_logged (t t' : trace) : Prop :=
  exists msgs, t' = t ++ map LoggerError msgs.

(** A column label that is a string. *)
Definition is_name (l : label) : Prop := exists s, l = LName s.

(** The elements of a list with their positions. *)
Definition enumerate {A : Type} (l : list A) : list (nat * A) :=
  combine (range (List.length l)) l.

(** The values that iterating [t[c]] yields, none for a label that no
    column carries. *)
Definition iterated (t : DataFrame) (c : label) : list cell :=
  match getitem t c with
  | Ok values => values
  | Err _ => []
  end.

(** [score(i) = weight_L(i) * weight_R(i)], one entry per column index. *)
Definition scores {F : FloatOps} (lweight rweight : list float) : list Rank :=
  map (fun x => mkRank (fst x) (fmul (fst (snd x)) (snd (snd x))))
      (enumerate (combine lweight rweight)).

(** The entries that are left when those of the key positions are taken
    out. *)
Definition without_keys {F : FloatOps} (li ri : nat) (ranks : list Rank)
  : list Rank :=
  filter (fun r => (negb (index r =? li) && negb (index r =? ri))%nat%bool)
         ranks.

(** The removals as the source orders them: one [pop] for a common
    position, otherwise the larger position first. *)
Definition popped {F : FloatOps} (li ri : nat) (ranks : list Rank)
  : list Rank :=
  if (li =? ri)%nat then remove_at li ranks
  else remove_at (Nat.min li ri) (remove_at (Nat.max li ri) ranks).

(** The dtype the filter reads for column [c] of [table]. *)
Definition dtype_of (table : DataFrame) (c : label) : option dtype :=
  match dict_get label_eqb (_build_col_name_index_dict table) c with
  | Some i => nth_error (dtypes table) i
  | None => None
  end.

(** [dtypes[col_dict[c]] != numpy.dtype('O')] *)
Definition is_numeric (table : DataFrame) (c : label) : bool :=
  match dtype_of table c with
  | Some d => negb (dtype_eqb d DObject)
  | None => false
  end.

(** A pair is removed when both its columns are numeric and neither is the
    key of its table; it is kept otherwise. *)
Definition keep_pair (ltable rtable : DataFrame) (ltable_key rtable_key : label)
  (p : label * label) : bool :=
  negb (is_numeric ltable (fst p) && is_numeric rtable (snd p)
        && negb (label_eqb (fst p) ltable_key)
        && negb (label_eqb (snd p) rtable_key)).

(** Every pair names a column of the left and a column of the right
    table. *)
Definition columns_exist (ltable rtable : DataFrame)
  (corres_list : list (label * label)) : Prop :=
  Forall (fun p => In (fst p) (columns ltable) /\ In (snd p) (columns rtable))
         corres_list.

(** The final test of [_filter_corres_list]: one pair is left and it is
    the key pair. *)
Definition only_key_pair (ltable_key rtable_key : label)
  (kept : list (label * label)) : bool :=
  match kept with
  | [p] => (label_eqb (fst p) ltable_key && label_eqb (snd p) rtable_key)%bool
  | _ => false
  end.

(** The list with the key pair: appended when it is missing. *)
Definition add_key_pair (lkey rkey : label) (base : list (label * label))
  : list (label * label) :=
  if existsb (pair_eqb (lkey, rkey)) base then base else base ++ [(lkey, rkey)].

(** No element is equal ([==]) to an earlier one. *)
Inductive all_different : list cell -> Prop :=
| all_different_nil : all_different []
| all_different_snoc (vs : list cell) (x : cell) :
    all_different vs -> existsb (cell_eqb x) vs = false ->
    all_different (vs ++ [x]).

(** [vs] holds one value of [l] for each class of equal values of [l]. *)
Definition representatives (vs l : list cell) : Prop :=
  all_different vs /\ incl vs l /\
  forall v, In v l -> existsb (cell_eqb v) vs = true.

(** The weight of a column from the number of its non-empty values and
    the number of distinct ones: [non_empty_ratio + selectivity]. *)
Definition weight_of_counts {F : FloatOps}
  (num_records non_empty distinct : nat) : float :=
  fadd (fdiv (fmul (fnat non_empty) (fnat 1)) (fnat num_records))
       (if (non_empty =? 0)%nat then fnat 0
        else fdiv (fmul (fnat distinct) (fnat 1)) (fnat non_empty)).

(** The weight as the spec words it: the values are coerced to strings
    first, absent is the empty string, distinct is distinct as strings. *)
Definition spec_column_weight {F : FloatOps} (num_records : nat)
  (vals : list cell) : float :=
  let coerced := map _replace_nan_to_empty vals in
  let non_empty := filter (fun s => negb (String.eqb s "")) coerced in
  weight_of_counts num_records (List.length non_empty)
    (List.length (nodup string_dec non_empty)).

(** A value that is not a number: a string or a missing value. *)
Definition no_number (v : cell) : bool :=
  match v with
  | CNum _ => false
  | _ => true
  end.

(** The strict order of the sort keys (frequency, token string): the
    frequency is smaller, or it is the same and the token string is
    smaller. *)
Definition key_lt (freq : string -> nat) (a b : string) : Prop :=
  (freq a < freq b)%nat \/ (freq a = freq b /\ String.ltb a b = true).

(** The count a frequency dictionary holds for a token, 0 without one. *)
Definition dict_count (d : dict string nat) (t : string) : nat :=
  match dict_get String.eqb d t with
  | Some c => c
  | None => 0%nat
  end.

(** The token arrays of the records of one table, from its tokenized
    records: ranks substituted, sorted, split. *)
Definition token_arrays (record_list : list (list (string * nat)))
  (order_dict : dict string nat) : result (list (list nat)) :=
  rbind (_split_record_token_and_index
           (_sort_record_tokens_by_global_order
              (_replace_token_with_numeric_index record_list order_dict)))
        (fun split => Ok (fst split)).

(** A string without the character [_]. *)
Fixpoint underscore_free (s : string) : bool :=
  match s with
  | EmptyString => true
  | String c s' => (negb (Ascii.eqb c "_"%char) && underscore_free s')%bool
  end.

(** Every emitted string is a seen token [t] or [t_i] for one of the
    suffixes handed out for [t] so far; the index map holds, for each seen
    token, the next suffix. *)
Definition suffix_inv (st : list (string * nat) * dict string nat) : Prop :=
  NoDup (map fst (fst st)) /\
  (forall t k, dict_get String.eqb (snd st) t = Some k ->
               underscore_free t = true /\ (1 <= k)%nat) /\
  (forall s, In s (map fst (fst st)) ->
             exists t k,
               dict_get String.eqb (snd st) t = Some k /\
               (s = t \/
                exists i, (1 <= i < k)%nat /\
                          s = (t ++ String "_"%char (str_of_nat i))%string)).

(** What [_replace_token_with_numeric_index] puts for one token: its rank
    with the field, nothing for a token without a rank. *)
Definition rank_of (order_dict : dict string nat) (tup : string * nat)
  : list (nat * nat) :=
  match dict_get String.eqb order_dict (fst tup) with
  | Some rank => [(rank, snd tup)]
  | None => []
  end.


(** The pair of row positions [(l, r)] is in the reformatted candidate
    set. *)
Definition indexed (index : candset_index) (l r : nat) : Prop :=
  exists s, dict_get Nat.eqb index l = Some s /\ In r s.

(** Some row of the two key columns holds the ids of the records at the
    positions [l] and [r]. *)
Definition candidate_row (lmap rmap : dict cell nat)
  (lkeys rkeys : list cell) (l r : nat) : Prop :=
  exists i lid rid,
    nth_error lkeys i = Some lid /\ nth_error rkeys i = Some rid /\
    dict_get cell_eqb lmap lid = Some l /\
    dict_get cell_eqb rmap rid = Some r.

(** A candidate set of two pairs, the first of them naming a left record
    that is not known, and a catalog in which it is registered. *)
Definition demo_pairs : DataFrame :=
  mkFrame 3
    [mkColumn (LName "_id") DObject [CStr "0"; CStr "1"; CStr "2"];
     mkColumn (LName "ltable_id") DObject [CStr "a9"; CStr "a1"; CStr "a1"];
     mkColumn (LName "rtable_id") DObject [CStr "b1"; CStr "b2"; CStr "b2"]].

Definition demo_catalog : @Collaborators QFloat :=
  {| get_keys_for_ltable_rtable := fun _ _ _ => Ok (LName "id", LName "id");
     validate_metadata_for_table := fun _ _ _ _ => Ok tt;
     get_attr_corres := fun l r =>
       Ok (map (fun c => (c, c))
             (filter (fun c => existsb (label_eqb c) (columns r)) (columns l)));
     get_metadata_for_candset := fun _ _ =>
       Ok (mkCandsetMetadata (LName "_id") (LName "ltable_id")
             (LName "rtable_id") demo_ltable demo_rtable
             (LName "id") (LName "id"));
     validate_metadata_for_candset := fun _ _ _ => Ok tt;
     set_candset_properties := fun _ _ _ _ _ _ => Ok tt;
     cpu_count := 4%Z;
     pickled := list (list nat);
     pickle_dumps := fun l => l;
     pickled_len := fun l => List.length l;
     config := nat;
     debugblocker_config_cython := fun _ _ _ _ _ => Ok [0; 1; 2]%nat;
     debugblocker_topk_cython_wrapper := fun c _ _ _ _ _ _ =>
       Ok [(@float_of_int QFloat 1%Z, c, 0%nat)];
     debugblocker_merge_topk_cython := fun l => Ok (List.concat l);
     infer_dtype := fun _ => DObject |}.

(** A value that counts as absent in a column: None, NaN or the empty
    string. *)
Definition absent (v : cell) : bool :=
  match v with
  | CNone | CNaN => true
  | CStr s => String.eqb s ""
  | CNum _ => false
  end.

(** * Properties *)

(** ** The order of the rationals *)

Lemma QFloat_order : FloatOrder QFloat.
Proof.
  split.
  - intros x y. cbn. destruct (Qlt_le_dec x y) as [H | H].
    + left. apply Qle_bool_iff. apply Qlt_le_weak. exact H.
    + right. apply Qle_bool_iff. exact H.
  - intros x y z. cbn. rewrite !Qle_bool_iff. apply Qle_trans.
Qed.

(** ** Configuration count resolution *)



(** C5.  For [n_jobs <> 0] and [n_configs] in [{-2, -1}] or at least 1, the
    resolved configuration count is: [N] for [n_configs = -2];
    [P + 1 + n_jobs] for [n_configs = -1] and [n_jobs < 0]; [n_jobs] for
    [n_configs = -1] and [n_jobs > 0]; the given [n_configs] otherwise;
    each clamped so as not to exceed [N]. *)
Theorem C5_config_count_resolution (P n_jobs n_configs N : Z) :
  n_jobs <> 0%Z ->
  (n_configs = -2 \/ n_configs = -1 \/ 1 <= n_configs)%Z ->
  (n_configs = -2 -> _get_config_num P n_jobs n_configs N = Ok N)%Z /\
  (n_configs = -1 -> n_jobs < 0 ->
   _get_config_num P n_jobs n_configs N = Ok (Z.min (P + 1 + n_jobs) N))%Z /\
  (n_configs = -1 -> 0 < n_jobs ->
   _get_config_num P n_jobs n_configs N = Ok (Z.min n_jobs N))%Z /\
  (1 <= n_configs ->
   _get_config_num P n_jobs n_configs N = Ok (Z.min n_configs N))%Z.
Proof.
  intros Hj Hc. unfold _get_config_num.
  destruct (Z.eqb_spec n_jobs 0) as [|_]; [contradiction|].
  destruct (Z.eqb_spec n_configs 0) as [|_]; [lia|].
  destruct (Z.ltb_spec n_configs (-2)) as [|_]; [lia|]. cbn [orb].
  repeat split; intros.
  - subst n_configs. cbn. now rewrite Z.ltb_irrefl.
  - subst n_configs. cbn.
    destruct (Z.ltb_spec n_jobs 0); [|lia].
    destruct (Z.ltb_spec (P + 1 + n_jobs) N); f_equal; lia.
  - subst n_configs. cbn.
    destruct (Z.ltb_spec n_jobs 0); [lia|].
    destruct (Z.ltb_spec n_jobs N); f_equal; lia.
  - destruct (Z.eqb_spec n_configs (-2)); [lia|].
    destruct (Z.eqb_spec n_configs (-1)); [lia|].
    destruct (Z.ltb_spec n_configs N); f_equal; lia.
Qed.

Lemma C5_config_count_resolution_witness :
  _get_config_num 4 (-2) (-1) 10 = Ok 3%Z /\
  _get_config_num 4 3 (-1) 2 = Ok 2%Z /\
  _get_config_num 4 1 (-2) 7 = Ok 7%Z /\
  _get_config_num 4 1 5 7 = Ok 5%Z.
Proof.
  split; [|split; [|split]].
  - destruct (@C5_config_count_resolution 4 (-2) (-1) 10) as (_ & H & _);
      [lia | lia |]. apply H; lia.
  - destruct (@C5_config_count_resolution 4 3 (-1) 2) as (_ & _ & H & _);
      [lia | lia |]. apply H; lia.
  - destruct (@C5_config_count_resolution 4 1 (-2) 7) as (H & _);
      [lia | lia |]. apply H; lia.
  - destruct (@C5_config_count_resolution 4 1 5 7) as (_ & _ & _ & H);
      [lia | lia |]. apply H; lia.
Defined.

(** ** The trace monad *)

Lemma mbind_lift {A B : Type} (r : result A) (k : A -> M B) (t : trace) :
  mbind (lift r) k t =
  match r with
  | Ok a => k a t
  | Err e => (Err e, t)
  end.
Proof. destruct r; reflexivity. Qed.

Lemma mbind_call {A B : Type} (ev : event) (r : result A) (k : A -> M B)
  (t : trace) :
  mbind (call ev r) k t =
  match r with
  | Ok a => k a (t ++ [ev])
  | Err e => (Err e, t ++ [ev])
  end.
Proof. destruct r; reflexivity. Qed.

Lemma mbind_raise {A B : Type} (e : exn) (k : A -> M B) (t : trace) :
  mbind (raise e) k t = (Err e, t).
Proof. reflexivity. Qed.

Lemma mbind_mret {A B : Type} (a : A) (k : A -> M B) (t : trace) :
  mbind (mret a) k t = k a t.
Proof. reflexivity. Qed.

(** One step of a run that returned: the step returned too. *)
Ltac step_in H :=
  first [rewrite mbind_call in H | rewrite mbind_lift in H];
  match type of H with
  | match ?r with Ok _ => _ | Err _ => _ end = _ =>
      let E := fresh "E" in
      destruct r eqn:E; [cbv beta zeta in H | discriminate H]
  end.

Ltac step_as H a E :=
  first [rewrite mbind_call in H | rewrite mbind_lift in H];
  match type of H with
  | match ?r with Ok _ => _ | Err _ => _ end = _ =>
      destruct r as [a|?] eqn:E; [cbv beta zeta in H | discriminate H]
  end.

(** ** Input validation *)

Lemma only_logged_refl (t : trace) : only_logged t t.
Proof. exists []. cbn. now rewrite app_nil_r. Qed.

Lemma only_logged_one (t : trace) (msg : string) :
  only_logged t (t ++ [LoggerError msg]).
Proof. now exists [msg]. Qed.

Lemma validate_object_type_cases (o : pyobj) (ty : pytype) (t : trace) :
  (isinstance o ty = true /\ validate_object_type o ty t = (Ok tt, t)) \/
  (isinstance o ty = false /\
   validate_object_type o ty t = (Err AssertionError, t)).
Proof.
  unfold validate_object_type. destruct (isinstance o ty); [left | right]; easy.
Qed.

Lemma check_pairs_cases (pairs : list pyobj) (t : trace) :
  let body := fun (_ : unit) (pair : pyobj) =>
    if isinstance pair TTuple then mret tt
    else mbind (log_error
                  "Pair in attribute correspondence list is not of type tuple")
               (fun _ => raise AssertionError) in
  (forallb (fun p => isinstance p TTuple) pairs = true /\
   mfor body pairs tt t = (Ok tt, t)) \/
  (forallb (fun p => isinstance p TTuple) pairs = false /\
   exists t', mfor body pairs tt t = (Err AssertionError, t') /\
              only_logged t t').
Proof.
  intros body. induction pairs as [|p ps IH]; cbn [mfor forallb].
  - left. easy.
  - assert (Hstep : mfor body (p :: ps) tt t =
                    if isinstance p TTuple then mfor body ps tt t
                    else (Err AssertionError,
                          t ++ [LoggerError
                                  "Pair in attribute correspondence list is not of type tuple"])).
    { cbn [mfor]. unfold mbind, body. now destruct (isinstance p TTuple). }
    cbn [mfor] in Hstep. rewrite Hstep.
    destruct (isinstance p TTuple); cbn [andb].
    + exact IH.
    + right. split; [reflexivity|]. eexists. split; [reflexivity|].
      apply only_logged_one.
Qed.

(** What [_validate_types] does: it returns without a trace when every
    argument has its type, and raises [AssertionError], having at most
    logged, otherwise. *)
Lemma _validate_types_cases
  (ltable rtable candidate_set output_size attr_corres verbose : pyobj)
  (t : trace) :
  (_validate_types ltable rtable candidate_set output_size attr_corres
     verbose t = (Ok tt, t) /\
   isinstance ltable TDataFrame = true /\
   isinstance rtable TDataFrame = true /\
   isinstance candidate_set TDataFrame = true /\
   isinstance output_size TInt = true /\
   (attr_corres = PNone \/
    exists pairs, attr_corres = PList pairs /\
                  forallb (fun p => isinstance p TTuple) pairs = true) /\
   isinstance verbose TBool = true) \/
  (exists t',
      _validate_types ltable rtable candidate_set output_size attr_corres
        verbose t = (Err AssertionError, t') /\ only_logged t t').
Proof.
  remember (_validate_types ltable rtable candidate_set output_size
              attr_corres verbose t) as out eqn:Hout.
  unfold _validate_types in Hout.
  destruct (validate_object_type_cases ltable TDataFrame t) as [[H1 E1]|[_ E1]];
    unfold mbind at 1 in Hout; rewrite E1 in Hout;
    [|right; exists t; split; [exact Hout | apply only_logged_refl]].
  destruct (validate_object_type_cases rtable TDataFrame t) as [[H2 E2]|[_ E2]];
    unfold mbind at 1 in Hout; rewrite E2 in Hout;
    [|right; exists t; split; [exact Hout | apply only_logged_refl]].
  destruct (validate_object_type_cases candidate_set TDataFrame t)
    as [[H3 E3]|[_ E3]];
    unfold mbind at 1 in Hout; rewrite E3 in Hout;
    [|right; exists t; split; [exact Hout | apply only_logged_refl]].
  destruct (validate_object_type_cases output_size TInt t) as [[H4 E4]|[_ E4]];
    unfold mbind at 1 in Hout; rewrite E4 in Hout;
    [|right; exists t; split; [exact Hout | apply only_logged_refl]].
  unfold mbind at 1 in Hout.
  assert (Hlast :
            ((if isinstance verbose TBool then mret tt
              else mbind (log_error "Parameter verbose is not of type bool")
                         (fun _ => raise AssertionError)) t = (Ok tt, t) /\
             isinstance verbose TBool = true) \/
            (exists t',
                (if isinstance verbose TBool then mret tt
                 else mbind (log_error "Parameter verbose is not of type bool")
                            (fun _ => raise AssertionError)) t
                = (Err AssertionError, t') /\ only_logged t t')).
  { destruct (isinstance verbose TBool).
    - left. easy.
    - right. eexists. split; [reflexivity | apply only_logged_one]. }
  destruct attr_corres as [| b | z | s | items | pairs | df];
    try (right; eexists; split; [exact Hout | apply only_logged_one]).
  - cbn [mret] in Hout.
    destruct Hlast as [[E Hv]|(t' & E & Hl)]; rewrite E in Hout.
    + left. repeat split; auto.
    + right. now exists t'.
  - destruct (check_pairs_cases pairs t) as [[Hp Ep]|[_ (t' & Ep & Hl)]];
      cbv zeta in Ep; rewrite Ep in Hout.
    + destruct Hlast as [[E Hv]|(t' & E & Hl)]; rewrite E in Hout.
      * left. repeat split; auto. right. now exists pairs.
      * right. now exists t'.
    + right. now exists t'.
Qed.

(** C10.  When [verbose] is not of type [bool], the entry point raises
    [AssertionError] during input validation: nothing but logger messages
    has been added to the trace, so no collaborator has been called and no
    table has been processed. *)
Theorem C10_verbose_not_bool {F : FloatOps} (X : Collaborators)
  (candidate_set ltable rtable output_size attr_corres verbose : pyobj)
  (n_jobs n_configs : Z) (t : trace) :
  isinstance verbose TBool = false ->
  exists t',
    debug_blocker X candidate_set ltable rtable output_size attr_corres
      verbose n_jobs n_configs t = (Err AssertionError, t') /\
    only_logged t t' /\
    _validate_types ltable rtable candidate_set output_size attr_corres
      verbose t = (Err AssertionError, t').
Proof.
  intros Hv. unfold debug_blocker.
  destruct (_validate_types_cases ltable rtable candidate_set output_size
              attr_corres verbose t)
    as [(_ & _ & _ & _ & _ & _ & Hb)|(t' & E & Hl)].
  - congruence.
  - exists t'. unfold mbind. rewrite E. auto.
Qed.

Lemma C10_verbose_not_bool_witness :
  exists t',
    debug_blocker demo_collaborators (PFrame demo_candset) (PFrame demo_ltable)
      (PFrame demo_rtable) (PInt 200) PNone (PInt 1) 1 1 []
    = (Err AssertionError, t') /\
    only_logged [] t' /\
    _validate_types (PFrame demo_ltable) (PFrame demo_rtable)
      (PFrame demo_candset) (PInt 200) PNone (PInt 1) []
    = (Err AssertionError, t').
Proof.
  apply C10_verbose_not_bool. reflexivity.
Defined.

(** ** Candidate-set index *)

(** C8.  For a candidate set without rows, [_index_candidate_set] returns
    the empty mapping and leaves the trace as it was: neither the retrieval
    nor the validation of the candidate set's metadata is called, whatever
    they would have answered. *)
Theorem C8_empty_candidate_set {F : FloatOps} (X : Collaborators)
  (candidate_set : DataFrame)
  (lrecord_id_to_index_map rrecord_id_to_index_map : dict cell nat)
  (verbose : bool) (t : trace) :
  df_len candidate_set = 0%nat ->
  _index_candidate_set X candidate_set lrecord_id_to_index_map
    rrecord_id_to_index_map verbose t = (Ok [], t).
Proof.
  intros H. unfold _index_candidate_set. rewrite H. reflexivity.
Qed.

Lemma C8_empty_candidate_set_witness :
  get_metadata_for_candset demo_collaborators demo_candset true = Err KeyError /\
  _index_candidate_set demo_collaborators demo_candset [] [] true []
  = (Ok [], []).
Proof.
  split; [reflexivity|].
  apply (C8_empty_candidate_set demo_collaborators demo_candset [] [] true []).
  reflexivity.
Defined.

(** With at least one row, the metadata is retrieved first and a failure of
    the retrieval is the failure of the operation. *)
Lemma _index_candidate_set_metadata_error {F : FloatOps} (X : Collaborators)
  (candidate_set : DataFrame) (lmap rmap : dict cell nat)
  (verbose : bool) (t : trace) (e : exn) :
  df_len candidate_set <> 0%nat ->
  get_metadata_for_candset X candidate_set verbose = Err e ->
  _index_candidate_set X candidate_set lmap rmap verbose t
  = (Err e, t ++ [Call_get_metadata_for_candset]).
Proof.
  intros Hn He. unfold _index_candidate_set.
  destruct (Nat.eqb_spec (df_len candidate_set) 0); [contradiction|].
  rewrite mbind_call, He. reflexivity.
Qed.

(** ** Result assembly *)

Lemma py_remove_In (x : label) (l : list label) :
  In x l -> exists r, py_remove label_eqb x l = Ok r /\ incl r l.
Proof.
  induction l as [|y l IH]; intros Hin; [destruct Hin|].
  cbn [py_remove]. destruct (label_eqb y x) eqn:E.
  - exists l. split; [reflexivity|]. intros z Hz. now right.
  - destruct Hin as [->|Hin].
    + exfalso. destruct x; cbn in E.
      * now rewrite String.eqb_refl in E.
      * now rewrite Nat.eqb_refl in E.
    + destruct (IH Hin) as (r & Hr & Hincl). rewrite Hr. cbn.
      exists (y :: r). split; [reflexivity|].
      intros z [->|Hz]; [now left | right; auto].
Qed.

Lemma prefix_names (prefix : string) (names : list label) (acc : list string) :
  Forall is_name names ->
  exists out,
    foldM (fun names c =>
             rbind (prefix_label prefix c) (fun s => Ok (names ++ [s])))
          names acc = Ok out.
Proof.
  intros H. revert acc. induction H as [|c names [s ->] _ IH]; intros acc.
  - now exists acc.
  - cbn. apply IH.
Qed.

(** C9.  For an empty list of result triples, the frame [_assemble_topk_table]
    returns is the frame without rows and without columns: it is returned
    before the column names are assigned and before the candidate-set
    properties are set (the trace is unchanged), so it has no [_id], no
    [ltable_] and no [rtable_] column.  The frame is returned whenever the
    two keys are columns of their tables and all column labels are
    strings. *)
Theorem C9_empty_result_list {F : FloatOps} (X : Collaborators)
  (ltable rtable : DataFrame) (lkey rkey : label) (t : trace) :
  (forall df t',
      _assemble_topk_table X [] ltable rtable lkey rkey t = (Ok df, t') ->
      df = mkFrame 0 [] /\ columns df = [] /\ t' = t) /\
  (In lkey (columns ltable) -> In rkey (columns rtable) ->
   Forall is_name (columns ltable) -> Forall is_name (columns rtable) ->
   _assemble_topk_table X [] ltable rtable lkey rkey t
   = (Ok (mkFrame 0 []), t)).
Proof.
  unfold _assemble_topk_table, range. cbn [List.length seq foldM]. split.
  - intros df t'. rewrite !mbind_lift.
    repeat match goal with
           | |- context [match ?r with Ok _ => _ | Err _ => _ end] =>
               destruct r; [rewrite ?mbind_lift | discriminate]
           end.
    cbn. intros H. inversion H. auto.
  - intros Hl Hr Hnl Hnr.
    rewrite Forall_forall in Hnl, Hnr.
    destruct (Hnl _ Hl) as [sl ->]. destruct (Hnr _ Hr) as [sr ->].
    destruct (py_remove_In _ _ Hl) as (lrest & El & Il).
    destruct (py_remove_In _ _ Hr) as (rrest & Er & Ir).
    rewrite !mbind_lift. cbn [prefix_label]. rewrite !mbind_lift, El.
    rewrite !mbind_lift, Er.
    assert (Hfl : Forall is_name lrest)
      by (apply Forall_forall; intros z Hz; apply Hnl, Il, Hz).
    assert (Hfr : Forall is_name rrest)
      by (apply Forall_forall; intros z Hz; apply Hnr, Ir, Hz).
    destruct (@prefix_names "ltable_" lrest
                (["_id"] ++ [("ltable_" ++ sl)%string]
                 ++ [("rtable_" ++ sr)%string]) Hfl) as (o1 & E1).
    rewrite <- app_assoc. rewrite mbind_lift, E1.
    destruct (@prefix_names "rtable_" rrest o1 Hfr) as (o2 & E2).
    rewrite mbind_lift, E2. reflexivity.
Qed.

Lemma C9_empty_result_list_witness :
  _assemble_topk_table demo_collaborators [] demo_ltable demo_rtable
    (LName "id") (LName "id") []
  = (Ok (mkFrame 0 []), []).
Proof.
  apply (proj2 (C9_empty_result_list demo_collaborators demo_ltable
                  demo_rtable (LName "id") (LName "id") [])).
  - cbn. auto.
  - cbn. auto.
  - cbn. repeat constructor; eexists; reflexivity.
  - cbn. repeat constructor; eexists; reflexivity.
Defined.

(** ** Loops over [range(len(l))]

    A loop [for i in range(len(l))] that reads [l[i]] visits the elements
    of [l] with their positions. *)

Lemma fold_left_seq_nth {A B : Type} (f : B -> nat -> A -> B)
  (pre suf : list A) (b : B) :
  fold_left (fun acc i =>
               match nth_error (pre ++ suf) i with
               | Some x => f acc i x
               | None => acc
               end)
            (seq (List.length pre) (List.length suf)) b
  = fold_left (fun acc ix => f acc (fst ix) (snd ix))
              (combine (seq (List.length pre) (List.length suf)) suf) b.
Proof.
  revert pre b. induction suf as [|x suf IH]; intros pre b; [reflexivity|].
  cbn [List.length seq combine fold_left fst snd].
  rewrite nth_error_app2 by lia. rewrite Nat.sub_diag. cbn [nth_error].
  specialize (IH (pre ++ [x]) (f b (List.length pre) x)).
  rewrite <- app_assoc in IH. cbn [app] in IH.
  rewrite length_app in IH. cbn [List.length] in IH.
  rewrite Nat.add_1_r in IH. exact IH.
Qed.

Lemma fold_left_range_nth {A B : Type} (f : B -> nat -> A -> B)
  (l : list A) (b : B) :
  fold_left (fun acc i =>
               match nth_error l i with
               | Some x => f acc i x
               | None => acc
               end)
            (range (List.length l)) b
  = fold_left (fun acc ix => f acc (fst ix) (snd ix)) (enumerate l) b.
Proof. exact (fold_left_seq_nth f [] l b). Qed.

Lemma foldM_seq_index {A B : Type} (f : B -> nat -> A -> result B)
  (pre suf : list A) (b : B) :
  foldM (fun acc i => rbind (py_index (pre ++ suf) i) (f acc i))
        (seq (List.length pre) (List.length suf)) b
  = foldM (fun acc ix => f acc (fst ix) (snd ix))
          (combine (seq (List.length pre) (List.length suf)) suf) b.
Proof.
  revert pre b. induction suf as [|x suf IH]; intros pre b; [reflexivity|].
  cbn [List.length seq combine foldM fst snd]. unfold py_index at 1.
  rewrite nth_error_app2 by lia. rewrite Nat.sub_diag. cbn [nth_error rbind].
  destruct (f b (List.length pre) x) as [b'|e]; [|reflexivity].
  cbn [rbind].
  specialize (IH (pre ++ [x]) b').
  rewrite <- app_assoc in IH. cbn [app] in IH.
  rewrite length_app in IH. cbn [List.length] in IH.
  rewrite Nat.add_1_r in IH. exact IH.
Qed.

Lemma foldM_range_index {A B : Type} (f : B -> nat -> A -> result B)
  (l : list A) (b : B) :
  foldM (fun acc i => rbind (py_index l i) (f acc i)) (range (List.length l)) b
  = foldM (fun acc ix => f acc (fst ix) (snd ix)) (enumerate l) b.
Proof. exact (foldM_seq_index f [] l b). Qed.

Lemma foldM_ext {A B : Type} (f g : A -> B -> result A) (xs : list B) (a : A) :
  (forall a x, f a x = g a x) -> foldM f xs a = foldM g xs a.
Proof.
  intros H. revert a. induction xs as [|x xs IH]; intros a; [reflexivity|].
  cbn. rewrite H. destruct (g a x); cbn; auto.
Qed.

Lemma foldM_app {A B : Type} (f : A -> B -> result A) (xs ys : list B) (a : A) :
  foldM f (xs ++ ys) a = rbind (foldM f xs a) (foldM f ys).
Proof.
  revert a. induction xs as [|x xs IH]; intros a; [reflexivity|].
  cbn. destruct (f a x); cbn; auto.
Qed.



Lemma enumerate_length {A : Type} (l : list A) :
  List.length (enumerate l) = List.length l.
Proof.
  unfold enumerate, range. rewrite length_combine, length_seq. lia.
Qed.

Lemma enumerate_nth {A : Type} (l : list A) (i : nat) :
  nth_error (enumerate l) i = option_map (fun x => (i, x)) (nth_error l i).
Proof.
  unfold enumerate, range.
  assert (G : forall k (l : list A) i,
             nth_error (combine (seq k (List.length l)) l) i
             = option_map (fun x => ((k + i)%nat, x)) (nth_error l i)).
  { clear. intros k l. revert k. induction l as [|x l IH]; intros k [|i]; cbn;
      try reflexivity.
    - now rewrite Nat.add_0_r.
    - rewrite IH. now rewrite Nat.add_succ_r. }
  apply (G 0%nat).
Qed.

Lemma enumerate_snd {A : Type} (l : list A) : map snd (enumerate l) = l.
Proof.
  unfold enumerate, range.
  assert (G : forall k (l : list A), map snd (combine (seq k (List.length l)) l) = l).
  { clear. intros k l. revert k. induction l as [|x l IH]; intros k; cbn;
      [reflexivity | now rewrite IH]. }
  apply G.
Qed.

Lemma enumerate_fst {A : Type} (l : list A) :
  map fst (enumerate l) = range (List.length l).
Proof.
  unfold enumerate, range.
  assert (G : forall k (l : list A),
             map fst (combine (seq k (List.length l)) l) = seq k (List.length l)).
  { clear. intros k l. revert k. induction l as [|x l IH]; intros k; cbn;
      [reflexivity | now rewrite IH]. }
  apply G.
Qed.

(** ** Equality tests *)

Lemma label_eqb_eq (a b : label) : label_eqb a b = true <-> a = b.
Proof.
  destruct a, b; cbn; try (split; congruence).
  - rewrite String.eqb_eq. split; congruence.
  - rewrite Nat.eqb_eq. split; congruence.
Qed.

Lemma label_eqb_refl (a : label) : label_eqb a a = true.
Proof. now apply label_eqb_eq. Qed.

Lemma label_eqb_neq (a b : label) : label_eqb a b = false <-> a <> b.
Proof.
  rewrite <- label_eqb_eq. destruct (label_eqb a b); split; congruence.
Qed.

Lemma pair_eqb_eq (a b : label * label) : pair_eqb a b = true <-> a = b.
Proof.
  unfold pair_eqb. rewrite andb_true_iff, !label_eqb_eq.
  destruct a, b; cbn. split; [intros [-> ->]; reflexivity|].
  intros H; inversion H; auto.
Qed.

Lemma existsb_label_In (x : label) (l : list label) :
  existsb (label_eqb x) l = true <-> In x l.
Proof.
  rewrite existsb_exists. split.
  - intros (y & Hy & E). apply label_eqb_eq in E. now subst.
  - intros H. exists x. split; [exact H | apply label_eqb_refl].
Qed.

Lemma existsb_pair_In (x : label * label) (l : list (label * label)) :
  existsb (pair_eqb x) l = true <-> In x l.
Proof.
  rewrite existsb_exists. split.
  - intros (y & Hy & E). apply pair_eqb_eq in E. now subst.
  - intros H. exists x. split; [exact H | now apply pair_eqb_eq].
Qed.

Lemma enumerate_snoc {A : Type} (l : list A) (x : A) :
  enumerate (l ++ [x]) = enumerate l ++ [(List.length l, x)].
Proof.
  unfold enumerate, range.
  assert (G : forall k (l : list A),
             combine (seq k (List.length (l ++ [x]))) (l ++ [x])
             = combine (seq k (List.length l)) l ++ [((k + List.length l)%nat, x)]).
  { clear. intros k l. revert k. induction l as [|y l IH]; intros k; cbn.
    - now rewrite Nat.add_0_r.
    - rewrite IH. now rewrite Nat.add_succ_r. }
  apply (G 0%nat).
Qed.

(** ** Position of the key column *)

Lemma find_key_index_enumerate (key : label) (cols : list label) :
  find_key_index key cols
  = fold_left (fun acc ix =>
                 if label_eqb key (snd ix) then Z.of_nat (fst ix) else acc)
              (enumerate cols) (-1)%Z.
Proof.
  unfold find_key_index.
  exact (fold_left_range_nth
           (fun acc i c => if label_eqb key c then Z.of_nat i else acc)
           cols (-1)%Z).
Qed.

(** [find_key_index] is [-1] when the key is no column, and otherwise the
    last position at which the key stands. *)
Lemma find_key_index_spec (key : label) (cols : list label) :
  (~ In key cols /\ find_key_index key cols = (-1)%Z) \/
  (exists i,
      find_key_index key cols = Z.of_nat i /\
      nth_error cols i = Some key /\
      forall j, nth_error cols j = Some key -> (j <= i)%nat).
Proof.
  rewrite find_key_index_enumerate.
  induction cols as [|c cols IH] using rev_ind.
  - left. split; [intros [] | reflexivity].
  - rewrite enumerate_snoc, fold_left_app. cbn [fold_left fst snd].
    destruct (label_eqb key c) eqn:E.
    + apply label_eqb_eq in E. subst c. right. exists (List.length cols).
      split; [reflexivity|]. split.
      * rewrite nth_error_app2 by lia. now rewrite Nat.sub_diag.
      * intros j Hj.
        assert (Hlt : (j < List.length (cols ++ [key]))%nat)
          by (apply nth_error_Some; congruence).
        rewrite length_app in Hlt. cbn in Hlt. lia.
    + apply label_eqb_neq in E.
      destruct IH as [[Hn Hi]|(i & Hi & Hnth & Hlast)].
      * left. split; [|exact Hi].
        rewrite in_app_iff. intros [H|[H|[]]]; [auto | congruence].
      * right. exists i. split; [exact Hi|].
        assert (Hlt : (i < List.length cols)%nat)
          by (apply nth_error_Some; congruence).
        split.
        -- now rewrite nth_error_app1.
        -- intros j Hj.
           destruct (Nat.lt_ge_cases j (List.length cols)) as [Hj'|Hj'].
           ++ rewrite nth_error_app1 in Hj by exact Hj'. auto.
           ++ rewrite nth_error_app2 in Hj by exact Hj'.
              destruct (j - List.length cols)%nat as [|[|k]]; cbn in Hj;
                congruence.
Qed.

Lemma find_key_index_absent (key : label) (cols : list label) :
  ~ In key cols -> (find_key_index key cols <? 0)%Z = true.
Proof.
  intros H. destruct (find_key_index_spec key cols) as [[_ E]|(i & _ & Hn & _)].
  - now rewrite E.
  - exfalso. apply H. eapply nth_error_In. exact Hn.
Qed.

Lemma find_key_index_present (key : label) (cols : list label) :
  In key cols ->
  exists i, find_key_index key cols = Z.of_nat i /\
            nth_error cols i = Some key /\
            (i < List.length cols)%nat.
Proof.
  intros H. destruct (find_key_index_spec key cols) as [[Hn _]|(i & E & Hn & _)].
  - contradiction.
  - exists i. repeat split; auto. apply nth_error_Some. congruence.
Qed.

(** ** Columns by label *)

Lemma mapM_Ok_map {A B : Type} (f : A -> result B) (g : A -> B) (xs : list A) :
  (forall x, In x xs -> f x = Ok (g x)) -> mapM f xs = Ok (map g xs).
Proof.
  induction xs as [|x xs IH]; intros H; [reflexivity|].
  cbn. rewrite H by now left. cbn. rewrite IH; [reflexivity|].
  intros y Hy. apply H. now right.
Qed.

Lemma mapM_length {A B : Type} (f : A -> result B) (xs : list A) (ys : list B) :
  mapM f xs = Ok ys -> List.length ys = List.length xs.
Proof.
  revert ys. induction xs as [|x xs IH]; intros ys; cbn.
  - intros H. now inversion H.
  - destruct (f x); cbn; [|discriminate].
    destruct (mapM f xs); cbn; [|discriminate].
    intros H. inversion H. cbn. f_equal. now apply IH.
Qed.

Lemma filter_none {A : Type} (p : A -> bool) (l : list A) :
  (forall x, In x l -> p x = false) -> filter p l = [].
Proof.
  induction l as [|x l IH]; intros H; [reflexivity|].
  cbn [filter]. rewrite (H x (or_introl eq_refl)). apply IH.
  intros y Hy. apply H. now right.
Qed.

Lemma labelled_In (t : DataFrame) (c : label) (col : column) :
  In col (labelled t c) <-> In col (df_cols t) /\ col_label col = c.
Proof.
  unfold labelled. rewrite filter_In. now rewrite label_eqb_eq.
Qed.

Lemma labelled_present (t : DataFrame) (c : label) :
  In c (columns t) -> labelled t c <> [].
Proof.
  unfold columns. intros H E. apply in_map_iff in H.
  destruct H as (col & Hl & Hin).
  assert (Hc : In col (labelled t c)) by (apply labelled_In; auto).
  rewrite E in Hc. destruct Hc.
Qed.

Lemma labelled_absent (t : DataFrame) (c : label) :
  ~ In c (columns t) -> labelled t c = [].
Proof.
  intros H. destruct (labelled t c) as [|col cols] eqn:E; [reflexivity|].
  exfalso. apply H.
  assert (Hc : In col (labelled t c)) by (rewrite E; now left).
  apply labelled_In in Hc. destruct Hc as [Hin <-]. unfold columns.
  now apply in_map.
Qed.

(** With pairwise different labels, a column is the only one that carries
    its label. *)
Lemma labelled_NoDup (t : DataFrame) (col : column) :
  NoDup (columns t) -> In col (df_cols t) ->
  labelled t (col_label col) = [col].
Proof.
  unfold labelled, columns.
  induction (df_cols t) as [|c cs IH]; intros Hnd Hin; [destruct Hin|].
  cbn [map] in Hnd. inversion Hnd as [|? ? Hnotin Hnd']; subst.
  cbn [filter]. destruct Hin as [->|Hin].
  - rewrite label_eqb_refl. f_equal.
    apply filter_none. intros x Hx.
    destruct (label_eqb (col_label x) (col_label col)) eqn:E; [|reflexivity].
    apply label_eqb_eq in E. exfalso. apply Hnotin. rewrite <- E.
    now apply in_map.
  - destruct (label_eqb (col_label c) (col_label col)) eqn:E.
    + apply label_eqb_eq in E. exfalso. apply Hnotin. rewrite E.
      now apply in_map.
    + now apply IH.
Qed.

Lemma getitem_present (t : DataFrame) (c : label) :
  In c (columns t) -> exists values, getitem t c = Ok values.
Proof.
  intros H. apply labelled_present in H. unfold getitem.
  destruct (labelled t c) as [|col [|col' cols]]; [congruence| |]; eauto.
Qed.


Lemma label_in_dec (c : label) (names : list label) :
  {In c names} + {~ In c names}.
Proof.
  apply in_dec. intros a b.
  destruct (label_eqb a b) eqn:E.
  - left. now apply label_eqb_eq.
  - right. now apply label_eqb_neq.
Qed.

Lemma getitems_present (t : DataFrame) (cs : list label) :
  Forall (fun c => In c (columns t)) cs ->
  getitems t cs = Ok (mkFrame (df_len t) (flat_map (labelled t) cs)).
Proof.
  unfold getitems. intros H.
  rewrite (mapM_Ok_map _ (labelled t)).
  - cbn [rbind]. now rewrite flat_map_concat_map.
  - intros c Hc. rewrite Forall_forall in H.
    pose proof (labelled_present t c (H c Hc)) as Hne.
    destruct (labelled t c); [congruence | reflexivity].
Qed.

Lemma getitems_absent (t : DataFrame) (cs : list label) :
  ~ Forall (fun c => In c (columns t)) cs -> getitems t cs = Err KeyError.
Proof.
  unfold getitems. induction cs as [|c cs IH]; intros H.
  - exfalso. apply H. constructor.
  - cbn [mapM]. destruct (label_in_dec c (columns t)) as [Hc|Hc].
    + pose proof (labelled_present t c Hc) as Hne.
      destruct (labelled t c) as [|col cols] eqn:El; [congruence|].
      cbn [rbind].
      assert (Hrest : ~ Forall (fun c => In c (columns t)) cs)
        by (intros Hf; apply H; now constructor).
      specialize (IH Hrest).
      destruct (mapM _ cs); cbn in IH |- *; congruence.
    + now rewrite (labelled_absent t c Hc).
Qed.

Lemma flat_map_labelled_incl (t : DataFrame) (cs : list label) :
  incl (flat_map (labelled t) cs) (df_cols t).
Proof.
  intros col H. apply in_flat_map in H. destruct H as (c & _ & Hc).
  now apply labelled_In in Hc.
Qed.

(** With pairwise different labels in the table, the lookup of a list of
    labels gives one column per requested label. *)
Lemma flat_map_labelled_NoDup (t : DataFrame) (cs : list label) :
  NoDup (columns t) -> Forall (fun c => In c (columns t)) cs ->
  map col_label (flat_map (labelled t) cs) = cs.
Proof.
  intros Hnd. induction 1 as [|c cs Hc _ IH]; [reflexivity|].
  cbn [flat_map]. rewrite map_app, IH. unfold columns in Hc.
  apply in_map_iff in Hc. destruct Hc as (col & <- & Hin).
  now rewrite (labelled_NoDup t col Hnd Hin).
Qed.

(** ** Field weights *)

(** [_get_feature_weight] returns one weight per column for a table with
    at least one record. *)
Lemma _get_feature_weight_total {F : FloatOps} (table : DataFrame) :
  df_len table <> 0%nat ->
  exists ws,
    _get_feature_weight table = Ok ws /\
    List.length ws = List.length (columns table) /\
    ws = map (fun c => column_weight (df_len table) (iterated table c))
             (columns table).
Proof.
  intros Hn. unfold _get_feature_weight.
  destruct (Nat.eqb_spec (df_len table) 0); [contradiction|].
  eexists. split; [|split; [|reflexivity]].
  - apply mapM_Ok_map. intros c Hc. unfold iterated.
    destruct (getitem_present _ _ Hc) as (values & E). now rewrite E.
  - now rewrite length_map.
Qed.

Lemma _get_feature_weight_empty {F : FloatOps} (table : DataFrame) :
  df_len table = 0%nat -> _get_feature_weight table = Err AssertionError.
Proof.
  intros H. unfold _get_feature_weight. now rewrite H.
Qed.

(** ** [sorted] *)

Section Sorting.
Context {A : Type}.
Variable le : A -> A -> bool.

Lemma insert_by_perm (x : A) (l : list A) :
  Permutation (insert_by le x l) (x :: l).
Proof.
  induction l as [|y l IH]; cbn; [apply Permutation_refl|].
  destruct (le x y); [apply Permutation_refl|].
  eapply Permutation_trans; [apply perm_skip, IH | apply perm_swap].
Qed.

Lemma py_sorted_perm (l : list A) : Permutation (py_sorted le l) l.
Proof.
  induction l as [|x l IH]; cbn; [apply perm_nil|].
  eapply Permutation_trans; [apply insert_by_perm | now apply perm_skip].
Qed.

Lemma py_sorted_length (l : list A) :
  List.length (py_sorted le l) = List.length l.
Proof. apply Permutation_length, py_sorted_perm. Qed.

Hypothesis le_total : forall x y, le x y = true \/ le y x = true.
Hypothesis le_trans : forall x y z,
    le x y = true -> le y z = true -> le x z = true.

Lemma insert_by_sorted (x : A) (l : list A) :
  StronglySorted (fun a b => le a b = true) l ->
  StronglySorted (fun a b => le a b = true) (insert_by le x l).
Proof.
  induction 1 as [|y l Hs IH Hy]; cbn.
  - repeat constructor.
  - destruct (le x y) eqn:E.
    + constructor; [now constructor|].
      constructor; [exact E|].
      eapply Forall_impl; [|exact Hy]. intros z Hz. eapply le_trans; eauto.
    + constructor; [exact IH|].
      eapply Permutation_Forall; [apply Permutation_sym, insert_by_perm|].
      constructor; [|exact Hy].
      destruct (le_total x y); congruence.
Qed.

Lemma py_sorted_sorted (l : list A) :
  StronglySorted (fun a b => le a b = true) (py_sorted le l).
Proof.
  induction l as [|x l IH]; cbn; [constructor | now apply insert_by_sorted].
Qed.
End Sorting.

(** ** Selecting by position *)

Lemma py_index_nth {A : Type} (l : list A) (i : nat) (x : A) :
  nth_error l i = Some x -> py_index l i = Ok x.
Proof. unfold py_index. now intros ->. Qed.

Lemma firstn_snoc_nth {A : Type} (l : list A) (n : nat) (x : A) :
  nth_error l n = Some x -> firstn (S n) l = firstn n l ++ [x].
Proof.
  revert n. induction l as [|y l IH]; intros [|n] H; cbn in *; try discriminate.
  - now inversion H.
  - f_equal. now apply IH.
Qed.

(** [for i in range(n): out.append(g(l[i]))] for [n <= len(l)]. *)
Lemma foldM_take {A B : Type} (g : A -> B) (l : list A) (n : nat) (acc : list B) :
  (n <= List.length l)%nat ->
  foldM (fun out i => rbind (py_index l i) (fun x => Ok (out ++ [g x])))
        (range n) acc
  = Ok (acc ++ map g (firstn n l)).
Proof.
  unfold range. induction n as [|n IH]; intros Hn.
  - cbn. now rewrite app_nil_r.
  - rewrite seq_S, foldM_app, IH by lia. cbn [foldM rbind Nat.add].
    destruct (nth_error l n) as [x|] eqn:E.
    + rewrite (py_index_nth _ _ _ E). cbn [rbind].
      rewrite (firstn_snoc_nth _ _ _ E), map_app, app_assoc. reflexivity.
    + apply nth_error_None in E. lia.
Qed.

(** ** Removing positions *)

Lemma py_pop_nat {A : Type} (l : list A) (i : nat) :
  (i < List.length l)%nat -> py_pop l (Z.of_nat i) = Ok (remove_at i l).
Proof.
  intros H. unfold py_pop.
  destruct (Z.ltb_spec (Z.of_nat i) 0); [lia|].
  destruct (Z.leb_spec 0 (Z.of_nat i)); [|lia].
  destruct (Z.ltb_spec (Z.of_nat i) (Z.of_nat (List.length l))); [|lia].
  cbn. now rewrite Nat2Z.id.
Qed.

Lemma remove_at_length {A : Type} (l : list A) (i : nat) :
  (i < List.length l)%nat ->
  List.length (remove_at i l) = (List.length l - 1)%nat.
Proof.
  revert i. induction l as [|x l IH]; intros [|i] H; cbn in *; try lia.
  rewrite IH by lia. lia.
Qed.

Section RemoveByIndex.
Context {A : Type}.
Variable idx : A -> nat.

Lemma filter_all_kept (p : A -> bool) (l : list A) :
  (forall x, In x l -> p x = true) -> filter p l = l.
Proof.
  induction l as [|x l IH]; intros H; [reflexivity|].
  cbn. rewrite H by now left. f_equal. apply IH. intros y Hy. apply H. now right.
Qed.

Lemma idx_above (k : nat) (l : list A) (x : A) :
  map idx l = seq (S k) (List.length l) -> In x l -> (k < idx x)%nat.
Proof.
  intros Hm Hx. apply (in_map idx) in Hx. rewrite Hm in Hx.
  apply in_seq in Hx. lia.
Qed.

(** In a list whose elements carry their positions (from [k] on), removing
    position [i] removes the element that carries [i]. *)
Lemma remove_at_filter (k i : nat) (l : list A) :
  map idx l = seq k (List.length l) -> (k <= i)%nat ->
  remove_at (i - k) l = filter (fun x => negb (idx x =? i)%nat) l.
Proof.
  revert k. induction l as [|x l IH]; intros k Hm Hk; [reflexivity|].
  cbn [map List.length seq] in Hm. inversion Hm as [[Hx Hl]].
  cbn [filter]. rewrite Hx. rewrite Hx in Hl.
  destruct (Nat.eqb_spec k i) as [->|Hne].
  - rewrite Nat.sub_diag. cbn. symmetry. apply filter_all_kept.
    intros y Hy. pose proof (idx_above _ _ _ Hl Hy).
    apply negb_true_iff, Nat.eqb_neq. lia.
  - cbn [negb]. replace (i - k)%nat with (S (i - S k)) by lia. cbn.
    f_equal. apply IH; [exact Hl | lia].
Qed.

(** Removing position [i] and then a smaller position [j] removes the
    elements that carry [i] and [j]. *)
Lemma remove_at_twice_filter (k i j : nat) (l : list A) :
  map idx l = seq k (List.length l) -> (k <= j)%nat -> (j < i)%nat ->
  remove_at (j - k) (remove_at (i - k) l)
  = filter (fun x => (negb (idx x =? i) && negb (idx x =? j))%nat%bool) l.
Proof.
  revert k. induction l as [|x l IH]; intros k Hm Hk Hji; [reflexivity|].
  cbn [map List.length seq] in Hm. inversion Hm as [[Hx Hl]].
  cbn [filter]. rewrite Hx. rewrite Hx in Hl.
  replace (i - k)%nat with (S (i - S k)) by lia. cbn [remove_at].
  destruct (Nat.eqb_spec k i) as [->|_]; [lia|]. cbn [negb andb].
  destruct (Nat.eqb_spec k j) as [->|Hne].
  - rewrite Nat.sub_diag. cbn [remove_at negb].
    rewrite (@remove_at_filter (S j) i l Hl) by lia.
    apply filter_ext_in. intros y Hy. pose proof (idx_above _ _ _ Hl Hy).
    destruct (Nat.eqb_spec (idx y) j); [lia|]. cbn. now rewrite andb_true_r.
  - cbn [negb]. replace (j - k)%nat with (S (j - S k)) by lia. cbn.
    f_equal. apply IH; [exact Hl | lia | lia].
Qed.
End RemoveByIndex.

(** ** Feature selection *)

Lemma py_index_combine {A B C : Type} (l : list A) (l' : list B) (i : nat)
  (k : A -> B -> result C) :
  List.length l = List.length l' ->
  rbind (py_index l i) (fun x => rbind (py_index l' i) (fun y => k x y))
  = rbind (py_index (combine l l') i) (fun p => k (fst p) (snd p)).
Proof.
  unfold py_index. revert l' i.
  induction l as [|x l IH]; intros [|y l'] [|i] H; cbn in *;
    try reflexivity; try discriminate.
  apply IH. now inversion H.
Qed.

Lemma foldM_append_map {A B : Type} (g : A -> B) (xs : list A) (acc : list B) :
  foldM (fun out x => Ok (out ++ [g x])) xs acc = Ok (acc ++ map g xs).
Proof.
  revert acc. induction xs as [|x xs IH]; intros acc; cbn.
  - now rewrite app_nil_r.
  - rewrite IH, <- app_assoc. reflexivity.
Qed.

Lemma rank_list_loop {F : FloatOps} (lweight rweight : list float) :
  List.length lweight = List.length rweight ->
  foldM (fun rank_list i =>
           rbind (py_index lweight i) (fun lw =>
           rbind (py_index rweight i) (fun rw =>
           Ok (rank_list ++ [mkRank i (fmul lw rw)]))))
        (range (List.length lweight)) []
  = Ok (scores lweight rweight).
Proof.
  intros Hlen.
  erewrite foldM_ext;
    [|intros a i;
      exact (py_index_combine lweight rweight i
               (fun lw rw => Ok (a ++ [mkRank i (fmul lw rw)])) Hlen)].
  replace (List.length lweight) with (List.length (combine lweight rweight))
    by (rewrite length_combine; lia).
  rewrite (foldM_range_index
             (fun a i p => Ok (a ++ [mkRank i (fmul (fst p) (snd p))]))).
  exact (foldM_append_map
           (fun x => mkRank (fst x) (fmul (fst (snd x)) (snd (snd x))))
           (enumerate (combine lweight rweight)) []).
Qed.

Lemma scores_index {F : FloatOps} (lweight rweight : list float) :
  List.length lweight = List.length rweight ->
  map index (scores lweight rweight) = seq 0 (List.length (scores lweight rweight)).
Proof.
  intros Hlen. unfold scores. rewrite map_map, length_map. cbn [index].
  rewrite enumerate_length.
  change (map (fun x : nat * (float * float) => fst x)
              (enumerate (combine lweight rweight)))
    with (map fst (enumerate (combine lweight rweight))).
  now rewrite enumerate_fst.
Qed.

Lemma scores_length {F : FloatOps} (lweight rweight : list float) :
  List.length lweight = List.length rweight ->
  List.length (scores lweight rweight) = List.length lweight.
Proof.
  intros Hlen. unfold scores.
  rewrite length_map, enumerate_length, length_combine. lia.
Qed.

(** The [pop]s of [_select_features] succeed and leave the entries of the
    columns that are not key columns. *)
Lemma pop_keys {F : FloatOps} (ranks : list Rank) (li ri : nat) :
  map index ranks = seq 0 (List.length ranks) ->
  (li < List.length ranks)%nat -> (ri < List.length ranks)%nat ->
  (if (Z.of_nat li =? Z.of_nat ri)%Z
   then py_pop ranks (Z.of_nat li)
   else if (Z.of_nat li >? Z.of_nat ri)%Z
        then rbind (py_pop ranks (Z.of_nat li))
                   (fun rank_list => py_pop rank_list (Z.of_nat ri))
        else rbind (py_pop ranks (Z.of_nat ri))
                   (fun rank_list => py_pop rank_list (Z.of_nat li)))
  = Ok (without_keys li ri ranks) /\
  without_keys li ri ranks = popped li ri ranks.
Proof.
  intros Hidx Hl Hr. unfold without_keys, popped.
  destruct (Z.eqb_spec (Z.of_nat li) (Z.of_nat ri)) as [E|E].
  - apply Nat2Z.inj in E. subst ri. rewrite Nat.eqb_refl.
    rewrite py_pop_nat by exact Hl.
    pose proof (@remove_at_filter _ index 0 li ranks Hidx (Nat.le_0_l _)) as R.
    rewrite Nat.sub_0_r in R. rewrite R.
    assert (Hf : filter (fun r => (negb (index r =? li) && negb (index r =? li))%nat%bool) ranks
                 = filter (fun x => negb (index x =? li)%nat) ranks).
    { apply filter_ext. intros r. now destruct (index r =? li)%nat. }
    rewrite Hf. split; reflexivity.
  - assert (Hne : li <> ri) by congruence.
    destruct (Nat.eqb_spec li ri); [contradiction|].
    destruct (Z.gtb_spec (Z.of_nat li) (Z.of_nat ri)) as [G|G].
    + rewrite py_pop_nat by exact Hl. cbn [rbind].
      rewrite py_pop_nat by (rewrite remove_at_length; lia).
      pose proof (@remove_at_twice_filter _ index 0 li ri ranks Hidx
                    (Nat.le_0_l _)) as R.
      rewrite !Nat.sub_0_r in R.
      rewrite Nat.min_r, Nat.max_l by lia. rewrite R by lia.
      split; reflexivity.
    + rewrite py_pop_nat by exact Hr. cbn [rbind].
      rewrite py_pop_nat by (rewrite remove_at_length; lia).
      pose proof (@remove_at_twice_filter _ index 0 ri li ranks Hidx
                    (Nat.le_0_l _)) as R.
      rewrite !Nat.sub_0_r in R.
      rewrite Nat.min_l, Nat.max_r by lia. rewrite R by lia.
      assert (Hf : filter (fun r => (negb (index r =? li) && negb (index r =? ri))%nat%bool) ranks
                   = filter (fun x => (negb (index x =? ri) && negb (index x =? li))%nat%bool) ranks).
      { apply filter_ext. intros r. apply andb_comm. }
      rewrite Hf. split; reflexivity.
Qed.

Lemma sort_by_weight_desc_perm {F : FloatOps} (ranks : list Rank) :
  Permutation (sort_by_weight_desc ranks) ranks.
Proof. apply py_sorted_perm. Qed.

Lemma sort_by_weight_desc_length {F : FloatOps} (ranks : list Rank) :
  List.length (sort_by_weight_desc ranks) = List.length ranks.
Proof. apply py_sorted_length. Qed.

Lemma sort_by_weight_desc_sorted {F : FloatOps} (O : FloatOrder F)
  (ranks : list Rank) :
  StronglySorted (fun a b => fleb (weight b) (weight a) = true)
                 (sort_by_weight_desc ranks).
Proof.
  apply (py_sorted_sorted (fun a b : Rank => fleb (weight b) (weight a))).
  - intros x y. destruct (fleb_total (weight x) (weight y)); auto.
  - intros x y z Hxy Hyz. eapply fleb_trans; eauto.
Qed.

(** An empty feature list makes the second part of the entry point fail,
    before anything else is done. *)
Lemma join_tables_no_feature {F : FloatOps} (X : Collaborators)
  (candidate_set ltable_filtered rtable_filtered : DataFrame)
  (l_key r_key : label) (output_size : Z) (verbose : bool)
  (n_jobs n_configs : Z) (t : trace) :
  _select_features ltable_filtered rtable_filtered l_key r_key = Ok [] ->
  join_tables X candidate_set ltable_filtered rtable_filtered l_key r_key
    output_size verbose n_jobs n_configs t = (Err AssertionError, t).
Proof.
  intros H. unfold join_tables. rewrite mbind_lift, H. reflexivity.
Qed.

Lemma debug_blocker_body_no_feature {F : FloatOps} (X : Collaborators)
  (candidate_set ltable rtable ltable_filtered rtable_filtered : DataFrame)
  (l_key r_key : label) (output_size : Z) (attr_corres : pyobj)
  (verbose : bool) (n_jobs n_configs : Z) (t t' : trace) :
  prepare_tables X ltable rtable attr_corres verbose t
  = (Ok (l_key, r_key, ltable_filtered, rtable_filtered), t') ->
  _select_features ltable_filtered rtable_filtered l_key r_key = Ok [] ->
  debug_blocker_body X candidate_set ltable rtable output_size attr_corres
    verbose n_jobs n_configs t = (Err AssertionError, t').
Proof.
  intros Hp Hs. unfold debug_blocker_body, mbind. rewrite Hp.
  now apply join_tables_no_feature.
Qed.

(** Once the arguments have their types and the sizes are accepted, the
    entry point is its body. *)
Lemma debug_blocker_checked {F : FloatOps} (X : Collaborators)
  (candidate_set ltable rtable : DataFrame) (output_size : Z)
  (attr_corres : pyobj) (verbose : bool) (n_jobs n_configs : Z) (t : trace) :
  _validate_types (PFrame ltable) (PFrame rtable) (PFrame candidate_set)
    (PInt output_size) attr_corres (PBool verbose) t = (Ok tt, t) ->
  df_len ltable <> 0%nat -> df_len rtable <> 0%nat -> (0 < output_size)%Z ->
  debug_blocker X (PFrame candidate_set) (PFrame ltable) (PFrame rtable)
    (PInt output_size) attr_corres (PBool verbose) n_jobs n_configs t
  = debug_blocker_body X candidate_set ltable rtable output_size attr_corres
      verbose n_jobs n_configs t.
Proof.
  intros Hv Hl Hr Ho. unfold debug_blocker, mbind at 1. rewrite Hv.
  cbn [as_int].
  destruct (Nat.eqb_spec (df_len ltable) 0); [contradiction|].
  destruct (Nat.eqb_spec (df_len rtable) 0); [contradiction|].
  destruct (Z.leb_spec output_size 0); [lia | reflexivity].
Qed.

(** C7.  For floats whose [<=] is a total preorder and filtered tables with
    as many columns on both sides, both keys among the columns and at least
    one record each, [_select_features]
    takes the entries of the key positions out of the list of scores
    [weight_L(i) * weight_R(i)] (one [pop] when the two keys stand at the
    same position, otherwise two, the larger position first), sorts what
    remains by descending score and returns the column indices of the first
    [min(remaining, 8)] entries.  When the returned list is empty, the
    entry point, having come as far as the feature selection, fails with
    [AssertionError]. *)
Theorem C7_feature_selection {F : FloatOps} (O : FloatOrder F)
  (ltable rtable : DataFrame) (lkey rkey : label) :
  List.length (columns ltable) = List.length (columns rtable) ->
  In lkey (columns ltable) -> In rkey (columns rtable) ->
  df_len ltable <> 0%nat -> df_len rtable <> 0%nat ->
  exists lweight rweight li ri,
    _get_feature_weight ltable = Ok lweight /\
    _get_feature_weight rtable = Ok rweight /\
    find_key_index lkey (columns ltable) = Z.of_nat li /\
    nth_error (columns ltable) li = Some lkey /\
    find_key_index rkey (columns rtable) = Z.of_nat ri /\
    nth_error (columns rtable) ri = Some rkey /\
    let remaining := without_keys li ri (scores lweight rweight) in
    let ranked := sort_by_weight_desc remaining in
    let selected :=
      map index (firstn (Nat.min (List.length remaining)
                                 SELECTED_FIELDS_UPPER_BOUND) ranked) in
    remaining = popped li ri (scores lweight rweight) /\
    Permutation ranked remaining /\
    StronglySorted (fun a b => fleb (weight b) (weight a) = true) ranked /\
    _select_features ltable rtable lkey rkey = Ok selected /\
    (selected = [] ->
     forall (X : Collaborators) (candidate_set ltable0 rtable0 : DataFrame)
            (output_size : Z) (attr_corres : pyobj) (verbose : bool)
            (n_jobs n_configs : Z) (t t' : trace),
       _validate_types (PFrame ltable0) (PFrame rtable0)
         (PFrame candidate_set) (PInt output_size) attr_corres
         (PBool verbose) t = (Ok tt, t) ->
       df_len ltable0 <> 0%nat -> df_len rtable0 <> 0%nat ->
       (0 < output_size)%Z ->
       prepare_tables X ltable0 rtable0 attr_corres verbose t
       = (Ok (lkey, rkey, ltable, rtable), t') ->
       debug_blocker X (PFrame candidate_set) (PFrame ltable0)
         (PFrame rtable0) (PInt output_size) attr_corres (PBool verbose)
         n_jobs n_configs t = (Err AssertionError, t')).
Proof.
  intros Hlen Hl Hr Hnl Hnr.
  destruct (_get_feature_weight_total ltable Hnl) as (lw & Elw & Llw & _).
  destruct (_get_feature_weight_total rtable Hnr) as (rw & Erw & Lrw & _).
  destruct (find_key_index_present _ _ Hl) as (li & Eli & Nli & Bli).
  destruct (find_key_index_present _ _ Hr) as (ri & Eri & Nri & Bri).
  exists lw, rw, li, ri.
  assert (Hww : List.length lw = List.length rw) by lia.
  assert (Hsel :
            _select_features ltable rtable lkey rkey
            = Ok (map index
                    (firstn (Nat.min (List.length
                                        (without_keys li ri (scores lw rw)))
                                     SELECTED_FIELDS_UPPER_BOUND)
                            (sort_by_weight_desc
                               (without_keys li ri (scores lw rw)))))).
  { unfold _select_features. rewrite Hlen, Nat.eqb_refl. cbn [negb].
    rewrite Eli, Eri.
    destruct (Z.ltb_spec (Z.of_nat li) 0); [lia|].
    destruct (Z.ltb_spec (Z.of_nat ri) 0); [lia|].
    rewrite Elw, Erw. cbn [rbind]. rewrite Hww, Nat.eqb_refl. cbn [negb].
    rewrite <- Hww, (rank_list_loop lw rw Hww). cbn [rbind].
    destruct (@pop_keys F (scores lw rw) li ri) as [Hpop _].
    { apply scores_index, Hww. }
    { rewrite scores_length by exact Hww. lia. }
    { rewrite scores_length by exact Hww. lia. }
    rewrite Hpop. cbn [rbind].
    rewrite !sort_by_weight_desc_length.
    set (rem := without_keys li ri (scores lw rw)).
    assert (Hnum : (if (List.length rem <? SELECTED_FIELDS_UPPER_BOUND)%nat
                    then List.length rem else SELECTED_FIELDS_UPPER_BOUND)
                   = Nat.min (List.length rem) SELECTED_FIELDS_UPPER_BOUND).
    { destruct (Nat.ltb_spec (List.length rem) SELECTED_FIELDS_UPPER_BOUND); lia. }
    rewrite Hnum.
    rewrite (foldM_take index (sort_by_weight_desc rem)); [reflexivity|].
    rewrite sort_by_weight_desc_length. lia. }
  repeat split; auto.
  - destruct (@pop_keys F (scores lw rw) li ri) as [_ Hpop]; auto.
    + apply scores_index, Hww.
    + rewrite scores_length by exact Hww. lia.
    + rewrite scores_length by exact Hww. lia.
  - apply sort_by_weight_desc_perm.
  - apply sort_by_weight_desc_sorted. exact O.
  - intros Hempty X candidate_set ltable0 rtable0 output_size attr_corres
           verbose n_jobs n_configs t t' Hv Hl0 Hr0 Ho Hp.
    rewrite debug_blocker_checked by assumption.
    eapply debug_blocker_body_no_feature; [exact Hp|].
    rewrite Hsel. f_equal. exact Hempty.
Qed.

Lemma C7_feature_selection_witness :
  _select_features (F := QFloat) demo_lfiltered demo_rfiltered
    (LName "id") (LName "id")
  = Ok [1%nat] /\
  debug_blocker demo_collaborators (PFrame demo_candset) (PFrame demo_ltable)
    (PFrame demo_rtable) (PInt 200) demo_corres_keys (PBool true) 1 1 []
  = (Err AssertionError,
     [Call_get_keys_for_ltable_rtable;
      Call_validate_metadata_for_table "ltable";
      Call_validate_metadata_for_table "rtable"]).
Proof.
  split.
  - destruct (@C7_feature_selection QFloat QFloat_order demo_lfiltered
                demo_rfiltered
                (LName "id") (LName "id"))
      as (lw & rw & li & ri & Elw & Erw & Eli & _ & Eri & _ & _ & _ & _ & Hsel & _).
    + reflexivity.
    + cbn. auto.
    + cbn. auto.
    + cbn. discriminate.
    + cbn. discriminate.
    + vm_compute in Elw. injection Elw as <-.
      vm_compute in Erw. injection Erw as <-.
      change (find_key_index (LName "id") (columns demo_lfiltered))
        with 0%Z in Eli.
      change (find_key_index (LName "id") (columns demo_rfiltered))
        with 0%Z in Eri.
      assert (Hli : li = 0%nat) by lia. assert (Hri : ri = 0%nat) by lia.
      subst li ri. exact Hsel.
  - destruct (@C7_feature_selection QFloat QFloat_order demo_lfiltered_keys
                demo_rfiltered
                (LName "id") (LName "id"))
      as (lw & rw & li & ri & Elw & Erw & Eli & _ & Eri & _ & _ & _ & _ & _ & Hfail).
    + reflexivity.
    + cbn. auto.
    + cbn. auto.
    + cbn. discriminate.
    + cbn. discriminate.
    + apply Hfail.
      * vm_compute in Elw. injection Elw as <-.
        vm_compute in Erw. injection Erw as <-.
        change (find_key_index (LName "id") (columns demo_lfiltered_keys))
          with 1%Z in Eli.
        change (find_key_index (LName "id") (columns demo_rfiltered))
          with 0%Z in Eri.
        assert (Hli : li = 1%nat) by lia. assert (Hri : ri = 0%nat) by lia.
        subst li ri. reflexivity.
      * reflexivity.
      * cbn. discriminate.
      * cbn. discriminate.
      * reflexivity.
      * reflexivity.
Defined.

(** ** Dictionaries *)

Section DictFacts.
Context {K V : Type}.
Variable keq : K -> K -> bool.

Lemma dict_get_None (d : dict K V) (k : K) :
  dict_get keq d k = None <-> Forall (fun k' => keq k k' = false) (dict_keys d).
Proof.
  induction d as [|[k' v] d IH]; cbn.
  - split; [constructor | reflexivity].
  - destruct (keq k k') eqn:E.
    + split; [discriminate|]. intros H. inversion H. congruence.
    + rewrite IH. split; [now constructor | intros H; now inversion H].
Qed.

Lemma dict_set_keys_new (d : dict K V) (k : K) (v : V) :
  dict_get keq d k = None ->
  dict_set keq d k v = d ++ [(k, v)].
Proof.
  induction d as [|[k' v'] d IH]; cbn; [reflexivity|].
  destruct (keq k k'); [discriminate|]. intros H. now rewrite IH.
Qed.

Lemma dict_set_keys_old (d : dict K V) (k : K) (v : V) :
  dict_get keq d k <> None ->
  dict_keys (dict_set keq d k v) = dict_keys d.
Proof.
  unfold dict_keys.
  induction d as [|[k' v'] d IH]; cbn; [congruence|].
  destruct (keq k k'); cbn; [reflexivity|]. intros H. now rewrite IH.
Qed.
End DictFacts.

(** ** Record ids *)

Lemma _build_id_to_index_map_loop (items : list (nat * cell))
  (d d' : dict cell nat) :
  foldM (fun record_id_to_index ix =>
           if dict_mem cell_eqb record_id_to_index (snd ix)
           then Err AssertionError
           else Ok (dict_set cell_eqb record_id_to_index (snd ix) (fst ix)))
        items d = Ok d' ->
  forall pre x post, items = pre ++ x :: post ->
  forall k, In k (dict_keys d ++ map snd pre) -> cell_eqb (snd x) k = false.
Proof.
  revert d. induction items as [|y items IH]; intros d H pre x post E k Hk.
  - destruct pre; discriminate.
  - cbn [foldM] in H. unfold dict_mem in H.
    destruct (dict_get cell_eqb d (snd y)) eqn:G; [discriminate|].
    cbn [rbind] in H.
    destruct pre as [|p pre]; cbn in E; inversion E; subst.
    + cbn in Hk. rewrite app_nil_r in Hk.
      apply dict_get_None in G. rewrite Forall_forall in G. now apply G.
    + eapply (IH _ H pre x post eq_refl).
      erewrite dict_set_keys_new by exact G. unfold dict_keys.
      rewrite map_app. cbn. rewrite <- app_assoc. exact Hk.
Qed.

Lemma _build_id_to_index_map_error (items : list (nat * cell))
  (d : dict cell nat) (e : exn) :
  foldM (fun record_id_to_index ix =>
           if dict_mem cell_eqb record_id_to_index (snd ix)
           then Err AssertionError
           else Ok (dict_set cell_eqb record_id_to_index (snd ix) (fst ix)))
        items d = Err e ->
  e = AssertionError.
Proof.
  revert d. induction items as [|y items IH]; intros d; cbn; [discriminate|].
  destruct (dict_mem cell_eqb d (snd y)); cbn.
  - intros H. now inversion H.
  - apply IH.
Qed.

(** Two records with equal ids make [_build_id_to_index_map] fail with
    [AssertionError]. *)
Lemma _build_id_to_index_map_duplicate (table : DataFrame) (table_key : label)
  (ids : list cell) (i j : nat) (a b : cell) :
  getitem table table_key = Ok ids ->
  nth_error ids i = Some a -> nth_error ids j = Some b ->
  (i < j)%nat -> cell_eqb b a = true ->
  _build_id_to_index_map table table_key = Err AssertionError.
Proof.
  intros Hg Hi Hj Hij Hab. unfold _build_id_to_index_map. rewrite Hg.
  cbn [rbind].
  rewrite (foldM_range_index
             (fun d i id => if dict_mem cell_eqb d id then Err AssertionError
                            else Ok (dict_set cell_eqb d id i))).
  match goal with |- ?loop = _ => destruct loop as [d'|e] eqn:E end.
  - exfalso.
    assert (Hje : nth_error (enumerate ids) j = Some (j, b))
      by (rewrite enumerate_nth, Hj; reflexivity).
    destruct (nth_error_split _ _ Hje) as (pre & post & Hsplit & Hlen).
    pose proof (_build_id_to_index_map_loop _ _ _ E pre (j, b) post Hsplit a) as C.
    cbn [snd dict_keys map app] in C. rewrite C in Hab; [discriminate|].
    assert (Hie : nth_error (enumerate ids) i = Some (i, a))
      by (rewrite enumerate_nth, Hi; reflexivity).
    rewrite Hsplit, nth_error_app1 in Hie by lia.
    apply nth_error_In in Hie. apply (in_map snd) in Hie. exact Hie.
  - f_equal. exact (_build_id_to_index_map_error _ _ _ E).
Qed.

(** ** Failures and their exceptions *)




(** Filtered tables of different widths, or without their key. *)
Lemma _select_features_schema_mismatch {F : FloatOps}
  (ltable rtable : DataFrame) (lkey rkey : label) :
  List.length (columns ltable) <> List.length (columns rtable) \/
  ~ In lkey (columns ltable) \/ ~ In rkey (columns rtable) ->
  _select_features ltable rtable lkey rkey = Err AssertionError.
Proof.
  intros H. unfold _select_features.
  destruct (Nat.eqb_spec (List.length (columns ltable))
              (List.length (columns rtable))) as [He|Hne]; cbn [negb];
    [|reflexivity].
  destruct (find_key_index lkey (columns ltable) <? 0)%Z eqn:El;
    [reflexivity|].
  destruct (find_key_index rkey (columns rtable) <? 0)%Z eqn:Er;
    [reflexivity|].
  destruct H as [H|[H|H]].
  - contradiction.
  - rewrite (find_key_index_absent _ _ H) in El. discriminate.
  - rewrite (find_key_index_absent _ _ H) in Er. discriminate.
Qed.





(** ** Dictionaries whose key test is equality *)

Section DictEq.
Context {K V : Type}.
Variable keq : K -> K -> bool.
Hypothesis keq_eq : forall a b, keq a b = true <-> a = b.

Lemma keq_refl (a : K) : keq a a = true.
Proof. now apply keq_eq. Qed.

Lemma keq_false (a b : K) : keq a b = false <-> a <> b.
Proof.
  rewrite <- keq_eq. destruct (keq a b); split; congruence.
Qed.

Lemma dict_get_set_same (d : dict K V) (k : K) (v : V) :
  dict_get keq (dict_set keq d k v) k = Some v.
Proof.
  induction d as [|[k' v'] d IH]; cbn.
  - now rewrite keq_refl.
  - destruct (keq k k') eqn:E; cbn; rewrite E; [reflexivity | exact IH].
Qed.

Lemma dict_get_set_other (d : dict K V) (k k' : K) (v : V) :
  k' <> k -> dict_get keq (dict_set keq d k v) k' = dict_get keq d k'.
Proof.
  intros Hne. induction d as [|[k0 v0] d IH]; cbn.
  - apply keq_false in Hne. now rewrite Hne.
  - destruct (keq k k0) eqn:E; cbn.
    + apply keq_eq in E. subst k0.
      apply keq_false in Hne. now rewrite Hne.
    + destruct (keq k' k0); [reflexivity | exact IH].
Qed.

Lemma dict_get_In (d : dict K V) (k : K) :
  dict_get keq d k <> None <-> In k (dict_keys d).
Proof.
  rewrite dict_get_None, Forall_forall. split.
  - intros H. destruct (in_dec (fun a b =>
                                  match keq a b as c return keq a b = c -> _ with
                                  | true => fun E => left (proj1 (keq_eq a b) E)
                                  | false => fun E => right (proj1 (keq_false a b) E)
                                  end eq_refl) k (dict_keys d)) as [Hin|Hin];
      [exact Hin|].
    exfalso. apply H. intros k' Hk'. apply keq_false. congruence.
  - intros Hin H. specialize (H k Hin). rewrite keq_refl in H. discriminate.
Qed.

Lemma dict_set_keys (d : dict K V) (k : K) (v : V) :
  dict_keys (dict_set keq d k v)
  = if dict_mem keq d k then dict_keys d else dict_keys d ++ [k].
Proof.
  unfold dict_mem. destruct (dict_get keq d k) eqn:G.
  - apply dict_set_keys_old. congruence.
  - rewrite (dict_set_keys_new keq d k v G). unfold dict_keys.
    now rewrite map_app.
Qed.
End DictEq.

(** ** The column dictionary *)

Lemma _build_col_name_index_dict_enumerate (table : DataFrame) :
  _build_col_name_index_dict table
  = fold_left (fun d ix => dict_set label_eqb d (snd ix) (fst ix))
              (enumerate (columns table)) [].
Proof.
  unfold _build_col_name_index_dict.
  exact (fold_left_range_nth (fun d i name => dict_set label_eqb d name i)
           (columns table) []).
Qed.

(** The dictionary maps a column label to a position of that label. *)
Lemma col_dict_lookup (names : list label) (c : label) :
  In c names ->
  exists i,
    dict_get label_eqb
      (fold_left (fun d ix => dict_set label_eqb d (snd ix) (fst ix))
                 (enumerate names) []) c = Some i /\
    nth_error names i = Some c.
Proof.
  induction names as [|x names IH] using rev_ind; intros Hin; [destruct Hin|].
  rewrite enumerate_snoc, fold_left_app. cbn [fold_left fst snd].
  destruct (label_eqb x c) eqn:E.
  - apply label_eqb_eq in E. subst x. exists (List.length names).
    split; [apply (dict_get_set_same label_eqb label_eqb_eq)|].
    rewrite nth_error_app2 by lia. now rewrite Nat.sub_diag.
  - apply label_eqb_neq in E.
    apply in_app_iff in Hin. destruct Hin as [Hin|[Hin|[]]]; [|congruence].
    destruct (IH Hin) as (i & Hg & Hn). exists i. split.
    + rewrite (dict_get_set_other label_eqb label_eqb_eq) by congruence.
      exact Hg.
    + rewrite nth_error_app1; [exact Hn|]. apply nth_error_Some. congruence.
Qed.

Lemma dtype_of_column (table : DataFrame) (c : label) :
  In c (columns table) ->
  exists i d,
    dict_item label_eqb (_build_col_name_index_dict table) c = Ok i /\
    py_index (dtypes table) i = Ok d /\
    dtype_of table c = Some d.
Proof.
  intros Hin. unfold dtype_of, dict_item.
  rewrite _build_col_name_index_dict_enumerate.
  destruct (col_dict_lookup (columns table) c Hin) as (i & Hg & Hn).
  rewrite Hg.
  assert (Hlt : (i < List.length (dtypes table))%nat).
  { unfold dtypes. rewrite length_map.
    assert (Hc : (i < List.length (columns table))%nat)
      by (apply nth_error_Some; congruence).
    unfold columns in Hc. now rewrite length_map in Hc. }
  destruct (nth_error (dtypes table) i) as [d|] eqn:Hd.
  - exists i, d. unfold py_index. rewrite Hd. auto.
  - apply nth_error_None in Hd. lia.
Qed.

(** ** The correspondence list *)

Lemma remove_at_middle {A : Type} (a b : list A) (x : A) :
  remove_at (List.length a) (a ++ x :: b) = a ++ b.
Proof.
  induction a as [|y a IH]; cbn; [reflexivity | now rewrite IH].
Qed.

(** One round of the loop of [_filter_corres_list], at a position that
    holds [p]. *)
Lemma filter_step (ltable rtable : DataFrame) (ltable_key rtable_key : label)
  (cur : list (label * label)) (i : nat) (p : label * label) :
  In (fst p) (columns ltable) -> In (snd p) (columns rtable) ->
  nth_error cur i = Some p ->
  (rbind (py_index cur i) (fun p =>
     let lcol_name := fst p in
     let rcol_name := snd p in
     rbind (dict_item label_eqb (_build_col_name_index_dict ltable) lcol_name)
       (fun li =>
     rbind (py_index (dtypes ltable) li) (fun ld =>
     if negb (dtype_eqb ld DObject) then
       rbind (dict_item label_eqb (_build_col_name_index_dict rtable) rcol_name)
         (fun ri =>
       rbind (py_index (dtypes rtable) ri) (fun rd =>
       if negb (dtype_eqb rd DObject) then
         if (negb (label_eqb lcol_name ltable_key)
             && negb (label_eqb rcol_name rtable_key))%bool
         then py_pop cur (Z.of_nat i)
         else Ok cur
       else Ok cur))
     else Ok cur))))
  = if keep_pair ltable rtable ltable_key rtable_key p
    then Ok cur
    else Ok (remove_at i cur).
Proof.
  intros Hl Hr Hn. rewrite (py_index_nth _ _ _ Hn). cbn [rbind]. cbv zeta.
  destruct (dtype_of_column ltable (fst p) Hl) as (li & ld & E1 & E2 & E3).
  destruct (dtype_of_column rtable (snd p) Hr) as (ri & rd & E4 & E5 & E6).
  rewrite E1. cbn [rbind]. rewrite E2. cbn [rbind].
  unfold keep_pair, is_numeric. rewrite E3, E6.
  destruct (negb (dtype_eqb ld DObject)); cbn [andb negb]; [|reflexivity].
  rewrite E4. cbn [rbind]. rewrite E5. cbn [rbind].
  destruct (negb (dtype_eqb rd DObject)); cbn [andb negb]; [|reflexivity].
  destruct (negb (label_eqb (fst p) ltable_key)
            && negb (label_eqb (snd p) rtable_key))%bool; cbn [negb];
    [|reflexivity].
  apply py_pop_nat. apply nth_error_Some. congruence.
Qed.

Lemma rev_range_S (n : nat) : List.rev (range (S n)) = n :: List.rev (range n).
Proof.
  unfold range. rewrite seq_S, rev_app_distr. reflexivity.
Qed.

(** The loop from position [n - 1] down to 0, started on the list whose
    positions from [n] on are filtered already. *)
Lemma filter_loop (ltable rtable : DataFrame) (ltable_key rtable_key : label)
  (corres_list : list (label * label)) (n : nat) :
  columns_exist ltable rtable corres_list ->
  (n <= List.length corres_list)%nat ->
  foldM (fun cur i =>
     rbind (py_index cur i) (fun p =>
     let lcol_name := fst p in
     let rcol_name := snd p in
     rbind (dict_item label_eqb (_build_col_name_index_dict ltable) lcol_name)
       (fun li =>
     rbind (py_index (dtypes ltable) li) (fun ld =>
     if negb (dtype_eqb ld DObject) then
       rbind (dict_item label_eqb (_build_col_name_index_dict rtable) rcol_name)
         (fun ri =>
       rbind (py_index (dtypes rtable) ri) (fun rd =>
       if negb (dtype_eqb rd DObject) then
         if (negb (label_eqb lcol_name ltable_key)
             && negb (label_eqb rcol_name rtable_key))%bool
         then py_pop cur (Z.of_nat i)
         else Ok cur
       else Ok cur))
     else Ok cur))))
    (List.rev (range n))
    (firstn n corres_list
     ++ filter (keep_pair ltable rtable ltable_key rtable_key)
               (skipn n corres_list))
  = Ok (filter (keep_pair ltable rtable ltable_key rtable_key) corres_list).
Proof.
  intros Hex. induction n as [|n IH]; intros Hn; [reflexivity|].
  rewrite rev_range_S. cbn [foldM].
  destruct (nth_error corres_list n) as [p|] eqn:Hp;
    [|apply nth_error_None in Hp; lia].
  assert (Hsplit : firstn (S n) corres_list = firstn n corres_list ++ [p])
    by (apply firstn_snoc_nth; exact Hp).
  assert (Hskip : skipn n corres_list = p :: skipn (S n) corres_list).
  { clear -Hp. revert n Hp. induction corres_list as [|x l IHl]; intros [|n] Hp;
      cbn in *; try discriminate.
    - now inversion Hp.
    - now apply IHl. }
  assert (Hlen : List.length (firstn n corres_list) = n)
    by (apply firstn_length_le; lia).
  unfold columns_exist in Hex. rewrite Forall_forall in Hex.
  destruct (Hex p (nth_error_In _ _ Hp)) as [Hl Hr].
  rewrite filter_step with (p := p); auto.
  - specialize (IH ltac:(lia)). rewrite Hskip in IH. cbn [filter] in IH.
    rewrite Hsplit, <- app_assoc. cbn [app].
    destruct (keep_pair ltable rtable ltable_key rtable_key p); cbn [rbind].
    + exact IH.
    + pose proof (remove_at_middle (firstn n corres_list)
                    (filter (keep_pair ltable rtable ltable_key rtable_key)
                            (skipn (S n) corres_list)) p) as R.
      rewrite Hlen in R. rewrite R. exact IH.
  - rewrite Hsplit, <- app_assoc. cbn [app].
    rewrite nth_error_app2 by lia. rewrite Hlen, Nat.sub_diag. reflexivity.
Qed.

Lemma only_key_pair_iff (ltable_key rtable_key : label)
  (kept : list (label * label)) :
  only_key_pair ltable_key rtable_key kept = true
  <-> kept = [(ltable_key, rtable_key)].
Proof.
  destruct kept as [|[a b] [|q kept]]; cbn; try (split; congruence).
  rewrite andb_true_iff, !label_eqb_eq. split.
  - intros [-> ->]. reflexivity.
  - intros H. inversion H. auto.
Qed.

(** [_filter_corres_list] keeps the pairs that [keep_pair] keeps, and fails
    when the key pair alone is left. *)
Lemma _filter_corres_list_spec (ltable rtable : DataFrame)
  (ltable_key rtable_key : label) (corres_list : list (label * label)) :
  columns_exist ltable rtable corres_list ->
  _filter_corres_list ltable rtable ltable_key rtable_key
    (_build_col_name_index_dict ltable) (_build_col_name_index_dict rtable)
    corres_list
  = let kept := filter (keep_pair ltable rtable ltable_key rtable_key)
                       corres_list in
    if only_key_pair ltable_key rtable_key kept
    then Err AssertionError
    else Ok kept.
Proof.
  intros Hex. unfold _filter_corres_list.
  pose proof (filter_loop ltable rtable ltable_key rtable_key corres_list
                (List.length corres_list) Hex (Nat.le_refl _)) as L.
  rewrite firstn_all, skipn_all in L. cbn [filter] in L.
  rewrite app_nil_r in L. cbv zeta in L. cbv zeta. rewrite L. cbn [rbind].
  unfold only_key_pair.
  destruct (filter (keep_pair ltable rtable ltable_key rtable_key) corres_list)
    as [|p [|q kept]]; reflexivity.
Qed.

Lemma copy_loop {A : Type} (xs acc : list A) :
  fold_left (fun acc x => acc ++ [x]) xs acc = acc ++ xs.
Proof.
  revert acc. induction xs as [|x xs IH]; intros acc; cbn.
  - now rewrite app_nil_r.
  - rewrite IH, <- app_assoc. reflexivity.
Qed.

Lemma _get_field_correspondence_list_spec {F : FloatOps} (X : Collaborators)
  (ltable rtable : DataFrame) (lkey rkey : label)
  (attr_corres : option (list (label * label))) (t : trace) :
  _get_field_correspondence_list X ltable rtable lkey rkey attr_corres t
  = match attr_corres with
    | Some (p :: ps) => (Ok (add_key_pair lkey rkey (p :: ps)), t)
    | _ =>
        match get_attr_corres X ltable rtable with
        | Ok [] => (Err AssertionError, t ++ [Call_get_attr_corres])
        | Ok base => (Ok (add_key_pair lkey rkey base),
                      t ++ [Call_get_attr_corres])
        | Err e => (Err e, t ++ [Call_get_attr_corres])
        end
    end.
Proof.
  unfold _get_field_correspondence_list, add_key_pair.
  assert (Hauto :
            forall k : list (label * label) -> M (list (label * label)),
              mbind (mbind (call Call_get_attr_corres
                              (get_attr_corres X ltable rtable))
                           (fun corres_list =>
                              if (List.length corres_list =? 0)%nat
                              then raise AssertionError
                              else mret corres_list)) k t
              = match get_attr_corres X ltable rtable with
                | Ok [] => (Err AssertionError, t ++ [Call_get_attr_corres])
                | Ok base => k base (t ++ [Call_get_attr_corres])
                | Err e => (Err e, t ++ [Call_get_attr_corres])
                end).
  { intros k. unfold mbind, call.
    destruct (get_attr_corres X ltable rtable) as [[|q base]|e]; reflexivity. }
  destruct attr_corres as [[|p ps]|].
  - rewrite Hauto.
    destruct (get_attr_corres X ltable rtable) as [[|q base]|e];
      try reflexivity.
    now destruct (existsb (pair_eqb (lkey, rkey)) (q :: base)).
  - rewrite mbind_mret, copy_loop. cbn [app].
    now destruct (existsb (pair_eqb (lkey, rkey)) (p :: ps)).
  - rewrite Hauto.
    destruct (get_attr_corres X ltable rtable) as [[|q base]|e];
      try reflexivity.
    now destruct (existsb (pair_eqb (lkey, rkey)) (q :: base)).
Qed.

Lemma add_key_pair_In (lkey rkey : label) (base : list (label * label)) :
  In (lkey, rkey) (add_key_pair lkey rkey base).
Proof.
  unfold add_key_pair.
  destruct (existsb (pair_eqb (lkey, rkey)) base) eqn:E.
  - now apply existsb_pair_In.
  - apply in_app_iff. right. now left.
Qed.

Lemma keep_pair_key (ltable rtable : DataFrame) (lkey rkey : label) :
  keep_pair ltable rtable lkey rkey (lkey, rkey) = true.
Proof.
  unfold keep_pair. cbn [fst snd]. rewrite !label_eqb_refl. cbn [negb].
  now rewrite !andb_false_r.
Qed.

(** The list [_get_field_correspondence_list] returns does not depend on
    the trace it starts from. *)
Lemma _get_field_correspondence_list_again {F : FloatOps} (X : Collaborators)
  (ltable rtable : DataFrame) (lkey rkey : label)
  (attr_corres : option (list (label * label))) (t t' : trace)
  (corres_list : list (label * label)) :
  _get_field_correspondence_list X ltable rtable lkey rkey attr_corres t
  = (Ok corres_list, t') ->
  forall t1, exists t1',
    _get_field_correspondence_list X ltable rtable lkey rkey attr_corres t1
    = (Ok corres_list, t1').
Proof.
  intros H t1. rewrite _get_field_correspondence_list_spec in *.
  destruct attr_corres as [[|p ps]|];
    try (destruct (get_attr_corres X ltable rtable) as [[|q base]|e]);
    inversion H; eauto.
Qed.

(** A key label carried by two columns: the ids are the label, twice. *)
Lemma _build_id_to_index_map_repeated_key (table : DataFrame)
  (table_key : label) :
  (2 <= List.length (labelled table table_key))%nat ->
  _build_id_to_index_map table table_key = Err AssertionError.
Proof.
  intros H.
  destruct (labelled table table_key) as [|c1 [|c2 cols]] eqn:E;
    cbn in H; try lia.
  apply (_build_id_to_index_map_duplicate table table_key
           (map (fun _ => cell_of_label table_key) (c1 :: c2 :: cols))
           0 1 (cell_of_label table_key) (cell_of_label table_key)).
  - unfold getitem. now rewrite E.
  - reflexivity.
  - reflexivity.
  - lia.
  - destruct table_key as [s|n]; cbn.
    + apply String.eqb_refl.
    + apply Qeq_bool_iff. reflexivity.
Qed.

Lemma getitems_columns (t f : DataFrame) (cs : list label) :
  getitems t cs = Ok f -> df_cols f = flat_map (labelled t) cs.
Proof.
  intros H.
  destruct (Forall_dec (fun c => In c (columns t))
              (fun c => label_in_dec c (columns t)) cs) as [Hall|Hnot].
  - rewrite (getitems_present t cs Hall) in H. now inversion H.
  - rewrite (getitems_absent t cs Hnot) in H. discriminate H.
Qed.

(** A label requested twice is carried by two columns of the selection. *)
Lemma labelled_selection (t : DataFrame) (n : nat) (cs : list label)
  (c : label) :
  In c (columns t) ->
  (List.length (filter (fun x => label_eqb x c) cs)
   <= List.length (labelled (mkFrame n (flat_map (labelled t) cs)) c))%nat.
Proof.
  intros Hc. unfold labelled at 1. cbn [df_cols].
  induction cs as [|a cs IH]; [cbn; lia|].
  cbn [flat_map filter]. rewrite filter_app, length_app.
  destruct (label_eqb a c) eqn:E; [|lia].
  apply label_eqb_eq in E. subst a. cbn [List.length].
  pose proof (labelled_present t c Hc) as Hne.
  destruct (labelled t c) as [|col cols] eqn:El; [congruence|].
  assert (Hin : In col (labelled t c)) by (rewrite El; now left).
  apply labelled_In in Hin. destruct Hin as [_ Hl].
  cbn [filter]. rewrite Hl, label_eqb_refl. cbn [List.length]. lia.
Qed.

Lemma filter_map_length {A B : Type} (f : A -> B) (p : B -> bool)
  (l : list A) :
  List.length (filter p (map f l))
  = List.length (filter (fun x => p (f x)) l).
Proof.
  induction l as [|x l IH]; [reflexivity|].
  cbn [map filter]. destruct (p (f x)); cbn [List.length]; now rewrite IH.
Qed.

Lemma sides_cover {A : Type} (L R : A -> bool) (l : list A) :
  (forall p, In p l -> (L p || R p)%bool = true) ->
  (List.length l
   <= List.length (filter L l) + List.length (filter R l))%nat.
Proof.
  induction l as [|x l IH]; intros H; [cbn; lia|].
  pose proof (H x (or_introl eq_refl)) as Hx.
  assert (IH' := IH (fun p Hp => H p (or_intror Hp))).
  cbn [filter List.length].
  destruct (L x), (R x); cbn [List.length]; try discriminate Hx; lia.
Qed.

(** When every pair names a key and one pair among at least two names
    both, one of the keys is named twice. *)
Lemma key_named_twice {A : Type} (L R : A -> bool) (l : list A) (k : A) :
  (forall p, In p l -> (L p || R p)%bool = true) ->
  In k l -> L k = true -> R k = true -> (2 <= List.length l)%nat ->
  (2 <= List.length (filter L l))%nat \/ (2 <= List.length (filter R l))%nat.
Proof.
  intros H Hk HL HR Hlen.
  destruct (in_split k l Hk) as (l1 & l2 & ->).
  pose proof (sides_cover L R l1
                (fun p Hp => H p (in_or_app _ _ _ (or_introl Hp)))) as H1.
  pose proof (sides_cover L R l2
                (fun p Hp => H p (in_or_app _ _ _
                                    (or_intror (in_cons k p l2 Hp))))) as H2.
  rewrite !filter_app, !length_app in *. cbn [filter List.length] in *.
  rewrite HL, HR. cbn [List.length]. lia.
Qed.

(** A key column selected twice on either side makes the second part of
    [debug_blocker] fail. *)
Lemma join_tables_repeated_key {F : FloatOps} (X : Collaborators)
  (candidate_set ltable_filtered rtable_filtered : DataFrame)
  (l_key r_key : label) (output_size : Z) (verbose : bool)
  (n_jobs n_configs : Z) (t : trace) :
  (2 <= List.length (labelled ltable_filtered l_key))%nat \/
  (2 <= List.length (labelled rtable_filtered r_key))%nat ->
  exists e t2,
    join_tables X candidate_set ltable_filtered rtable_filtered l_key r_key
      output_size verbose n_jobs n_configs t = (Err e, t2).
Proof.
  intros H. unfold join_tables. rewrite mbind_lift.
  destruct (_select_features ltable_filtered rtable_filtered l_key r_key)
    as [feature_list|e]; [|eauto].
  destruct (List.length feature_list =? 0)%nat; [unfold raise; eauto|].
  rewrite mbind_lift. destruct H as [H|H].
  - rewrite (_build_id_to_index_map_repeated_key _ _ H). eauto.
  - destruct (_build_id_to_index_map ltable_filtered l_key) as [m|e];
      [|eauto].
    rewrite mbind_lift, (_build_id_to_index_map_repeated_key _ _ H). eauto.
Qed.

(** A filtered list with a pair beyond the key pair, all of whose pairs
    beyond the key pair are numeric on both sides, names a key twice. *)
Lemma kept_names_key_twice (ltable rtable : DataFrame) (lkey rkey : label)
  (corres_list : list (label * label)) :
  let kept := filter (keep_pair ltable rtable lkey rkey) corres_list in
  In (lkey, rkey) kept -> kept <> [(lkey, rkey)] ->
  (forall p, In p kept -> p <> (lkey, rkey) ->
             is_numeric ltable (fst p) = true /\
             is_numeric rtable (snd p) = true) ->
  (2 <= List.length (filter (fun x => label_eqb x lkey) (map fst kept)))%nat \/
  (2 <= List.length (filter (fun x => label_eqb x rkey) (map snd kept)))%nat.
Proof.
  intros kept Hin Hne Hnum. rewrite !filter_map_length.
  apply (key_named_twice (fun p => label_eqb (fst p) lkey)
           (fun p => label_eqb (snd p) rkey) kept (lkey, rkey)).
  - intros p Hp. destruct (pair_eqb p (lkey, rkey)) eqn:E.
    + apply pair_eqb_eq in E. subst p. cbn [fst].
      now rewrite label_eqb_refl.
    + assert (Hpk : p <> (lkey, rkey)).
      { intros ->. rewrite (proj2 (pair_eqb_eq _ _) eq_refl) in E.
        discriminate E. }
      destruct (Hnum p Hp Hpk) as [Hl Hr].
      apply filter_In in Hp. destruct Hp as [_ Hkeep].
      unfold keep_pair in Hkeep. rewrite Hl, Hr in Hkeep.
      cbn [andb] in Hkeep.
      destruct (label_eqb (fst p) lkey), (label_eqb (snd p) rkey);
        try reflexivity; discriminate Hkeep.
  - exact Hin.
  - cbn [fst]. apply label_eqb_refl.
  - cbn [snd]. apply label_eqb_refl.
  - destruct kept as [|a [|b rest]]; [destruct Hin| |cbn; lia].
    destruct Hin as [->|[]]. congruence.
Qed.

(** C3, as the code has it.  The list [_get_field_correspondence_list]
    returns is built from the user's list when that has a pair, and from
    the collaborator's list, which is not empty, otherwise: the key pair
    is appended unless the list holds it already, in which case the list
    is left as it is.  On it, [_filter_corres_list] removes exactly the
    pairs whose two columns are numeric and neither of which is the key:
    the key pair is always in the filtered list, and it is the last
    element when it had to be appended.  The filter raises
    [AssertionError] on a filtered list that is the key pair alone and
    returns the filtered list otherwise.  And [debug_blocker] fails
    whenever every pair of the filtered list other than the key pair is
    numeric on both sides: in the filter when there is no other pair,
    and later otherwise, since such a pair names a key, and the table
    selected with a key named twice carries the key label on two
    columns. *)
Theorem C3_correspondence_list {F : FloatOps} (X : Collaborators)
  (ltable rtable : DataFrame) (lkey rkey : label)
  (attr_corres : option (list (label * label)))
  (t t' : trace) (corres_list : list (label * label)) :
  _get_field_correspondence_list X ltable rtable lkey rkey attr_corres t
  = (Ok corres_list, t') ->
  columns_exist ltable rtable corres_list ->
  let kept := filter (keep_pair ltable rtable lkey rkey) corres_list in
  let outcome :=
    _filter_corres_list ltable rtable lkey rkey
      (_build_col_name_index_dict ltable) (_build_col_name_index_dict rtable)
      corres_list in
  (exists base,
      match attr_corres with
      | Some (p :: ps) => base = p :: ps /\ t' = t
      | _ => get_attr_corres X ltable rtable = Ok base /\ base <> [] /\
             t' = t ++ [Call_get_attr_corres]
      end /\
      corres_list = add_key_pair lkey rkey base /\
      (In (lkey, rkey) base -> corres_list = base) /\
      (~ In (lkey, rkey) base ->
       corres_list = base ++ [(lkey, rkey)] /\
       exists front, kept = front ++ [(lkey, rkey)])) /\
  In (lkey, rkey) kept /\
  (kept = [(lkey, rkey)] -> outcome = Err AssertionError) /\
  (kept <> [(lkey, rkey)] -> outcome = Ok kept) /\
  (forall (candidate_set : DataFrame) (output_size : Z) (user_corres : pyobj)
          (verbose : bool) (n_jobs n_configs : Z) (t0 : trace),
      get_keys_for_ltable_rtable X ltable rtable verbose = Ok (lkey, rkey) ->
      labels_of_corres user_corres = Ok attr_corres ->
      (forall p, In p kept -> p <> (lkey, rkey) ->
                 is_numeric ltable (fst p) = true /\
                 is_numeric rtable (snd p) = true) ->
      exists e t2,
        debug_blocker X (PFrame candidate_set) (PFrame ltable)
          (PFrame rtable) (PInt output_size) user_corres (PBool verbose)
          n_jobs n_configs t0
        = (Err e, t2)).
Proof.
  intros Hget Hex kept outcome.
  assert (Hbase : exists base,
             match attr_corres with
             | Some (p :: ps) => base = p :: ps /\ t' = t
             | _ => get_attr_corres X ltable rtable = Ok base /\
                    base <> [] /\ t' = t ++ [Call_get_attr_corres]
             end /\
             corres_list = add_key_pair lkey rkey base).
  { pose proof Hget as Hg.
    rewrite _get_field_correspondence_list_spec in Hg.
    destruct attr_corres as [[|p ps]|].
    - destruct (get_attr_corres X ltable rtable) as [[|q base]|e] eqn:E;
        inversion Hg. exists (q :: base).
      repeat apply conj; auto; discriminate.
    - inversion Hg. exists (p :: ps). auto.
    - destruct (get_attr_corres X ltable rtable) as [[|q base]|e] eqn:E;
        inversion Hg. exists (q :: base).
      repeat apply conj; auto; discriminate. }
  destruct Hbase as (base & Hsrc & Hcl).
  assert (Hout : outcome = if only_key_pair lkey rkey kept
                           then Err AssertionError else Ok kept)
    by (apply _filter_corres_list_spec; exact Hex).
  assert (Hkey : In (lkey, rkey) kept).
  { apply filter_In. split; [|apply keep_pair_key].
    rewrite Hcl. apply add_key_pair_In. }
  split; [|split; [exact Hkey|split; [|split]]].
  - exists base. split; [exact Hsrc|]. split; [exact Hcl|]. split.
    + intros Hin. rewrite Hcl. unfold add_key_pair.
      now rewrite (proj2 (existsb_pair_In _ _) Hin).
    + intros Hnot. unfold kept. rewrite Hcl. unfold add_key_pair.
      destruct (existsb (pair_eqb (lkey, rkey)) base) eqn:E.
      * apply existsb_pair_In in E. contradiction.
      * split; [reflexivity|].
        rewrite filter_app. cbn [filter]. rewrite keep_pair_key.
        now exists (filter (keep_pair ltable rtable lkey rkey) base).
  - intros H. apply only_key_pair_iff in H. now rewrite Hout, H.
  - intros H. rewrite Hout.
    destruct (only_key_pair lkey rkey kept) eqn:E; [|reflexivity].
    apply only_key_pair_iff in E. contradiction.
  - intros candidate_set output_size user_corres verbose n_jobs n_configs t0
           Hkeys Hlab Hnum.
    unfold debug_blocker. unfold mbind at 1.
    destruct (_validate_types (PFrame ltable) (PFrame rtable)
                (PFrame candidate_set) (PInt output_size) user_corres
                (PBool verbose) t0) as [[[]|e] t1]; [|eauto].
    cbn [as_int].
    destruct (df_len ltable =? 0)%nat; [unfold raise; eauto|].
    destruct (df_len rtable =? 0)%nat; [unfold raise; eauto|].
    destruct (output_size <=? 0)%Z; [unfold raise; eauto|].
    unfold debug_blocker_body. unfold mbind at 1.
    destruct (prepare_tables X ltable rtable user_corres verbose t1)
      as [[[[[l_key r_key] lf] rf]|e] t2] eqn:Ep; [|eauto].
    unfold prepare_tables in Ep.
    rewrite mbind_call, Hkeys in Ep. cbn [fst snd] in Ep.
    do 3 step_in Ep. rewrite mbind_lift, Hlab in Ep.
    unfold mbind at 1 in Ep.
    match type of Ep with
    | context [_get_field_correspondence_list X ltable rtable lkey rkey
                 attr_corres ?tr] =>
        destruct (_get_field_correspondence_list_again X ltable rtable lkey
                    rkey attr_corres t t' corres_list Hget tr) as (t3 & E3)
    end.
    rewrite E3 in Ep. rewrite mbind_lift in Ep.
    fold outcome in Ep. rewrite Hout in Ep.
    destruct (only_key_pair lkey rkey kept) eqn:Eonly; [discriminate Ep|].
    assert (Hne : kept <> [(lkey, rkey)]).
    { intros Hk. apply only_key_pair_iff in Hk. congruence. }
    step_as Ep filtered Ef. unfold mret in Ep.
    injection Ep as <- <- <- <- <-.
    unfold _get_filtered_table in Ef.
    destruct (getitems ltable (map fst kept)) as [lf|e] eqn:El;
      cbn [rbind] in Ef; [|discriminate Ef].
    destruct (getitems rtable (map snd kept)) as [rf|e] eqn:Er;
      cbn [rbind] in Ef; [|discriminate Ef].
    injection Ef as <-. cbn [fst snd].
    apply join_tables_repeated_key.
    assert (Hcols : In lkey (columns ltable) /\ In rkey (columns rtable)).
    { unfold columns_exist in Hex. rewrite Forall_forall in Hex.
      apply filter_In in Hkey. exact (Hex _ (proj1 Hkey)). }
    apply getitems_columns in El, Er.
    destruct lf as [ln lcols], rf as [rn rcols]. cbn [df_cols] in El, Er.
    subst lcols rcols.
    destruct (kept_names_key_twice ltable rtable lkey rkey corres_list
                Hkey Hne Hnum) as [H|H]; [left | right].
    + eapply Nat.le_trans; [exact H|].
      apply labelled_selection. exact (proj1 Hcols).
    + eapply Nat.le_trans; [exact H|].
      apply labelled_selection. exact (proj2 Hcols).
Qed.

(** C3, as the spec has it, fails on a list that holds the key pair
    already: the pair stays where it is, here in front of [(name, name)],
    and is not the last element of the filtered list. *)
Lemma C3_key_pair_not_last :
  let id := LName "id" in
  let name := LName "name" in
  _get_field_correspondence_list demo_collaborators demo_ltable demo_rtable
    id id (Some [(id, id); (name, name)]) []
  = (Ok [(id, id); (name, name)], []) /\
  _filter_corres_list demo_ltable demo_rtable id id
    (_build_col_name_index_dict demo_ltable)
    (_build_col_name_index_dict demo_rtable) [(id, id); (name, name)]
  = Ok [(id, id); (name, name)] /\
  last [(id, id); (name, name)] (id, id) <> (id, id).
Proof.
  cbv zeta. repeat apply conj; try reflexivity.
  cbn. discriminate.
Qed.

(** With numeric keys, the pair [(id, age)] stays because its left column
    is the key: the filter returns a list all of whose pairs are numeric,
    and the run fails after it with [AssertionError], on the key column
    selected twice, having called the catalog for the keys and the two
    validations only. *)
Lemma numeric_pair_with_a_key :
  let id := LName "id" in
  let age := LName "age" in
  _get_field_correspondence_list demo_collaborators demo_lnumeric
    demo_rnumeric id id (Some [(id, age)]) []
  = (Ok [(id, age); (id, id)], []) /\
  _filter_corres_list demo_lnumeric demo_rnumeric id id
    (_build_col_name_index_dict demo_lnumeric)
    (_build_col_name_index_dict demo_rnumeric) [(id, age); (id, id)]
  = Ok [(id, age); (id, id)] /\
  forallb (fun p => is_numeric demo_lnumeric (fst p)
                    && is_numeric demo_rnumeric (snd p))%bool
          [(id, age); (id, id)] = true /\
  debug_blocker demo_collaborators (PFrame demo_candset)
    (PFrame demo_lnumeric) (PFrame demo_rnumeric) (PInt 2)
    (PList [PTuple [PStr "id"; PStr "age"]]) (PBool false) 1 1 []
  = (Err AssertionError,
     [Call_get_keys_for_ltable_rtable;
      Call_validate_metadata_for_table "ltable";
      Call_validate_metadata_for_table "rtable"]).
Proof.
  cbv zeta. repeat apply conj; vm_compute; reflexivity.
Qed.

Lemma C3_correspondence_list_witness :
  let id := LName "id" in
  let age := LName "age" in
  (exists front,
      filter (keep_pair demo_lnumeric demo_rnumeric id id)
             [(id, age); (id, id)]
      = front ++ [(id, id)]) /\
  exists e t2,
    debug_blocker demo_collaborators (PFrame demo_candset)
      (PFrame demo_lnumeric) (PFrame demo_rnumeric) (PInt 2)
      (PList [PTuple [PStr "id"; PStr "age"]]) (PBool false) 1 1 []
    = (Err e, t2).
Proof.
  cbv zeta.
  destruct (C3_correspondence_list demo_collaborators demo_lnumeric
              demo_rnumeric (LName "id") (LName "id")
              (Some [(LName "id", LName "age")]) [] []
              [(LName "id", LName "age"); (LName "id", LName "id")])
    as ((base & Hsrc & _ & _ & Hlast) & _ & _ & _ & Hrun).
  - reflexivity.
  - unfold columns_exist.
    repeat (apply Forall_cons; [split; cbn; auto 10|]). apply Forall_nil.
  - split.
    + apply Hlast. destruct Hsrc as [-> _]. cbn.
      intros [H|[]]. discriminate H.
    + apply Hrun.
      * reflexivity.
      * reflexivity.
      * intros p Hp _. vm_compute in Hp.
        destruct Hp as [<-|[<-|[]]]; split; reflexivity.
Defined.

(** ** What the field weight counts *)

Lemma cell_eqb_refl (v : cell) : isnull v = false -> cell_eqb v v = true.
Proof.
  destruct v; cbn; try discriminate; intros _.
  - apply String.eqb_refl.
  - apply Qeq_bool_refl.
Qed.

Lemma count_column_snoc (vals : list cell) (x : cell) :
  count_column (vals ++ [x])
  = let '(value_set, non_empty_count) := count_column vals in
    if is_non_empty x
    then (set_add cell_eqb x value_set, S non_empty_count)
    else (value_set, non_empty_count).
Proof.
  unfold count_column. rewrite fold_left_app. cbn [fold_left].
  destruct (fold_left _ vals ([], 0%nat)) as [value_set non_empty_count].
  reflexivity.
Qed.

(** The loop of [_get_feature_weight] counts the non-empty raw values and
    collects one representative of each distinct one. *)
Lemma count_column_spec (vals : list cell) :
  let non_empty := filter is_non_empty vals in
  representatives (fst (count_column vals)) non_empty /\
  snd (count_column vals) = List.length non_empty.
Proof.
  induction vals as [|x vals IH] using rev_ind.
  - cbn. repeat split; [constructor | intros v [] | intros v []].
  - cbv zeta in IH. cbv zeta. rewrite count_column_snoc.
    destruct (count_column vals) as [vs n]. cbn [fst snd] in IH.
    destruct IH as [(Hd & Hi & Hc) Hn].
    rewrite filter_app. cbn [filter].
    destruct (is_non_empty x) eqn:Ex; cbn [fst snd].
    + split; [|rewrite length_app; cbn; lia].
      unfold set_add. destruct (existsb (cell_eqb x) vs) eqn:Em.
      * repeat split; auto.
        -- intros v Hv. apply in_app_iff. left. auto.
        -- intros v Hv. apply in_app_iff in Hv.
           destruct Hv as [Hv|[<-|[]]]; auto.
      * repeat split.
        -- now constructor.
        -- intros v Hv. apply in_app_iff in Hv. apply in_app_iff.
           destruct Hv as [Hv|Hv]; auto.
        -- intros v Hv. rewrite existsb_app. apply in_app_iff in Hv.
           destruct Hv as [Hv|[<-|[]]].
           ++ rewrite (Hc v Hv). reflexivity.
           ++ cbn. rewrite cell_eqb_refl; [apply orb_true_r|].
              unfold is_non_empty in Ex. apply andb_true_iff in Ex.
              destruct Ex as [Ex _]. now apply negb_true_iff in Ex.
    + rewrite app_nil_r. repeat split; auto.
Qed.

Lemma column_weight_counts {F : FloatOps} (num_records : nat)
  (vals : list cell) :
  column_weight num_records vals
  = weight_of_counts num_records (snd (count_column vals))
      (List.length (fst (count_column vals))).
Proof.
  unfold column_weight, weight_of_counts.
  now destruct (count_column vals) as [vs n].
Qed.

Lemma non_empty_without_numbers (vals : list cell) :
  forallb no_number vals = true ->
  map _replace_nan_to_empty (filter is_non_empty vals)
  = filter (fun s => negb (String.eqb s ""))
           (map _replace_nan_to_empty vals).
Proof.
  induction vals as [|v vals IH]; [reflexivity|].
  cbn [forallb]. rewrite andb_true_iff. intros [Hv Hvals].
  cbn [map filter]. destruct v as [| | s | q]; cbn in Hv; try discriminate;
    cbn; auto.
  destruct (String.eqb s ""); cbn; [auto | now rewrite IH].
Qed.

Lemma non_empty_strings (vals : list cell) (v : cell) :
  forallb no_number vals = true -> In v (filter is_non_empty vals) ->
  exists s, v = CStr s.
Proof.
  intros Hn Hv. apply filter_In in Hv. destruct Hv as [Hin Hne].
  rewrite forallb_forall in Hn. specialize (Hn v Hin).
  destruct v; cbn in *; try discriminate. now exists s.
Qed.

Lemma all_different_strings (vs : list cell) :
  all_different vs -> (forall v, In v vs -> exists s, v = CStr s) ->
  NoDup (map _replace_nan_to_empty vs).
Proof.
  induction 1 as [|vs x Hd IH Hx]; intros Hs; [constructor|].
  rewrite map_app. cbn [map].
  eapply Permutation_NoDup; [apply Permutation_cons_append|].
  constructor.
  - intros Hin. apply in_map_iff in Hin. destruct Hin as (u & Eu & Hu).
    destruct (Hs x) as [a ->]; [apply in_app_iff; right; now left|].
    destruct (Hs u) as [b ->]; [apply in_app_iff; now left|].
    cbn in Eu. subst b.
    assert (C : existsb (cell_eqb (CStr a)) vs = true).
    { apply existsb_exists. exists (CStr a). split; [exact Hu|].
      cbn. apply String.eqb_refl. }
    congruence.
  - apply IH. intros v Hv. apply Hs. apply in_app_iff. now left.
Qed.

(** Without numeric values the code's counts are the spec's counts. *)
Lemma column_weight_without_numbers {F : FloatOps} (num_records : nat)
  (vals : list cell) :
  forallb no_number vals = true ->
  column_weight num_records vals = spec_column_weight num_records vals.
Proof.
  intros Hn. rewrite column_weight_counts. unfold spec_column_weight.
  destruct (count_column_spec vals) as [(Hd & Hi & Hc) Hcount].
  rewrite <- non_empty_without_numbers by exact Hn.
  rewrite length_map, Hcount. f_equal.
  assert (Hstr : forall v, In v (fst (count_column vals)) -> exists s, v = CStr s).
  { intros v Hv. apply (non_empty_strings vals v Hn). now apply Hi. }
  rewrite <- (length_map _replace_nan_to_empty (fst (count_column vals))).
  apply Permutation_length. apply NoDup_Permutation.
  - now apply all_different_strings.
  - apply NoDup_nodup.
  - intros s. rewrite nodup_In, !in_map_iff. split.
    + intros (u & Eu & Hu). exists u. split; [exact Eu | now apply Hi].
    + intros (v & Ev & Hv). specialize (Hc v Hv).
      apply existsb_exists in Hc. destruct Hc as (u & Hu & Euv).
      exists u. split; [|exact Hu].
      destruct (non_empty_strings vals v Hn Hv) as [a ->].
      destruct (Hstr u Hu) as [b ->].
      cbn in Euv. apply String.eqb_eq in Euv. now subst.
Qed.

Lemma is_non_empty_absent (v : cell) : is_non_empty v = negb (absent v).
Proof. destruct v; reflexivity. Qed.

Lemma Forall2_map_in {A B : Type} (P : A -> B -> Prop) (f : A -> B)
  (l : list A) :
  (forall x, In x l -> P x (f x)) -> Forall2 P l (map f l).
Proof.
  induction l as [|x l IH]; intros H; cbn [map]; constructor.
  - apply H. now left.
  - apply IH. intros y Hy. apply H. now right.
Qed.

(** C2, as the code has it.  For every table with at least one record, the
    weight of every column is [non_empty_ratio + selectivity] computed on
    the raw values that iterating [table[col]] yields: a value is absent
    when it is None, NaN or the empty string, and the distinct values are
    counted by Python's equality on the raw values, one representative
    each.  Numbers are not coerced to strings; for values without numbers
    the weight is the one the spec's formula gives.  The values are the
    cells of the column when no other column carries its label; otherwise
    [table[col]] is a frame and they are the label, once per column that
    carries it. *)
Theorem C2_feature_weight_raw {F : FloatOps} (table : DataFrame) :
  df_len table <> 0%nat ->
  exists weights,
    _get_feature_weight table = Ok weights /\
    Forall2 (fun col w =>
               exists values,
                 getitem table (col_label col) = Ok values /\
                 (List.length (labelled table (col_label col)) = 1%nat ->
                  values = col_values col) /\
                 (List.length (labelled table (col_label col)) <> 1%nat ->
                  values = repeat (cell_of_label (col_label col))
                             (List.length (labelled table (col_label col)))) /\
                 let present := filter (fun v => negb (absent v)) values in
                 (exists value_set,
                     representatives value_set present /\
                     w = weight_of_counts (df_len table)
                           (List.length present) (List.length value_set)) /\
                 (forallb no_number values = true ->
                  w = spec_column_weight (df_len table) values))
            (df_cols table) weights.
Proof.
  intros Hlen.
  destruct (_get_feature_weight_total table Hlen) as (ws & E & _ & Hws).
  exists ws. split; [exact E|]. rewrite Hws. unfold columns.
  rewrite map_map. apply Forall2_map_in. intros col Hcol.
  assert (Hin : In col (labelled table (col_label col)))
    by (apply labelled_In; auto).
  exists (iterated table (col_label col)). unfold iterated, getitem.
  destruct (labelled table (col_label col)) as [|c1 [|c2 cols]] eqn:El;
    [destruct Hin| |].
  - destruct Hin as [->|[]]. split; [reflexivity|].
    split; [reflexivity|]. split; [cbn; congruence|].
    cbv zeta. split.
    + destruct (count_column_spec (col_values col)) as [Hrep Hcount].
      cbv zeta in Hrep, Hcount.
      rewrite (filter_ext _ _ is_non_empty_absent) in Hrep, Hcount.
      exists (fst (count_column (col_values col))). split; [exact Hrep|].
      rewrite column_weight_counts. now rewrite Hcount.
    + intros Hno. now apply column_weight_without_numbers.
  - set (values := map (fun _ : column => cell_of_label (col_label col))
                       (c1 :: c2 :: cols)).
    split; [reflexivity|]. split; [cbn; intros H; discriminate H|].
    split.
    { intros _. unfold values. clear.
      induction (c1 :: c2 :: cols) as [|x l IH]; cbn; [reflexivity|].
      now rewrite IH. }
    cbv zeta. split.
    + destruct (count_column_spec values) as [Hrep Hcount].
      cbv zeta in Hrep, Hcount.
      rewrite (filter_ext _ _ is_non_empty_absent) in Hrep, Hcount.
      exists (fst (count_column values)). split; [exact Hrep|].
      rewrite column_weight_counts. now rewrite Hcount.
    + intros Hno. now apply column_weight_without_numbers.
Qed.

(** C2, as the spec has it, fails: the two prices 1.2 and 1.4 are two
    distinct raw values, which gives the weight [2/2 + 2/2], while both are
    coerced to the string "1", for which the spec's formula gives
    [2/2 + 1/2]. *)
Lemma C2_numbers_are_not_coerced :
  let prices := [CNum (12 # 10); CNum (14 # 10)] in
  let table := mkFrame 2 [mkColumn (LName "price") DNumeric prices] in
  map _replace_nan_to_empty prices = ["1"; "1"] /\
  exists w : Q,
    _get_feature_weight (F := QFloat) table = Ok [w] /\
    (w == 2)%Q /\
    (spec_column_weight (F := QFloat) 2 prices == 3 # 2)%Q /\
    ~ (w == spec_column_weight (F := QFloat) 2 prices)%Q.
Proof.
  cbv zeta. split; [reflexivity|].
  eexists. split; [vm_compute; reflexivity|].
  repeat apply conj; try reflexivity.
  vm_compute. discriminate.
Qed.

Lemma C2_feature_weight_raw_witness :
  exists weights,
    _get_feature_weight (F := QFloat) demo_lfiltered = Ok weights /\
    Forall2 (fun col w =>
               exists values,
                 getitem demo_lfiltered (col_label col) = Ok values /\
                 (List.length (labelled demo_lfiltered (col_label col)) = 1%nat ->
                  values = col_values col) /\
                 (List.length (labelled demo_lfiltered (col_label col)) <> 1%nat ->
                  values = repeat (cell_of_label (col_label col))
                             (List.length
                                (labelled demo_lfiltered (col_label col)))) /\
                 let present := filter (fun v => negb (absent v)) values in
                 (exists value_set,
                     representatives value_set present /\
                     w = weight_of_counts (df_len demo_lfiltered)
                           (List.length present) (List.length value_set)) /\
                 (forallb no_number values = true ->
                  w = spec_column_weight (df_len demo_lfiltered) values))
            (df_cols demo_lfiltered) weights.
Proof.
  apply (C2_feature_weight_raw (F := QFloat) demo_lfiltered).
  cbn. discriminate.
Defined.

(** ** The order of the sort keys *)

Lemma String_leb_trans (a b c : string) :
  String.leb a b = true -> String.leb b c = true -> String.leb a c = true.
Proof.
  unfold String.leb. intros Hab Hbc.
  destruct (String.compare a b) eqn:Eab; try discriminate;
    destruct (String.compare b c) eqn:Ebc; try discriminate.
  - apply String_as_OT.cmp_eq in Eab. subst b. now rewrite Ebc.
  - apply String_as_OT.cmp_eq in Eab. subst b. now rewrite Ebc.
  - apply String_as_OT.cmp_eq in Ebc. subst c. now rewrite Eab.
  - apply String_as_OT.cmp_lt in Eab. apply String_as_OT.cmp_lt in Ebc.
    pose proof (String_as_OT.lt_trans _ _ _ Eab Ebc) as Hac.
    apply String_as_OT.cmp_lt in Hac. unfold String_as_OT.cmp in Hac.
    now rewrite Hac.
Qed.

Lemma String_leb_ltb (a b : string) :
  String.leb a b = true -> a <> b -> String.ltb a b = true.
Proof.
  unfold String.leb, String.ltb. intros Hab Hne.
  destruct (String.compare a b) eqn:E; try discriminate; [|reflexivity].
  apply String_as_OT.cmp_eq in E. contradiction.
Qed.

Lemma key_leb_total (a b : nat * string) :
  key_leb a b = true \/ key_leb b a = true.
Proof.
  unfold key_leb. destruct a as [fa sa], b as [fb sb]. cbn [fst snd].
  destruct (Nat.ltb_spec fa fb); [now left|].
  destruct (Nat.ltb_spec fb fa); [now right|].
  assert (fa = fb) by lia. subst fb. rewrite Nat.eqb_refl. cbn.
  apply String.leb_total.
Qed.

Lemma key_leb_trans (a b c : nat * string) :
  key_leb a b = true -> key_leb b c = true -> key_leb a c = true.
Proof.
  unfold key_leb. destruct a as [fa sa], b as [fb sb], c as [fc sc].
  cbn [fst snd]. rewrite !orb_true_iff, !andb_true_iff, !Nat.ltb_lt, !Nat.eqb_eq.
  intros [Hab|[Hab Sab]] [Hbc|[Hbc Sbc]].
  - left. lia.
  - left. lia.
  - left. lia.
  - right. split; [lia|]. eapply String_leb_trans; eauto.
Qed.

Lemma key_leb_strict (freq : string -> nat) (a b : string) :
  key_leb (freq a, a) (freq b, b) = true -> a <> b -> key_lt freq a b.
Proof.
  unfold key_leb, key_lt. cbn [fst snd].
  rewrite orb_true_iff, andb_true_iff, Nat.ltb_lt, Nat.eqb_eq.
  intros [H|[H S]] Hne; [now left|]. right. split; [exact H|].
  now apply String_leb_ltb.
Qed.

(** ** Token frequencies *)

Lemma impl_concat (record_list : list (list (string * nat)))
  (d : dict string nat) :
  _build_global_token_order_impl record_list d
  = fold_left count_token (List.concat record_list) d.
Proof.
  unfold _build_global_token_order_impl. revert d.
  induction record_list as [|r rs IH]; intros d; cbn; [reflexivity|].
  now rewrite fold_left_app, IH.
Qed.

Lemma count_token_get (d : dict string nat) (tup : string * nat) (t : string) :
  dict_get String.eqb (count_token d tup) t
  = if String.eqb t (fst tup) then Some (S (dict_count d (fst tup)))
    else dict_get String.eqb d t.
Proof.
  unfold count_token, dict_count.
  destruct (String.eqb_spec t (fst tup)) as [->|Hne].
  - destruct (dict_get String.eqb d (fst tup));
      apply (dict_get_set_same String.eqb String.eqb_eq).
  - destruct (dict_get String.eqb d (fst tup));
      now apply (dict_get_set_other String.eqb String.eqb_eq).
Qed.

Lemma count_token_keys (d : dict string nat) (tup : string * nat) :
  dict_keys (count_token d tup)
  = if dict_mem String.eqb d (fst tup) then dict_keys d
    else dict_keys d ++ [fst tup].
Proof.
  unfold count_token, dict_mem.
  destruct (dict_get String.eqb d (fst tup)) eqn:G.
  - apply dict_set_keys_old. congruence.
  - rewrite (dict_set_keys_new String.eqb d (fst tup) 1%nat G).
    unfold dict_keys. now rewrite map_app.
Qed.

Lemma count_token_count (d : dict string nat) (tup : string * nat) (t : string) :
  dict_count (count_token d tup) t
  = if String.eqb t (fst tup) then S (dict_count d t) else dict_count d t.
Proof.
  unfold dict_count at 1. rewrite count_token_get.
  destruct (String.eqb_spec t (fst tup)) as [->|Hne]; reflexivity.
Qed.

(** After counting the tokens [toks] into [d]: every token is counted once
    per occurrence, the keys stay pairwise different, and the keys are those
    of [d] and the tokens. *)
Lemma count_tokens_spec (toks : list (string * nat)) (d : dict string nat) :
  let d' := fold_left count_token toks d in
  (forall t, dict_count d' t
             = (dict_count d t + count_occ string_dec (map fst toks) t)%nat) /\
  (NoDup (dict_keys d) -> NoDup (dict_keys d')) /\
  (forall t, In t (dict_keys d') <-> In t (dict_keys d) \/ In t (map fst toks)).
Proof.
  revert d. induction toks as [|tup toks IH]; intros d; cbv zeta.
  - cbn. repeat split; auto.
    intros [H|[]]. exact H.
  - cbn [fold_left map]. destruct (IH (count_token d tup)) as (Hget & Hnd & Hin).
    cbv zeta in Hget, Hnd, Hin. repeat split.
    + intros t. rewrite Hget, count_token_count. cbn [count_occ].
      destruct (string_dec (fst tup) t) as [<-|Hne].
      * rewrite String.eqb_refl. lia.
      * destruct (String.eqb_spec t (fst tup)); [congruence | reflexivity].
    + intros H. apply Hnd. rewrite count_token_keys. unfold dict_mem.
      destruct (dict_get String.eqb d (fst tup)) eqn:G; [exact H|].
      eapply Permutation_NoDup; [apply Permutation_cons_append|].
      constructor; [|exact H].
      intros Hk. apply (dict_get_In String.eqb String.eqb_eq) in Hk. congruence.
    + intros H. apply Hin in H. rewrite count_token_keys in H.
      unfold dict_mem in H. cbn [In].
      destruct (dict_get String.eqb d (fst tup)) eqn:G.
      * tauto.
      * rewrite in_app_iff in H. cbn in H. tauto.
    + intros H. apply Hin. rewrite count_token_keys. unfold dict_mem. cbn [In] in H.
      destruct (dict_get String.eqb d (fst tup)) eqn:G.
      * destruct H as [H|[H|H]]; auto. left. subst t.
        apply (dict_get_In String.eqb String.eqb_eq). congruence.
      * rewrite in_app_iff. cbn. tauto.
Qed.

(** ** Ranks *)

Lemma foldM_pure {A B : Type} (g : A -> B -> A) (xs : list B) (a : A) :
  foldM (fun acc x => Ok (g acc x)) xs a = Ok (fold_left g xs a).
Proof.
  revert a. induction xs as [|x xs IH]; intros a; cbn; auto.
Qed.

Lemma nth_error_snoc {A : Type} (l : list A) (x y : A) (i : nat) :
  nth_error (l ++ [x]) i = Some y <->
  nth_error l i = Some y \/ (i = List.length l /\ y = x).
Proof.
  destruct (Nat.lt_ge_cases i (List.length l)) as [H|H].
  - rewrite nth_error_app1 by exact H. split; [auto|].
    intros [E|[E _]]; [exact E | lia].
  - rewrite nth_error_app2 by exact H.
    assert (Hn : nth_error l i = None) by now apply nth_error_None.
    rewrite Hn. destruct (i - List.length l)%nat as [|k] eqn:E; cbn.
    + split.
      * intros Hx. inversion Hx. right. split; [lia | reflexivity].
      * intros [Hx|[_ ->]]; [discriminate | reflexivity].
    + split.
      * destruct k; discriminate.
      * intros [Hx|[Hi _]]; [discriminate | lia].
Qed.

(** The two dictionaries the last loop of [_build_global_token_order]
    builds from the sorted token list. *)
Lemma rank_dicts_spec (vocabulary : list string) :
  NoDup vocabulary ->
  let dicts :=
    fold_left (fun acc ix =>
                 (dict_set String.eqb (fst acc) (snd ix) (fst ix),
                  dict_set Nat.eqb (snd acc) (fst ix) (snd ix)))
              (enumerate vocabulary) ([], []) in
  (forall t i, dict_get String.eqb (fst dicts) t = Some i
               <-> nth_error vocabulary i = Some t) /\
  (forall i t, dict_get Nat.eqb (snd dicts) i = Some t
               <-> nth_error vocabulary i = Some t).
Proof.
  induction vocabulary as [|x V IH] using rev_ind; intros Hnd; cbv zeta.
  - cbn. split; [intros t [|i] | intros [|i] t]; cbn; split; discriminate.
  - assert (HndV : NoDup V /\ ~ In x V).
    { apply NoDup_remove in Hnd. rewrite app_nil_r in Hnd. exact Hnd. }
    destruct HndV as [HndV Hx].
    destruct (IH HndV) as [Hod Htid]. cbv zeta in Hod, Htid.
    rewrite enumerate_snoc, fold_left_app. cbn [fold_left fst snd].
    clear IH. split.
    + intros t i. rewrite nth_error_snoc.
      destruct (String.eqb_spec t x) as [->|Hne].
      * rewrite (dict_get_set_same String.eqb String.eqb_eq). split.
        -- intros E. inversion E. auto.
        -- intros [E|[-> _]]; [|reflexivity].
           apply nth_error_In in E. contradiction.
      * rewrite (dict_get_set_other String.eqb String.eqb_eq) by exact Hne.
        rewrite Hod. split; [auto|]. intros [E|[_ E]]; [exact E | contradiction].
    + intros i t. rewrite nth_error_snoc.
      destruct (Nat.eqb_spec i (List.length V)) as [->|Hne].
      * rewrite (dict_get_set_same Nat.eqb Nat.eqb_eq). split.
        -- intros E. inversion E. auto.
        -- intros [E|[_ ->]]; [|reflexivity].
           assert (List.length V < List.length V)%nat
             by (apply nth_error_Some; congruence). lia.
      * rewrite (dict_get_set_other Nat.eqb Nat.eqb_eq) by exact Hne.
        rewrite Htid. split; [auto|]. intros [E|[E _]]; [exact E | contradiction].
Qed.

Lemma StronglySorted_map_keyed (freq : string -> nat)
  (keyed : list (nat * string * string)) :
  Forall (fun p => fst p = (freq (snd p), snd p)) keyed ->
  StronglySorted (fun a b => key_leb (fst a) (fst b) = true) keyed ->
  StronglySorted (fun a b => key_leb (freq a, a) (freq b, b) = true)
                 (map snd keyed).
Proof.
  intros Hk Hs. induction Hs as [|p l Hs IH Hp]; cbn; [constructor|].
  inversion Hk as [|? ? Ep Hl]; subst. constructor; [now apply IH|].
  rewrite Forall_map. rewrite Forall_forall in *.
  intros q Hq. rewrite <- Ep, <- (Hl q Hq). now apply Hp.
Qed.

Lemma StronglySorted_strict (freq : string -> nat) (vocabulary : list string) :
  NoDup vocabulary ->
  StronglySorted (fun a b => key_leb (freq a, a) (freq b, b) = true) vocabulary ->
  StronglySorted (key_lt freq) vocabulary.
Proof.
  intros Hnd Hs. induction Hs as [|a l Hs IH Ha]; [constructor|].
  inversion Hnd as [|? ? Hnotin Hnd']; subst. constructor; [now apply IH|].
  rewrite Forall_forall in *. intros b Hb.
  apply key_leb_strict; [now apply Ha|]. intros ->. contradiction.
Qed.

(** C6.  [_build_global_token_order] returns.  With [vocabulary] the
    sorted token list it builds: the vocabulary holds each token of the two
    tables' record token lists once; it is strictly ascending by
    (frequency, token string), where the frequency of a token is the number
    of its occurrences over both tables' record token lists; the rank of a
    token is its position in the vocabulary, and the reverse dictionary
    maps the position back; so the ranks are exactly the integers from 0
    to the size of the vocabulary, that size excluded. *)
Theorem C6_global_token_order
  (lrecord_list rrecord_list : list (list (string * nat))) :
  let tokens :=
    map fst (List.concat lrecord_list ++ List.concat rrecord_list) in
  let freq := fun t => count_occ string_dec tokens t in
  exists order_dict token_index_dict vocabulary,
    _build_global_token_order lrecord_list rrecord_list
    = Ok (order_dict, token_index_dict) /\
    NoDup vocabulary /\
    (forall t, In t vocabulary <-> In t tokens) /\
    StronglySorted (key_lt freq) vocabulary /\
    (forall t i, dict_get String.eqb order_dict t = Some i
                 <-> nth_error vocabulary i = Some t) /\
    (forall i t, dict_get Nat.eqb token_index_dict i = Some t
                 <-> nth_error vocabulary i = Some t) /\
    (forall i, (exists t, dict_get String.eqb order_dict t = Some i)
               <-> (i < List.length vocabulary)%nat).
Proof.
  intros tokens freq. unfold _build_global_token_order.
  rewrite !impl_concat, <- fold_left_app, copy_loop. cbn [app].
  set (fd := fold_left count_token
               (List.concat lrecord_list ++ List.concat rrecord_list) []).
  destruct (count_tokens_spec
              (List.concat lrecord_list ++ List.concat rrecord_list) [])
    as (Hcount & Hnd & Hin).
  fold fd in Hcount, Hnd, Hin. cbv zeta in Hcount, Hnd, Hin.
  fold tokens in Hcount, Hin.
  assert (Hfreq : forall t, dict_count fd t = freq t)
    by (intros t; rewrite Hcount; reflexivity).
  assert (HndK : NoDup (dict_keys fd)) by (apply Hnd; constructor).
  assert (HinK : forall t, In t (dict_keys fd) <-> In t tokens).
  { intros t. rewrite Hin. cbn. tauto. }
  rewrite (mapM_Ok_map _ (fun x => ((freq x, x), x))).
  2:{ intros x Hx. unfold dict_item.
      apply (dict_get_In String.eqb String.eqb_eq) in Hx.
      pose proof (Hfreq x) as Hf. unfold dict_count in Hf.
      destruct (dict_get String.eqb fd x); [|congruence]. cbn. now rewrite Hf. }
  cbn [rbind].
  set (keyed := map (fun x => ((freq x, x), x)) (dict_keys fd)).
  set (ranked := py_sorted (fun a b => key_leb (fst a) (fst b)) keyed).
  set (vocabulary := map snd ranked).
  assert (Hperm : Permutation vocabulary (dict_keys fd)).
  { unfold vocabulary, ranked.
    eapply Permutation_trans; [apply Permutation_map, py_sorted_perm|].
    unfold keyed. rewrite map_map. cbn [snd]. now rewrite map_id. }
  assert (HndV : NoDup vocabulary).
  { eapply Permutation_NoDup; [apply Permutation_sym, Hperm | exact HndK]. }
  assert (Hsorted : StronglySorted (key_lt freq) vocabulary).
  { apply StronglySorted_strict; [exact HndV|].
    apply StronglySorted_map_keyed.
    - eapply Permutation_Forall; [apply Permutation_sym, py_sorted_perm|].
      unfold keyed. rewrite Forall_map. apply Forall_forall. now intros x _.
    - apply (py_sorted_sorted (fun a b : nat * string * string =>
                                 key_leb (fst a) (fst b))).
      + intros x y. apply key_leb_total.
      + intros x y z. apply key_leb_trans. }
  erewrite foldM_ext.
  2:{ intros acc i.
      instantiate (1 := fun acc i =>
                          rbind (py_index vocabulary i) (fun token =>
                          Ok (dict_set String.eqb (fst acc) token i,
                              dict_set Nat.eqb (snd acc) i token))).
      now destruct acc. }
  rewrite (foldM_range_index
             (fun acc i token => Ok (dict_set String.eqb (fst acc) token i,
                                     dict_set Nat.eqb (snd acc) i token))).
  rewrite (foldM_pure
             (fun acc ix => (dict_set String.eqb (fst acc) (snd ix) (fst ix),
                             dict_set Nat.eqb (snd acc) (fst ix) (snd ix)))).
  destruct (rank_dicts_spec vocabulary HndV) as [Hod Htid].
  cbv zeta in Hod, Htid.
  match type of Hod with
  | forall t i, dict_get String.eqb (fst ?D) t = Some i <-> _ =>
      remember D as dicts eqn:Ed
  end.
  clear Ed. destruct dicts as [od tid]. cbn [fst snd] in Hod, Htid.
  exists od, tid, vocabulary.
  split; [reflexivity|]. split; [exact HndV|]. split.
  { intros t. split; intros H.
    - rewrite <- HinK. eapply Permutation_in; [exact Hperm | exact H].
    - apply HinK in H.
      eapply Permutation_in; [apply Permutation_sym, Hperm | exact H]. }
  split; [exact Hsorted|]. split; [exact Hod|]. split; [exact Htid|].
  intros i. split.
  - intros [t Ht]. apply Hod in Ht. apply nth_error_Some. congruence.
  - intros Hi. destruct (nth_error vocabulary i) as [t|] eqn:E.
    + exists t. now apply Hod.
    + apply nth_error_None in E. lia.
Qed.

Example global_token_order_example :
  _build_global_token_order [[("b", 0%nat); ("a", 0%nat)]] [[("a", 1%nat)]]
  = Ok ([("b", 0%nat); ("a", 1%nat)], [(0%nat, "b"); (1%nat, "a")]).
Proof. reflexivity. Qed.

(** ** Token suffixes *)

(** C1 fails on the code.  The record "a a a_1" is tokenized to [a], [a_1],
    [a_1]: the second [a] is rewritten to [a_1], which is also the third
    token, and the third token is new to the index map, so it is kept as it
    is.  With the same record in the other table, the two equal strings
    get one rank, and the record's token array [0, 1, 1] is not strictly
    ascending. *)
Theorem C1_suffix_collision :
  exists record order_dict token_index_dict,
    _get_tokenized_table demo_collision (LName "id") [1%nat] = Ok [record] /\
    map fst record = ["a"; "a_1"; "a_1"] /\
    ~ NoDup (map fst record) /\
    _build_global_token_order [record] [record]
    = Ok (order_dict, token_index_dict) /\
    token_arrays [record] order_dict = Ok [[0; 1; 1]%nat] /\
    ~ StronglySorted lt [0; 1; 1]%nat.
Proof.
  eexists. eexists. eexists.
  split; [reflexivity|]. split; [reflexivity|]. split.
  { intros H. inversion H as [|? ? _ H1]. inversion H1 as [|? ? Hn _].
    apply Hn. now left. }
  split; [reflexivity|]. split; [reflexivity|].
  intros H. inversion H as [|? ? H1 _]. inversion H1 as [|? ? _ Hf].
  inversion Hf as [|? ? Hlt _]. lia.
Qed.

(** The suffixes do make the tokens of a record distinct when no token
    holds an underscore of its own. *)

Lemma suffix_has_underscore (t x : string) :
  underscore_free (t ++ String "_"%char x)%string = false.
Proof.
  induction t as [|c t IH]; cbn; [reflexivity|].
  rewrite IH. apply andb_false_r.
Qed.

Lemma suffix_inj (t t' x x' : string) :
  underscore_free t = true -> underscore_free t' = true ->
  (t ++ String "_"%char x)%string = (t' ++ String "_"%char x')%string ->
  t = t' /\ x = x'.
Proof.
  revert t'. induction t as [|c t IH]; intros [|c' t'] Ht Ht' E; cbn in *.
  - inversion E. auto.
  - inversion E; subst. now rewrite Ascii.eqb_refl in Ht'.
  - inversion E; subst. now rewrite Ascii.eqb_refl in Ht.
  - inversion E; subst. apply andb_true_iff in Ht, Ht'.
    destruct (IH t' (proj2 Ht) (proj2 Ht') H1) as [-> ->]. auto.
Qed.

Lemma str_of_nat_inj (i k : nat) : str_of_nat i = str_of_nat k -> i = k.
Proof.
  unfold str_of_nat. intros E.
  apply DecimalNat.Unsigned.to_uint_inj.
  assert (H : Some (Nat.to_uint i) = Some (Nat.to_uint k)).
  { rewrite <- !DecimalString.NilEmpty.usu. now rewrite E. }
  now inversion H.
Qed.

Lemma add_token_inv (j : nat) (st : list (string * nat) * dict string nat)
  (token : string) :
  suffix_inv st -> underscore_free token = true ->
  suffix_inv (add_token j st token).
Proof.
  destruct st as [token_list index_map]. unfold suffix_inv, add_token.
  cbn [fst snd]. intros (Hnd & Hmap & Hlist) Hfree.
  destruct (String.eqb token "") eqn:Eempty; cbn [negb fst snd];
    [exact (conj Hnd (conj Hmap Hlist))|].
  destruct (dict_get String.eqb index_map token) as [k|] eqn:G; cbn [fst snd].
  - destruct (Hmap token k G) as [_ Hk].
    change ("_" ++ str_of_nat k)%string with (String "_"%char (str_of_nat k)).
    rewrite map_app. cbn [map fst]. repeat split.
    + eapply Permutation_NoDup; [apply Permutation_cons_append|].
      constructor; [|exact Hnd]. intros Hin.
      destruct (Hlist _ Hin) as (t & k' & Gt & [E|(i & Hi & E)]).
      * destruct (Hmap t k' Gt) as [Ft _].
        rewrite <- E, suffix_has_underscore in Ft. discriminate.
      * destruct (Hmap t k' Gt) as [Ft _].
        destruct (suffix_inj _ _ _ _ Hfree Ft E) as [<- Es].
        apply str_of_nat_inj in Es. subst i.
        rewrite G in Gt. inversion Gt. lia.
    + destruct (String.eqb_spec t token) as [->|Hne].
      * rewrite (dict_get_set_same String.eqb String.eqb_eq) in H. auto.
      * rewrite (dict_get_set_other String.eqb String.eqb_eq) in H by exact Hne.
        now apply (Hmap t k0).
    + destruct (String.eqb_spec t token) as [->|Hne].
      * rewrite (dict_get_set_same String.eqb String.eqb_eq) in H.
        inversion H. lia.
      * rewrite (dict_get_set_other String.eqb String.eqb_eq) in H by exact Hne.
        now apply (Hmap t k0).
    + intros s Hs. apply in_app_iff in Hs. destruct Hs as [Hs|[<-|[]]].
      * destruct (Hlist s Hs) as (t & k' & Gt & Hcase).
        destruct (String.eqb_spec t token) as [->|Hne].
        -- exists token, (S k).
           rewrite (dict_get_set_same String.eqb String.eqb_eq).
           split; [reflexivity|]. rewrite G in Gt. inversion Gt; subst k'.
           destruct Hcase as [E|(i & Hi & E)]; [now left|].
           right. exists i. split; [lia | exact E].
        -- exists t, k'.
           rewrite (dict_get_set_other String.eqb String.eqb_eq) by exact Hne.
           auto.
      * exists token, (S k).
        rewrite (dict_get_set_same String.eqb String.eqb_eq).
        split; [reflexivity|]. right. exists k. split; [lia | reflexivity].
  - rewrite map_app. cbn [map fst]. repeat split.
    + eapply Permutation_NoDup; [apply Permutation_cons_append|].
      constructor; [|exact Hnd]. intros Hin.
      destruct (Hlist _ Hin) as (t & k' & Gt & [E|(i & Hi & E)]).
      * subst t. congruence.
      * rewrite E, suffix_has_underscore in Hfree. discriminate.
    + destruct (String.eqb_spec t token) as [->|Hne]; [exact Hfree|].
      rewrite (dict_get_set_other String.eqb String.eqb_eq) in H by exact Hne.
      now apply (Hmap t k).
    + destruct (String.eqb_spec t token) as [->|Hne].
      * rewrite (dict_get_set_same String.eqb String.eqb_eq) in H.
        inversion H. lia.
      * rewrite (dict_get_set_other String.eqb String.eqb_eq) in H by exact Hne.
        now apply (Hmap t k).
    + intros s Hs. apply in_app_iff in Hs. destruct Hs as [Hs|[<-|[]]].
      * destruct (Hlist s Hs) as (t & k' & Gt & Hcase).
        exists t, k'. split; [|exact Hcase].
        rewrite (dict_get_set_other String.eqb String.eqb_eq); [exact Gt|].
        intros ->. congruence.
      * exists token, 1%nat.
        rewrite (dict_get_set_same String.eqb String.eqb_eq). auto.
Qed.

Lemma foldM_invariant {A B : Type} (I : A -> Prop) (f : A -> B -> result A)
  (xs : list B) (a a' : A) :
  (forall a x a', In x xs -> I a -> f a x = Ok a' -> I a') ->
  I a -> foldM f xs a = Ok a' -> I a'.
Proof.
  revert a. induction xs as [|x xs IH]; intros a Hstep Ha E; cbn in E.
  - now inversion E; subst.
  - destruct (f a x) as [a1|e] eqn:Ef; [|discriminate]. cbn in E.
    apply (IH a1); auto.
    + intros a0 y a0' Hy. apply Hstep. now right.
    + apply (Hstep a x a1); auto. now left.
Qed.

Lemma mapM_Forall {A B : Type} (P : B -> Prop) (f : A -> result B)
  (xs : list A) (ys : list B) :
  (forall x y, In x xs -> f x = Ok y -> P y) ->
  mapM f xs = Ok ys -> Forall P ys.
Proof.
  revert ys. induction xs as [|x xs IH]; intros ys Hf E; cbn in E.
  - inversion E. constructor.
  - destruct (f x) as [y|e] eqn:Ef; [|discriminate]. cbn in E.
    destruct (mapM f xs) as [ys'|e] eqn:Em; [|discriminate]. cbn in E.
    inversion E; subst. constructor.
    + apply (Hf x y); auto. now left.
    + apply IH; auto. intros x0 y0 Hx0. apply Hf. now right.
Qed.

Lemma fold_add_token_inv (j : nat) (tokens : list string)
  (st : list (string * nat) * dict string nat) :
  suffix_inv st -> Forall (fun t => underscore_free t = true) tokens ->
  suffix_inv (fold_left (add_token j) tokens st).
Proof.
  intros Hst Hfree. revert st Hst.
  induction Hfree as [|t tokens Ht _ IH]; intros st Hst; [exact Hst|].
  cbn. apply IH. now apply add_token_inv.
Qed.

(** When no token of the table's columns holds an underscore, the token
    strings of every record that [_get_tokenized_table] returns are
    pairwise distinct. *)
Lemma _get_tokenized_table_distinct (table : DataFrame) (table_key : label)
  (feature_list : list nat) (record_list : list (list (string * nat))) :
  (forall col column tokens token,
      getitem table col = Ok column ->
      In tokens (_get_tokenized_column column) -> In token tokens ->
      underscore_free token = true) ->
  _get_tokenized_table table table_key feature_list = Ok record_list ->
  Forall (fun record => NoDup (map fst record)) record_list.
Proof.
  intros Hfree E. unfold _get_tokenized_table in E.
  destruct (mapM (py_index (columns table)) feature_list) as [cols|e];
    [|discriminate].
  cbn [rbind] in E.
  destruct (mapM _ cols) as [tmp_table|e] eqn:Et; [|discriminate].
  cbn [rbind] in E.
  destruct (getitem_len table table_key) as [num_records|e]; [|discriminate].
  cbn [rbind] in E.
  assert (Htmp : Forall (fun column_token_list =>
                           forall tokens token,
                             In tokens column_token_list -> In token tokens ->
                             underscore_free token = true) tmp_table).
  { eapply mapM_Forall; [|exact Et]. intros col ctl _ Ec. cbn beta in Ec.
    destruct (getitem table col) as [column|e] eqn:Eg; [|discriminate].
    cbn in Ec. inversion Ec; subst. intros tokens token. now apply (Hfree col). }
  rewrite Forall_forall in Htmp.
  eapply mapM_Forall; [|exact E]. intros i record _ Er. cbn beta in Er.
  match type of Er with
  | rbind ?loop _ = _ => destruct loop as [st|e] eqn:El; [|discriminate]
  end.
  cbn in Er. inversion Er; subst.
  assert (Hinv : suffix_inv st).
  { eapply foldM_invariant; [| |exact El].
    - intros a j a' _ Ha Estep. cbn beta in Estep.
      destruct (py_index tmp_table j) as [ctl|e] eqn:Ej;
        cbn [rbind] in Estep; [|discriminate Estep].
      destruct (py_index ctl i) as [tokens|e] eqn:Ei;
        cbn [rbind] in Estep; [|discriminate Estep].
      inversion Estep; subst.
      apply fold_add_token_inv; [exact Ha|].
      apply Forall_forall. intros token Htoken.
      unfold py_index in Ej, Ei.
      destruct (nth_error tmp_table j) eqn:Nj; inversion Ej; subst.
      destruct (nth_error ctl i) eqn:Ni; inversion Ei; subst.
      apply (Htmp ctl (nth_error_In _ _ Nj) tokens token); auto.
      eapply nth_error_In; eauto.
    - split; [constructor|].
      split; [intros t k H; discriminate H | intros s []]. }
  exact (proj1 Hinv).
Qed.

(** ** From distinct token strings to ascending token arrays *)

Lemma replace_record (order_dict : dict string nat)
  (record : list (string * nat)) (acc : list (nat * nat)) :
  fold_left (fun tmp_record tup =>
               let token := fst tup in
               let index := snd tup in
               match dict_get String.eqb order_dict token with
               | Some rank => tmp_record ++ [(rank, index)]
               | None => tmp_record
               end)
            record acc
  = acc ++ flat_map (rank_of order_dict) record.
Proof.
  revert acc. induction record as [|tup record IH]; intros acc; cbn.
  - now rewrite app_nil_r.
  - rewrite IH. unfold rank_of at 2.
    destruct (dict_get String.eqb order_dict (fst tup)); cbn.
    + now rewrite <- app_assoc.
    + reflexivity.
Qed.

Lemma ranks_distinct (order_dict : dict string nat) (vocabulary : list string)
  (record : list (string * nat)) :
  (forall t i, dict_get String.eqb order_dict t = Some i
               <-> nth_error vocabulary i = Some t) ->
  NoDup (map fst record) ->
  NoDup (map fst (flat_map (rank_of order_dict) record)).
Proof.
  intros Hod. induction record as [|tup record IH]; cbn; [constructor|].
  intros Hnd. inversion Hnd as [|? ? Hnotin Hnd']; subst.
  unfold rank_of at 1.
  destruct (dict_get String.eqb order_dict (fst tup)) as [r|] eqn:G; cbn;
    [|now apply IH].
  constructor; [|now apply IH].
  intros Hin. apply in_map_iff in Hin. destruct Hin as ([r' f] & Er & Hin).
  cbn in Er. subst r'. apply in_flat_map in Hin.
  destruct Hin as (tup' & Htup' & Hr). unfold rank_of in Hr.
  destruct (dict_get String.eqb order_dict (fst tup')) as [r'|] eqn:G';
    [|destruct Hr].
  destruct Hr as [Hr|[]]. inversion Hr; subst r'.
  apply Hod in G, G'. rewrite G in G'. inversion G' as [E].
  apply Hnotin. rewrite E. now apply in_map.
Qed.

Lemma sorted_ranks_ascending (record : list (nat * nat)) :
  NoDup (map fst record) ->
  StronglySorted lt (map fst (py_sorted (fun a b => (fst a <=? fst b)%nat) record)).
Proof.
  intros Hnd.
  set (sorted := py_sorted (fun a b => (fst a <=? fst b)%nat) record).
  assert (Hs : StronglySorted (fun a b => (fst a <=? fst b)%nat = true) sorted).
  { apply (py_sorted_sorted (fun a b : nat * nat => (fst a <=? fst b)%nat)).
    - intros x y. rewrite !Nat.leb_le. lia.
    - intros x y z. rewrite !Nat.leb_le. lia. }
  assert (Hnd' : NoDup (map fst sorted)).
  { eapply Permutation_NoDup; [|exact Hnd].
    apply Permutation_map, Permutation_sym, py_sorted_perm. }
  clearbody sorted. induction Hs as [|a l Hs IH Ha]; cbn; [constructor|].
  cbn in Hnd'. inversion Hnd' as [|? ? Hnotin Hnd'']; subst.
  constructor; [now apply IH|].
  rewrite Forall_map. rewrite Forall_forall in *. intros b Hb.
  specialize (Ha b Hb). apply Nat.leb_le in Ha.
  assert (fst a <> fst b) by (intros E; apply Hnotin; rewrite E; now apply in_map).
  lia.
Qed.

Lemma split_tokens (record_list : list (list (nat * nat)))
  (acc out : list (list nat) * list (list nat)) :
  foldM (fun '(record_token_list, record_index_list) record =>
           let token_list := map fst record in
           let index_list := map snd record in
           rbind (array_I token_list) (fun tokens =>
           rbind (array_I index_list) (fun fields =>
           Ok (record_token_list ++ [tokens], record_index_list ++ [fields]))))
        record_list acc = Ok out ->
  fst out = fst acc ++ map (map fst) record_list.
Proof.
  revert acc. induction record_list as [|record rs IH]; intros [ts fs] E; cbn in E.
  - inversion E. cbn. now rewrite app_nil_r.
  - unfold array_I in E at 1 2.
    destruct (forallb fits_u32 (map fst record)); cbn in E; [|discriminate].
    destruct (forallb fits_u32 (map snd record)); cbn in E; [|discriminate].
    apply IH in E. rewrite E. cbn. now rewrite <- app_assoc.
Qed.

(** With a rank dictionary that numbers a vocabulary by position, records
    of pairwise distinct token strings get strictly ascending token
    arrays. *)
Lemma token_arrays_ascending (record_list : list (list (string * nat)))
  (order_dict : dict string nat) (vocabulary : list string)
  (arrays : list (list nat)) :
  (forall t i, dict_get String.eqb order_dict t = Some i
               <-> nth_error vocabulary i = Some t) ->
  Forall (fun record => NoDup (map fst record)) record_list ->
  token_arrays record_list order_dict = Ok arrays ->
  Forall (StronglySorted lt) arrays.
Proof.
  intros Hod Hnd E. unfold token_arrays in E.
  destruct (_split_record_token_and_index _) as [out|e] eqn:Es; [|discriminate].
  cbn in E. inversion E; subst arrays.
  unfold _split_record_token_and_index in Es. apply split_tokens in Es.
  cbn [fst app] in Es. rewrite Es.
  unfold _sort_record_tokens_by_global_order, _replace_token_with_numeric_index.
  rewrite !map_map. rewrite Forall_map.
  eapply Forall_impl; [|exact Hnd]. intros record Hr. cbv beta.
  rewrite replace_record. cbn [app].
  apply sorted_ranks_ascending. now apply (ranks_distinct order_dict vocabulary).
Qed.

(** * Further properties of the driver *)

(** ** Filtered tables *)

(** X1.  When every pair of the correspondence list names a column of the
    left and a column of the right table, [_get_filtered_table] returns two
    frames with the records of the input tables; the columns of each are,
    for the components of the pairs in the order of the list, the columns
    of the input table that carry the component as label.  For an input
    table with pairwise different labels that is one column per pair,
    labelled by the component, so that two such tables give frames of
    equal width.  When some pair names a column that its table does not
    have, the function raises [KeyError]. *)
Theorem X1_filtered_tables (ltable rtable : DataFrame)
  (corres_list : list (label * label)) :
  (columns_exist ltable rtable corres_list ->
   exists lfiltered rfiltered,
     _get_filtered_table ltable rtable corres_list
     = Ok (lfiltered, rfiltered) /\
     df_cols lfiltered = flat_map (labelled ltable) (map fst corres_list) /\
     df_cols rfiltered = flat_map (labelled rtable) (map snd corres_list) /\
     df_len lfiltered = df_len ltable /\ df_len rfiltered = df_len rtable /\
     incl (df_cols lfiltered) (df_cols ltable) /\
     incl (df_cols rfiltered) (df_cols rtable) /\
     (NoDup (columns ltable) -> columns lfiltered = map fst corres_list) /\
     (NoDup (columns rtable) -> columns rfiltered = map snd corres_list) /\
     (NoDup (columns ltable) -> NoDup (columns rtable) ->
      List.length (columns lfiltered) = List.length (columns rfiltered))) /\
  (~ columns_exist ltable rtable corres_list ->
   _get_filtered_table ltable rtable corres_list = Err KeyError).
Proof.
  unfold columns_exist, _get_filtered_table. split.
  - intros H.
    assert (Hl : Forall (fun c => In c (columns ltable)) (map fst corres_list)).
    { rewrite Forall_map. eapply Forall_impl; [|exact H]. now intros p [? _]. }
    assert (Hr : Forall (fun c => In c (columns rtable)) (map snd corres_list)).
    { rewrite Forall_map. eapply Forall_impl; [|exact H]. now intros p [_ ?]. }
    rewrite (getitems_present ltable _ Hl), (getitems_present rtable _ Hr).
    cbn [rbind]. do 2 eexists. split; [reflexivity|].
    unfold columns at 2 4 7 8. cbn [df_cols df_len].
    split; [reflexivity|]. split; [reflexivity|].
    split; [reflexivity|]. split; [reflexivity|].
    split; [apply flat_map_labelled_incl|].
    split; [apply flat_map_labelled_incl|].
    split; [intros Hnd; now apply flat_map_labelled_NoDup|].
    split; [intros Hnd; now apply flat_map_labelled_NoDup|].
    intros Hnl Hnr.
    rewrite (flat_map_labelled_NoDup ltable _ Hnl Hl).
    rewrite (flat_map_labelled_NoDup rtable _ Hnr Hr).
    now rewrite !length_map.
  - intros H.
    destruct (Forall_dec (fun c => In c (columns ltable))
                (fun c => label_in_dec c (columns ltable))
                (map fst corres_list)) as [Hl|Hl].
    + rewrite (getitems_present ltable _ Hl).
      cbn [rbind]. rewrite getitems_absent; [reflexivity|].
      intros Hr. apply H. rewrite Forall_map in Hl, Hr.
      rewrite Forall_forall in *. intros p Hp. split; auto.
    + now rewrite (getitems_absent ltable _ Hl).
Qed.

Lemma X1_filtered_tables_witness :
  (exists lfiltered rfiltered,
      _get_filtered_table demo_ltable demo_rtable
        [(LName "id", LName "id"); (LName "name", LName "name")]
      = Ok (lfiltered, rfiltered) /\
      columns lfiltered = [LName "id"; LName "name"] /\
      columns rfiltered = [LName "id"; LName "name"]) /\
  _get_filtered_table demo_ltable demo_rtable [(LName "id", LName "title")]
  = Err KeyError.
Proof.
  assert (Hnd : forall a b c : string,
             a <> b -> a <> c -> b <> c ->
             NoDup [LName a; LName b; LName c]).
  { intros a b c Hab Hac Hbc. repeat constructor; cbn; intuition congruence. }
  split.
  - destruct (proj1 (X1_filtered_tables demo_ltable demo_rtable
                       [(LName "id", LName "id"); (LName "name", LName "name")]))
      as (lf & rf & E & _ & _ & _ & _ & _ & _ & Cl & Cr & _).
    + unfold columns_exist.
      repeat (apply Forall_cons; [split; cbn; auto 10|]). apply Forall_nil.
    + exists lf, rf. split; [exact E|]. split.
      * apply Cl. apply Hnd; discriminate.
      * apply Cr. apply Hnd; discriminate.
  - apply (proj2 (X1_filtered_tables demo_ltable demo_rtable
                    [(LName "id", LName "title")])).
    unfold columns_exist. intros H. inversion H as [|? ? [_ Hin] _]; subst.
    cbn in Hin. destruct Hin as [E|[E|[E|[]]]]; discriminate.
Defined.

(** ** The column dictionary and the key search *)

Lemma col_dict_spec (names : list label) (c : label) :
  match dict_get label_eqb
          (fold_left (fun d ix => dict_set label_eqb d (snd ix) (fst ix))
                     (enumerate names) []) c with
  | Some i => nth_error names i = Some c /\
              forall j, nth_error names j = Some c -> (j <= i)%nat
  | None => ~ In c names
  end.
Proof.
  induction names as [|x names IH] using rev_ind; [cbn; auto|].
  rewrite enumerate_snoc, fold_left_app. cbn [fold_left fst snd].
  destruct (label_eqb x c) eqn:E.
  - apply label_eqb_eq in E. subst x.
    rewrite (dict_get_set_same label_eqb label_eqb_eq). split.
    + rewrite nth_error_app2 by lia. now rewrite Nat.sub_diag.
    + intros j Hj.
      assert (j < List.length (names ++ [c]))%nat
        by (apply nth_error_Some; congruence).
      rewrite length_app in H. cbn in H. lia.
  - apply label_eqb_neq in E.
    rewrite (dict_get_set_other label_eqb label_eqb_eq) by congruence.
    destruct (dict_get label_eqb _ c) as [i|].
    + destruct IH as [Hn Hlast]. split.
      * apply nth_error_snoc. now left.
      * intros j Hj. apply nth_error_snoc in Hj.
        destruct Hj as [Hj|[_ Hc]]; [auto | congruence].
    + rewrite in_app_iff. intros [H|[H|[]]]; [auto | congruence].
Qed.

(** X2.  [_build_col_name_index_dict] maps a label to the last position at
    which the label stands among the columns, and has no entry for a label
    that is no column.  The key search of [_select_features] finds the same
    position, and [-1] for a label that is no column. *)
Theorem X2_column_dictionary (table : DataFrame) (c : label) :
  (In c (columns table) ->
   exists i,
     dict_get label_eqb (_build_col_name_index_dict table) c = Some i /\
     nth_error (columns table) i = Some c /\
     (forall j, nth_error (columns table) j = Some c -> (j <= i)%nat) /\
     find_key_index c (columns table) = Z.of_nat i) /\
  (~ In c (columns table) ->
   dict_get label_eqb (_build_col_name_index_dict table) c = None /\
   find_key_index c (columns table) = (-1)%Z).
Proof.
  rewrite _build_col_name_index_dict_enumerate.
  pose proof (col_dict_spec (columns table) c) as D.
  destruct (dict_get label_eqb _ c) as [i|]; split.
  - intros _. destruct D as [Hn Hlast]. exists i. repeat split; auto.
    destruct (find_key_index_spec c (columns table))
      as [[Hnot _]|(i' & E & Hn' & Hlast')].
    + exfalso. apply Hnot. eapply nth_error_In. exact Hn.
    + rewrite E. f_equal. specialize (Hlast i' Hn'). specialize (Hlast' i Hn).
      lia.
  - intros Hnot. exfalso. apply Hnot. eapply nth_error_In. exact (proj1 D).
  - intros Hin. contradiction.
  - intros Hnot. split; [reflexivity|].
    destruct (find_key_index_spec c (columns table))
      as [[_ E]|(i' & _ & Hn' & _)]; [exact E|].
    exfalso. apply Hnot. eapply nth_error_In. exact Hn'.
Qed.

Lemma X2_column_dictionary_witness :
  (exists i,
      dict_get label_eqb (_build_col_name_index_dict demo_lfiltered_keys)
        (LName "id") = Some i /\
      nth_error (columns demo_lfiltered_keys) i = Some (LName "id") /\
      (forall j, nth_error (columns demo_lfiltered_keys) j = Some (LName "id")
                 -> (j <= i)%nat) /\
      find_key_index (LName "id") (columns demo_lfiltered_keys) = Z.of_nat i) /\
  dict_get label_eqb (_build_col_name_index_dict demo_ltable) (LName "title")
  = None /\
  find_key_index (LName "title") (columns demo_ltable) = (-1)%Z.
Proof.
  split.
  - apply (proj1 (X2_column_dictionary demo_lfiltered_keys (LName "id"))).
    cbn. auto.
  - apply (proj2 (X2_column_dictionary demo_ltable (LName "title"))).
    cbn. intros [E|[E|[E|[]]]]; discriminate.
Defined.

(** ** The map from record ids to positions *)

Lemma _build_id_to_index_map_loop_ok (items : list (nat * cell))
  (d : dict cell nat) :
  (forall pre x post, items = pre ++ x :: post ->
   forall k, In k (dict_keys d ++ map snd pre) -> cell_eqb (snd x) k = false) ->
  foldM (fun record_id_to_index ix =>
           if dict_mem cell_eqb record_id_to_index (snd ix)
           then Err AssertionError
           else Ok (dict_set cell_eqb record_id_to_index (snd ix) (fst ix)))
        items d
  = Ok (d ++ map (fun ix => (snd ix, fst ix)) items).
Proof.
  revert d. induction items as [|y items IH]; intros d H.
  - cbn. now rewrite app_nil_r.
  - assert (G : dict_get cell_eqb d (snd y) = None).
    { apply dict_get_None. apply Forall_forall. intros k Hk.
      apply (H [] y items eq_refl). cbn. now rewrite app_nil_r. }
    cbn [foldM map]. unfold dict_mem. rewrite G. cbn [rbind].
    rewrite (dict_set_keys_new cell_eqb d (snd y) (fst y) G).
    rewrite IH.
    + now rewrite <- app_assoc.
    + intros pre x post E k Hk. apply (H (y :: pre) x post).
      * cbn. now rewrite E.
      * unfold dict_keys in *. rewrite map_app in Hk. cbn in Hk.
        rewrite <- app_assoc in Hk. exact Hk.
Qed.

Lemma dict_get_first {K V : Type} (keq : K -> K -> bool)
  (pre post : dict K V) (k a : K) (v : V) :
  Forall (fun k' => keq a k' = false) (dict_keys pre) ->
  keq a k = true ->
  dict_get keq (pre ++ (k, v) :: post) a = Some v.
Proof.
  induction pre as [|[k' v'] pre IH]; cbn; intros Hpre Hk.
  - now rewrite Hk.
  - inversion Hpre as [|? ? Hk' Hrest]; subst. rewrite Hk'. now apply IH.
Qed.

(** X3.  When no record id is NaN and no record id is equal to the id of
    an earlier record, [_build_id_to_index_map] returns the ids with
    their positions, in order, and looking up the id of record [i] gives
    [i].  (The ids are what iterating [table[table_key]] yields; for a key
    label that several columns carry these are the labels, which are
    equal, so the premise does not hold and the function raises.) *)
Theorem X3_id_to_index_round_trip (table : DataFrame) (table_key : label)
  (ids : list cell) :
  getitem table table_key = Ok ids ->
  (forall a, In a ids -> a <> CNaN) ->
  (forall i j a b, (i < j)%nat -> nth_error ids i = Some a ->
                   nth_error ids j = Some b -> cell_eqb b a = false) ->
  exists record_id_to_index,
    _build_id_to_index_map table table_key = Ok record_id_to_index /\
    record_id_to_index = map (fun ix => (snd ix, fst ix)) (enumerate ids) /\
    forall i a, nth_error ids i = Some a ->
                dict_get cell_eqb record_id_to_index a = Some i.
Proof.
  intros Hg Hnan Hdiff. eexists. split; [|split; [reflexivity|]].
  - unfold _build_id_to_index_map. rewrite Hg. cbn [rbind].
    rewrite (foldM_range_index
               (fun d i id => if dict_mem cell_eqb d id then Err AssertionError
                              else Ok (dict_set cell_eqb d id i))).
    rewrite _build_id_to_index_map_loop_ok; [reflexivity|].
    intros pre x post E k Hk. cbn in Hk. apply in_map_iff in Hk.
    destruct Hk as ([j a] & Ea & Hin). cbn in Ea. subst k.
    apply In_nth_error in Hin. destruct Hin as (n & Hn).
    assert (Hlen : (n < List.length pre)%nat)
      by (apply nth_error_Some; congruence).
    assert (Hpre : nth_error (enumerate ids) n = Some (j, a))
      by (rewrite E, nth_error_app1; assumption).
    assert (Hx : nth_error (enumerate ids) (List.length pre) = Some x).
    { rewrite E, nth_error_app2 by lia. now rewrite Nat.sub_diag. }
    rewrite enumerate_nth in Hpre, Hx.
    destruct (nth_error ids n) as [a'|] eqn:Na; [|discriminate].
    destruct (nth_error ids (List.length pre)) as [b|] eqn:Nb; [|discriminate].
    pose proof (Hdiff n (List.length pre) a' b Hlen Na Nb) as D.
    cbn in Hpre, Hx. inversion Hpre; subst. inversion Hx; subst. exact D.
  - intros i a Hi.
    assert (Hrefl : cell_eqb a a = true).
    { pose proof (Hnan a (nth_error_In _ _ Hi)) as Ha.
      destruct a; cbn; try congruence.
      - apply String.eqb_refl.
      - apply Qeq_bool_refl. }
    assert (Hm : nth_error (map (fun ix : nat * cell => (snd ix, fst ix))
                              (enumerate ids)) i = Some (a, i)).
    { rewrite nth_error_map, enumerate_nth, Hi. reflexivity. }
    destruct (nth_error_split _ _ Hm) as (pre & post & E & Hlen).
    rewrite E. apply dict_get_first; [|exact Hrefl].
    apply Forall_forall. intros k Hk. unfold dict_keys in Hk.
    apply in_map_iff in Hk. destruct Hk as ([k' v] & Ek & Hin). cbn in Ek.
    subst k'. apply In_nth_error in Hin. destruct Hin as (n & Hn).
    assert (Hn' : (n < List.length pre)%nat)
      by (apply nth_error_Some; congruence).
    assert (Hpre : nth_error (map (fun ix : nat * cell => (snd ix, fst ix))
                                (enumerate ids)) n = Some (k, v))
      by (rewrite E, nth_error_app1; assumption).
    rewrite nth_error_map, enumerate_nth in Hpre.
    destruct (nth_error ids n) as [b|] eqn:Nb; [|discriminate].
    assert (D : cell_eqb a b = false).
    { apply (Hdiff n (List.length pre) b a); auto. now rewrite Hlen. }
    cbn in Hpre. inversion Hpre; subst. exact D.
Qed.

Lemma X3_id_to_index_round_trip_witness :
  exists record_id_to_index,
    _build_id_to_index_map demo_lfiltered (LName "id") = Ok record_id_to_index /\
    record_id_to_index = [(CStr "a1", 0%nat); (CStr "a2", 1%nat)] /\
    forall i a, nth_error [CStr "a1"; CStr "a2"] i = Some a ->
                dict_get cell_eqb record_id_to_index a = Some i.
Proof.
  apply (X3_id_to_index_round_trip demo_lfiltered (LName "id")
           [CStr "a1"; CStr "a2"]).
  - reflexivity.
  - intros a [<-|[<-|[]]]; discriminate.
  - intros [|[|i]] [|[|[|j]]] a b Hij Ha Hb; cbn in Ha, Hb;
      try lia; try discriminate.
    inversion Ha; inversion Hb; subst. reflexivity.
Defined.

(** ** Tokens of a column *)











(** ** Tokens of a table *)

Lemma add_token_fields (num_fields j : nat)
  (st : list (string * nat) * dict string nat) (token : string) :
  (j < num_fields)%nat ->
  Forall (fun p => fst p <> "" /\ (snd p < num_fields)%nat) (fst st) ->
  Forall (fun p => fst p <> "" /\ (snd p < num_fields)%nat)
         (fst (add_token j st token)).
Proof.
  intros Hj. destruct st as [token_list index_map]. unfold add_token.
  cbn [fst]. intros H.
  destruct (String.eqb_spec token "") as [E|E]; cbn [negb fst]; [exact H|].
  destruct (dict_get String.eqb index_map token); cbn [fst];
    apply Forall_app; (split; [exact H|]);
    (apply Forall_cons; [|apply Forall_nil]); cbn [fst snd]; split; auto.
  destruct token; [congruence | discriminate].
Qed.

Lemma fold_add_token_fields (num_fields j : nat) (tokens : list string)
  (st : list (string * nat) * dict string nat) :
  (j < num_fields)%nat ->
  Forall (fun p => fst p <> "" /\ (snd p < num_fields)%nat) (fst st) ->
  Forall (fun p => fst p <> "" /\ (snd p < num_fields)%nat)
         (fst (fold_left (add_token j) tokens st)).
Proof.
  intros Hj. revert st. induction tokens as [|t tokens IH]; intros st H;
    [exact H|].
  cbn. apply IH. now apply add_token_fields.
Qed.

Lemma mapM_py_index_out {A : Type} (l : list A) (positions : list nat) :
  (exists i, In i positions /\ (List.length l <= i)%nat) ->
  mapM (py_index l) positions = Err IndexError.
Proof.
  induction positions as [|p ps IH]; intros (i & Hin & Hi); [destruct Hin|].
  cbn [mapM]. unfold py_index at 1.
  destruct (nth_error l p) as [x|] eqn:E; [|reflexivity]. cbn [rbind].
  destruct Hin as [->|Hin].
  - apply nth_error_None in Hi. congruence.
  - rewrite IH; [reflexivity|]. now exists i.
Qed.

Lemma getitem_len_unique (t : DataFrame) (c : label) (n : nat) :
  List.length (labelled t c) = 1%nat -> getitem_len t c = Ok n ->
  exists values, getitem t c = Ok values /\ List.length values = n.
Proof.
  unfold getitem_len, getitem.
  destruct (labelled t c) as [|col [|col' cols]]; cbn [List.length];
    intros Hl E; try discriminate.
  inversion E. eauto.
Qed.

Lemma _get_tokenized_table_records (table : DataFrame) (table_key : label)
  (feature_list : list nat) (record_list : list (list (string * nat))) :
  _get_tokenized_table table table_key feature_list = Ok record_list ->
  exists num_records,
    getitem_len table table_key = Ok num_records /\
    List.length record_list = num_records /\
    Forall (Forall (fun p => fst p <> "" /\
                             (snd p < List.length feature_list)%nat))
           record_list.
Proof.
  unfold _get_tokenized_table. intros E.
  destruct (mapM (py_index (columns table)) feature_list) as [cols|e] eqn:Ec;
    [|discriminate].
  cbn [rbind] in E. apply mapM_length in Ec.
  destruct (mapM _ cols) as [tmp_table|e]; [|discriminate].
  cbn [rbind] in E.
  destruct (getitem_len table table_key) as [num_records|e]; [|discriminate].
  cbn [rbind] in E. exists num_records. split; [reflexivity|]. split.
  - apply mapM_length in E. unfold range in E. now rewrite length_seq in E.
  - eapply mapM_Forall; [|exact E]. intros i record _ Er. cbn beta in Er.
    match type of Er with
    | rbind ?loop _ = _ => destruct loop as [st|e] eqn:El; [|discriminate]
    end.
    cbn in Er. inversion Er; subst.
    eapply (foldM_invariant
              (fun st => Forall (fun p => fst p <> "" /\
                                          (snd p < List.length feature_list)%nat)
                                (fst st))); [| |exact El].
    + intros a j a' Hj Ha Estep. cbn beta in Estep.
      destruct (py_index tmp_table j) as [ctl|e];
        cbn [rbind] in Estep; [|discriminate Estep].
      destruct (py_index ctl i) as [tokens|e];
        cbn [rbind] in Estep; [|discriminate Estep].
      inversion Estep; subst. apply fold_add_token_fields; [|exact Ha].
      unfold range in Hj. apply in_seq in Hj. lia.
    + constructor.
Qed.

(** X5.  The records [_get_tokenized_table] returns are as many as
    [len(table[table_key])], the number of rows; for a key label that one
    column carries that is the number of values of the key column.  No
    emitted token is the empty string and every field index is smaller
    than the number of selected features.  A selected feature that is no
    column position makes the function raise [IndexError]. *)
Theorem X5_tokenized_table (table : DataFrame) (table_key : label)
  (feature_list : list nat) :
  (forall record_list,
      _get_tokenized_table table table_key feature_list = Ok record_list ->
      (exists num_records,
          getitem_len table table_key = Ok num_records /\
          List.length record_list = num_records) /\
      (List.length (labelled table table_key) = 1%nat ->
       exists key_column,
         getitem table table_key = Ok key_column /\
         List.length record_list = List.length key_column) /\
      Forall (Forall (fun p => fst p <> "" /\
                               (snd p < List.length feature_list)%nat))
             record_list) /\
  ((exists f, In f feature_list /\ (List.length (columns table) <= f)%nat) ->
   _get_tokenized_table table table_key feature_list = Err IndexError).
Proof.
  split.
  - intros record_list E.
    destruct (_get_tokenized_table_records table table_key feature_list
                record_list E) as (n & En & Hn & Hf).
    split; [now exists n|]. split; [|exact Hf].
    intros Hu. destruct (getitem_len_unique table table_key n Hu En)
      as (values & Ev & Hv).
    exists values. split; [exact Ev | congruence].
  - intros H. unfold _get_tokenized_table.
    now rewrite (mapM_py_index_out (columns table) feature_list H).
Qed.

Lemma X5_tokenized_table_witness :
  ((exists num_records,
       getitem_len demo_collision (LName "id") = Ok num_records /\
       List.length [[("a", 0%nat); ("a_1", 0%nat); ("a_1", 0%nat)]]
       = num_records) /\
   (List.length (labelled demo_collision (LName "id")) = 1%nat ->
    exists key_column,
      getitem demo_collision (LName "id") = Ok key_column /\
      List.length [[("a", 0%nat); ("a_1", 0%nat); ("a_1", 0%nat)]]
      = List.length key_column) /\
   Forall (Forall (fun p => fst p <> "" /\ (snd p < 1)%nat))
          [[("a", 0%nat); ("a_1", 0%nat); ("a_1", 0%nat)]]) /\
  _get_tokenized_table demo_collision (LName "id") [2%nat] = Err IndexError.
Proof.
  split.
  - apply (proj1 (X5_tokenized_table demo_collision (LName "id") [1%nat])).
    reflexivity.
  - apply (proj2 (X5_tokenized_table demo_collision (LName "id") [2%nat])).
    exists 2%nat. split; [now left | cbn; lia].
Defined.

(** ** Ranks of the tokens of the records *)

(** The rank dictionaries number a vocabulary that holds the tokens of the
    two record lists once each. *)
Lemma _build_global_token_order_ranks
  (lrecord_list rrecord_list : list (list (string * nat))) :
  exists order_dict token_index_dict vocabulary,
    _build_global_token_order lrecord_list rrecord_list
    = Ok (order_dict, token_index_dict) /\
    NoDup vocabulary /\
    (forall t, In t vocabulary
               <-> In t (map fst (List.concat lrecord_list
                                  ++ List.concat rrecord_list))) /\
    (forall t i, dict_get String.eqb order_dict t = Some i
                 <-> nth_error vocabulary i = Some t) /\
    (forall i t, dict_get Nat.eqb token_index_dict i = Some t
                 <-> nth_error vocabulary i = Some t).
Proof.
  unfold _build_global_token_order.
  rewrite !impl_concat, <- fold_left_app, copy_loop. cbn [app].
  set (all := List.concat lrecord_list ++ List.concat rrecord_list).
  set (fd := fold_left count_token all []).
  destruct (count_tokens_spec all []) as (_ & Hnd & Hin).
  fold fd in Hnd, Hin. cbv zeta in Hnd, Hin.
  assert (HndK : NoDup (dict_keys fd)) by (apply Hnd; constructor).
  assert (HinK : forall t, In t (dict_keys fd) <-> In t (map fst all)).
  { intros t. rewrite Hin. cbn. tauto. }
  rewrite (mapM_Ok_map _ (fun x => ((dict_count fd x, x), x))).
  2:{ intros x Hx. unfold dict_item, dict_count.
      apply (dict_get_In String.eqb String.eqb_eq) in Hx.
      destruct (dict_get String.eqb fd x); [reflexivity | congruence]. }
  cbn [rbind].
  set (keyed := map (fun x => ((dict_count fd x, x), x)) (dict_keys fd)).
  set (vocabulary :=
         map snd (py_sorted (fun a b => key_leb (fst a) (fst b)) keyed)).
  assert (Hperm : Permutation vocabulary (dict_keys fd)).
  { unfold vocabulary.
    eapply Permutation_trans; [apply Permutation_map, py_sorted_perm|].
    unfold keyed. rewrite map_map. cbn [snd]. now rewrite map_id. }
  assert (HndV : NoDup vocabulary).
  { eapply Permutation_NoDup; [apply Permutation_sym, Hperm | exact HndK]. }
  erewrite foldM_ext.
  2:{ intros acc i.
      instantiate (1 := fun acc i =>
                          rbind (py_index vocabulary i) (fun token =>
                          Ok (dict_set String.eqb (fst acc) token i,
                              dict_set Nat.eqb (snd acc) i token))).
      now destruct acc. }
  rewrite (foldM_range_index
             (fun acc i token => Ok (dict_set String.eqb (fst acc) token i,
                                     dict_set Nat.eqb (snd acc) i token))).
  rewrite (foldM_pure
             (fun acc ix => (dict_set String.eqb (fst acc) (snd ix) (fst ix),
                             dict_set Nat.eqb (snd acc) (fst ix) (snd ix)))).
  destruct (rank_dicts_spec vocabulary HndV) as [Hod Htid].
  cbv zeta in Hod, Htid.
  match type of Hod with
  | forall t i, dict_get String.eqb (fst ?D) t = Some i <-> _ =>
      remember D as dicts eqn:Ed
  end.
  clear Ed. destruct dicts as [od tid]. cbn [fst snd] in Hod, Htid.
  exists od, tid, vocabulary.
  split; [reflexivity|]. split; [exact HndV|]. split; [|split; assumption].
  intros t. rewrite <- HinK. split; intros H.
  - eapply Permutation_in; [exact Hperm | exact H].
  - eapply Permutation_in; [apply Permutation_sym, Hperm | exact H].
Qed.

Lemma replace_record_ranked (order_dict : dict string nat)
  (record : list (string * nat)) :
  Forall (fun tup => dict_get String.eqb order_dict (fst tup) <> None) record ->
  Forall2 (fun tup p => dict_get String.eqb order_dict (fst tup) = Some (fst p)
                        /\ snd p = snd tup)
          record (flat_map (rank_of order_dict) record).
Proof.
  induction 1 as [|tup record Ht _ IH]; cbn; [constructor|].
  unfold rank_of at 1.
  destruct (dict_get String.eqb order_dict (fst tup)) as [r|] eqn:G;
    [|congruence].
  cbn. constructor; [split; [exact G | reflexivity] | exact IH].
Qed.

(** X6.  With the rank dictionary built from the two record lists,
    [_replace_token_with_numeric_index] drops no token of these lists:
    every record comes back with a pair for each of its pairs, in order,
    holding the rank of the token and the unchanged field index. *)
Theorem X6_replace_keeps_every_token
  (lrecord_list rrecord_list record_list : list (list (string * nat)))
  (order_dict : dict string nat) (token_index_dict : dict nat string) :
  _build_global_token_order lrecord_list rrecord_list
  = Ok (order_dict, token_index_dict) ->
  incl record_list (lrecord_list ++ rrecord_list) ->
  Forall2 (Forall2 (fun tup p =>
                      dict_get String.eqb order_dict (fst tup) = Some (fst p)
                      /\ snd p = snd tup))
          record_list
          (_replace_token_with_numeric_index record_list order_dict).
Proof.
  intros Hb Hincl.
  destruct (_build_global_token_order_ranks lrecord_list rrecord_list)
    as (od & tid & V & E & _ & Hin & Hod & _).
  rewrite E in Hb. inversion Hb; subst od tid.
  unfold _replace_token_with_numeric_index.
  induction record_list as [|record rs IH]; cbn [map]; constructor.
  - rewrite replace_record. cbn [app]. apply replace_record_ranked.
    apply Forall_forall. intros tup Htup.
    assert (Ht : In (fst tup)
                   (map fst (List.concat lrecord_list
                             ++ List.concat rrecord_list))).
    { apply in_map. rewrite <- concat_app. apply in_concat.
      exists record. split; [apply Hincl; now left | exact Htup]. }
    apply Hin in Ht. apply In_nth_error in Ht. destruct Ht as (i & Hi).
    apply Hod in Hi. congruence.
  - apply IH. intros x Hx. apply Hincl. now right.
Qed.

Lemma X6_replace_keeps_every_token_witness :
  Forall2 (Forall2 (fun tup p =>
                      dict_get String.eqb [("b", 0%nat); ("a", 1%nat)] (fst tup)
                      = Some (fst p) /\ snd p = snd tup))
          [[("b", 0%nat); ("a", 0%nat)]]
          (_replace_token_with_numeric_index [[("b", 0%nat); ("a", 0%nat)]]
             [("b", 0%nat); ("a", 1%nat)]).
Proof.
  apply (X6_replace_keeps_every_token
           [[("b", 0%nat); ("a", 0%nat)]] [[("a", 1%nat)]]
           [[("b", 0%nat); ("a", 0%nat)]]
           [("b", 0%nat); ("a", 1%nat)] [(0%nat, "b"); (1%nat, "a")]).
  - reflexivity.
  - intros x [<-|[]]. now left.
Defined.

(** ** Sorted records *)

Lemma insert_by_stable (k : nat) (x : nat * nat) (l : list (nat * nat)) :
  filter (fun p => (fst p =? k)%nat)
         (insert_by (fun a b => (fst a <=? fst b)%nat) x l)
  = filter (fun p => (fst p =? k)%nat) (x :: l).
Proof.
  induction l as [|y l IH]; [reflexivity|].
  cbn [insert_by]. destruct (fst x <=? fst y)%nat eqn:L; [reflexivity|].
  apply Nat.leb_gt in L. cbn [filter] in *. rewrite IH.
  destruct (fst y =? k)%nat eqn:Ey; [|reflexivity].
  apply Nat.eqb_eq in Ey.
  assert (Ex : (fst x =? k)%nat = false) by (apply Nat.eqb_neq; lia).
  now rewrite Ex.
Qed.

Lemma py_sorted_stable (k : nat) (l : list (nat * nat)) :
  filter (fun p => (fst p =? k)%nat)
         (py_sorted (fun a b => (fst a <=? fst b)%nat) l)
  = filter (fun p => (fst p =? k)%nat) l.
Proof.
  induction l as [|x l IH]; [reflexivity|].
  cbn [py_sorted fold_right]. fold (py_sorted (fun a b : nat * nat =>
                                                 (fst a <=? fst b)%nat) l).
  rewrite insert_by_stable. cbn [filter]. now rewrite IH.
Qed.

(** X7.  [_sort_record_tokens_by_global_order] rearranges every record:
    the sorted record holds the same pairs, its token ranks never
    decrease, and the pairs of one rank keep the order they had. *)
Theorem X7_sorted_records (record_list : list (list (nat * nat))) :
  Forall2 (fun record sorted =>
             Permutation sorted record /\
             StronglySorted (fun a b => (fst a <= fst b)%nat) sorted /\
             forall k, filter (fun p => (fst p =? k)%nat) sorted
                       = filter (fun p => (fst p =? k)%nat) record)
          record_list (_sort_record_tokens_by_global_order record_list).
Proof.
  unfold _sort_record_tokens_by_global_order.
  induction record_list as [|record rs IH]; cbn [map]; constructor; [|exact IH].
  split; [apply py_sorted_perm|]. split; [|intros k; apply py_sorted_stable].
  assert (Hs : StronglySorted (fun a b => (fst a <=? fst b)%nat = true)
                 (py_sorted (fun a b : nat * nat => (fst a <=? fst b)%nat)
                    record)).
  { apply (py_sorted_sorted (fun a b : nat * nat => (fst a <=? fst b)%nat)).
    - intros x y. rewrite !Nat.leb_le. lia.
    - intros x y z. rewrite !Nat.leb_le. lia. }
  induction Hs as [|a l Hs IHs Ha]; constructor; [exact IHs|].
  eapply Forall_impl; [|exact Ha]. intros b Hb. now apply Nat.leb_le.
Qed.

(** ** Token and field arrays *)

Lemma split_arrays (record_list : list (list (nat * nat)))
  (acc : list (list nat) * list (list nat)) :
  Forall (Forall (fun p => fits_u32 (fst p) = true /\ fits_u32 (snd p) = true))
         record_list ->
  foldM (fun '(record_token_list, record_index_list) record =>
           let token_list := map fst record in
           let index_list := map snd record in
           rbind (array_I token_list) (fun tokens =>
           rbind (array_I index_list) (fun fields =>
           Ok (record_token_list ++ [tokens], record_index_list ++ [fields]))))
        record_list acc
  = Ok (fst acc ++ map (map fst) record_list,
        snd acc ++ map (map snd) record_list).
Proof.
  intros H. revert acc.
  induction H as [|record rs Hr _ IH]; intros [ts fs]; cbn [foldM map fst snd].
  - now rewrite !app_nil_r.
  - unfold array_I at 1 2.
    assert (E1 : forallb fits_u32 (map fst record) = true).
    { apply forallb_forall. intros x Hx. apply in_map_iff in Hx.
      destruct Hx as (p & <- & Hp). rewrite Forall_forall in Hr.
      now apply Hr. }
    assert (E2 : forallb fits_u32 (map snd record) = true).
    { apply forallb_forall. intros x Hx. apply in_map_iff in Hx.
      destruct Hx as (p & <- & Hp). rewrite Forall_forall in Hr.
      now apply Hr. }
    rewrite E1, E2. cbn [rbind]. rewrite IH. cbn [fst snd].
    now rewrite <- !app_assoc.
Qed.

Lemma split_overflow (record_list : list (list (nat * nat)))
  (acc : list (list nat) * list (list nat)) :
  ~ Forall (Forall (fun p => fits_u32 (fst p) = true
                             /\ fits_u32 (snd p) = true)) record_list ->
  foldM (fun '(record_token_list, record_index_list) record =>
           let token_list := map fst record in
           let index_list := map snd record in
           rbind (array_I token_list) (fun tokens =>
           rbind (array_I index_list) (fun fields =>
           Ok (record_token_list ++ [tokens], record_index_list ++ [fields]))))
        record_list acc
  = Err OverflowError.
Proof.
  revert acc. induction record_list as [|record rs IH]; intros [ts fs] H.
  - exfalso. apply H. constructor.
  - cbn [foldM]. unfold array_I at 1 2.
    destruct (forallb fits_u32 (map fst record)) eqn:E1; [|reflexivity].
    destruct (forallb fits_u32 (map snd record)) eqn:E2; [|reflexivity].
    cbn [rbind]. apply IH. intros Hrs. apply H. constructor; [|exact Hrs].
    rewrite forallb_forall in E1, E2. apply Forall_forall. intros p Hp.
    split; [apply E1 | apply E2]; now apply in_map.
Qed.

Lemma combine_fst_snd {A B : Type} (l : list (A * B)) :
  combine (map fst l) (map snd l) = l.
Proof. induction l as [|[a b] l IH]; cbn; [reflexivity | now rewrite IH]. Qed.

(** X8.  [_split_record_token_and_index] is undone by pairing: when every
    rank and field index fits an unsigned 32-bit item, it returns one
    token array and one field array per record, and pairing the two
    arrays of a record item by item gives the record back.  When some
    value does not fit, the result is an [OverflowError]. *)
Theorem X8_split_round_trip (record_list : list (list (nat * nat))) :
  (Forall (Forall (fun p => fits_u32 (fst p) = true
                            /\ fits_u32 (snd p) = true)) record_list ->
   exists record_token_list record_index_list,
     _split_record_token_and_index record_list
     = Ok (record_token_list, record_index_list) /\
     List.length record_token_list = List.length record_list /\
     List.length record_index_list = List.length record_list /\
     map (fun arrays => combine (fst arrays) (snd arrays))
         (combine record_token_list record_index_list)
     = record_list) /\
  (~ Forall (Forall (fun p => fits_u32 (fst p) = true
                              /\ fits_u32 (snd p) = true)) record_list ->
   _split_record_token_and_index record_list = Err OverflowError).
Proof.
  split; intros H.
  - exists (map (map fst) record_list), (map (map snd) record_list).
    split; [|split; [apply length_map | split; [apply length_map|]]].
    + unfold _split_record_token_and_index. unfold rbind.
      exact (split_arrays record_list ([], []) H).
    + clear H. induction record_list as [|record rs IH]; cbn; [reflexivity|].
      now rewrite combine_fst_snd, IH.
  - unfold _split_record_token_and_index.
    exact (split_overflow record_list ([], []) H).
Qed.

Lemma X8_split_round_trip_witness :
  (exists record_token_list record_index_list,
     _split_record_token_and_index [[(0, 1); (2, 0)]; []]%nat
     = Ok (record_token_list, record_index_list) /\
     List.length record_token_list = 2%nat /\
     List.length record_index_list = 2%nat /\
     map (fun arrays => combine (fst arrays) (snd arrays))
         (combine record_token_list record_index_list)
     = [[(0, 1); (2, 0)]; []]%nat).
Proof.
  apply (proj1 (X8_split_round_trip [[(0, 1); (2, 0)]; []]%nat)).
  repeat constructor.
Defined.

(** ** Field lengths *)

Lemma update_at_length {A : Type} (i : nat) (v : A) (l : list A) :
  List.length (update_at i v l) = List.length l.
Proof.
  revert i. induction l as [|x l IH]; intros [|i]; cbn; auto.
Qed.

Lemma update_at_nth {A : Type} (i : nat) (v d : A) (l : list A) (j : nat) :
  (i < List.length l)%nat ->
  nth j (update_at i v l) d = if (j =? i)%nat then v else nth j l d.
Proof.
  revert i j. induction l as [|x l IH]; intros i j Hi; cbn in Hi; [lia|].
  destruct i as [|i], j as [|j]; cbn; try reflexivity.
  apply IH. lia.
Qed.

Lemma py_index_lt {A : Type} (l : list A) (i : nat) (d : A) :
  (i < List.length l)%nat -> py_index l i = Ok (nth i l d).
Proof. intros H. apply py_index_nth. now apply nth_error_nth'. Qed.

Lemma py_index_ge {A : Type} (l : list A) (i : nat) :
  (List.length l <= i)%nat -> py_index l i = Err IndexError.
Proof.
  intros H. unfold py_index.
  now rewrite (proj2 (nth_error_None l i) H).
Qed.

Lemma map_nth_range (l : list nat) :
  map (fun j => nth j l 0%nat) (range (List.length l)) = l.
Proof.
  unfold range. induction l as [|x l IH]; [reflexivity|].
  cbn [List.length seq map nth]. rewrite <- seq_shift, map_map.
  cbn [nth]. now rewrite IH.
Qed.

Lemma list_by_positions (l : list nat) (n : nat) (g : nat -> nat) :
  List.length l = n ->
  (forall j, (j < n)%nat -> nth j l 0%nat = g j) ->
  l = map g (range n).
Proof.
  intros <- H. rewrite <- (map_nth_range l) at 1.
  apply map_ext_in. intros j Hj. apply in_seq in Hj. apply H. lia.
Qed.

Lemma field_length_loop (num_field : nat) (record : list nat) :
  forall field_array : list nat,
  (forall f, (N.of_nat (nth f field_array 0%nat + List.length record)%nat
              <= U32_MAX)%N) ->
  List.length field_array = num_field ->
  Forall (fun idx => (idx < num_field)%nat) record ->
  exists out,
    foldM (fun field_array idx =>
             if (num_field <=? idx)%nat then Err AssertionError
             else
               rbind (py_index field_array idx) (fun v =>
               if fits_u32 (S v)
               then Ok (update_at idx (S v) field_array)
               else Err OverflowError))
          record field_array = Ok out /\
    List.length out = num_field /\
    forall f, nth f out 0%nat
              = (nth f field_array 0 + count_occ Nat.eq_dec record f)%nat.
Proof.
  induction record as [|idx record IH]; intros arr Hb Hl Hr.
  - exists arr. cbn. split; [reflexivity|]. split; [exact Hl|].
    intros f. lia.
  - inversion Hr as [|? ? Hidx Hr']; subst.
    cbn [foldM]. rewrite (proj2 (Nat.leb_gt _ _) Hidx).
    rewrite (py_index_lt arr idx 0%nat Hidx). cbn [rbind].
    assert (Hfit : fits_u32 (S (nth idx arr 0%nat)) = true).
    { unfold fits_u32. apply N.leb_le. specialize (Hb idx).
      cbn [List.length] in Hb. unfold U32_MAX in *. lia. }
    rewrite Hfit.
    destruct (IH (update_at idx (S (nth idx arr 0%nat)) arr))
      as (out & E & Hlen & Hout).
    + intros f. rewrite update_at_nth by exact Hidx.
      specialize (Hb f). cbn [List.length] in Hb. unfold U32_MAX in *.
      destruct (f =? idx)%nat eqn:Ef; [apply Nat.eqb_eq in Ef; subst f|]; lia.
    + apply update_at_length.
    + exact Hr'.
    + exists out. split; [exact E|]. split; [exact Hlen|].
      intros f. rewrite Hout, update_at_nth by exact Hidx.
      cbn [count_occ].
      destruct (Nat.eq_dec idx f) as [->|Hne].
      * rewrite Nat.eqb_refl. lia.
      * destruct (f =? idx)%nat eqn:Ef; [apply Nat.eqb_eq in Ef; congruence|].
        reflexivity.
Qed.

Lemma field_length_loop_out_of_range (num_field : nat) (record : list nat) :
  forall field_array : list nat,
  (forall f, (N.of_nat (nth f field_array 0%nat + List.length record)%nat
              <= U32_MAX)%N) ->
  List.length field_array = num_field ->
  ~ Forall (fun idx => (idx < num_field)%nat) record ->
  foldM (fun field_array idx =>
           if (num_field <=? idx)%nat then Err AssertionError
           else
             rbind (py_index field_array idx) (fun v =>
             if fits_u32 (S v)
             then Ok (update_at idx (S v) field_array)
             else Err OverflowError))
        record field_array = Err AssertionError.
Proof.
  induction record as [|idx record IH]; intros arr Hb Hl Hr.
  - exfalso. apply Hr. constructor.
  - cbn [foldM]. destruct (num_field <=? idx)%nat eqn:L; [reflexivity|].
    apply Nat.leb_gt in L. rewrite <- Hl in L.
    rewrite (py_index_lt arr idx 0%nat L). cbn [rbind].
    assert (Hfit : fits_u32 (S (nth idx arr 0%nat)) = true).
    { unfold fits_u32. apply N.leb_le. specialize (Hb idx).
      cbn [List.length] in Hb. unfold U32_MAX in *. lia. }
    rewrite Hfit. apply IH.
    + intros f. rewrite update_at_nth by exact L.
      specialize (Hb f). cbn [List.length] in Hb. unfold U32_MAX in *.
      destruct (f =? idx)%nat eqn:Ef; [apply Nat.eqb_eq in Ef; subst f|]; lia.
    + now rewrite update_at_length.
    + intros H. apply Hr. constructor; [lia | exact H].
Qed.

Lemma zero_array (num_field : nat) :
  array_I (repeat 0%nat num_field) = Ok (repeat 0%nat num_field).
Proof.
  unfold array_I.
  replace (forallb fits_u32 (repeat 0%nat num_field)) with true; [reflexivity|].
  symmetry. apply forallb_forall. intros x Hx.
  apply repeat_spec in Hx. now subst x.
Qed.

Lemma zero_array_nth (num_field f : nat) : nth f (repeat 0%nat num_field) 0%nat = 0%nat.
Proof.
  revert f. induction num_field as [|n IH]; intros [|f]; cbn; auto.
Qed.

Lemma _calc_table_field_length_counts (record_index_list : list (list nat))
  (num_field : nat) :
  Forall (fun record => fits_u32 (List.length record) = true)
         record_index_list ->
  Forall (Forall (fun idx => (idx < num_field)%nat)) record_index_list ->
  _calc_table_field_length record_index_list num_field
  = Ok (map (fun record =>
               map (count_occ Nat.eq_dec record) (range num_field))
            record_index_list).
Proof.
  intros Hfit. unfold _calc_table_field_length.
  rewrite zero_array. cbn [rbind].
  induction Hfit as [|record rs Hrec _ IH]; intros Hall; [reflexivity|].
  inversion Hall as [|? ? Hr Hrs]; subst.
  cbn [mapM map].
  destruct (field_length_loop num_field record (repeat 0%nat num_field))
    as (out & E & Hlen & Hout).
  { intros f. rewrite zero_array_nth. unfold fits_u32 in Hrec.
    apply N.leb_le in Hrec. exact Hrec. }
  { apply repeat_length. }
  { exact Hr. }
  rewrite E. cbn [rbind]. rewrite (IH Hrs). cbn [rbind].
  f_equal. f_equal. apply list_by_positions; [exact Hlen|].
  intros j _. rewrite Hout, zero_array_nth. reflexivity.
Qed.

Lemma _calc_table_field_length_out_of_range
  (record_index_list : list (list nat)) (num_field : nat) :
  Forall (fun record => fits_u32 (List.length record) = true)
         record_index_list ->
  ~ Forall (Forall (fun idx => (idx < num_field)%nat)) record_index_list ->
  _calc_table_field_length record_index_list num_field = Err AssertionError.
Proof.
  intros Hfit. unfold _calc_table_field_length.
  rewrite zero_array. cbn [rbind].
  induction Hfit as [|record rs Hrec _ IH]; intros Hall.
  - exfalso. apply Hall. constructor.
  - assert (Hb : forall f,
               (N.of_nat (nth f (repeat 0%nat num_field) 0%nat
                          + List.length record)%nat <= U32_MAX)%N).
    { intros f. rewrite zero_array_nth. unfold fits_u32 in Hrec.
      apply N.leb_le in Hrec. exact Hrec. }
    cbn [mapM].
    destruct (Forall_dec (fun idx => (idx < num_field)%nat)
                (fun idx => lt_dec idx num_field) record) as [Hr|Hr].
    + destruct (field_length_loop num_field record (repeat 0%nat num_field)
                  Hb (repeat_length _ _) Hr)
        as (out & E & _).
      rewrite E. cbn [rbind]. rewrite IH; [reflexivity|].
      intros Hrs. apply Hall. now constructor.
    + rewrite (field_length_loop_out_of_range num_field record
                 (repeat 0%nat num_field) Hb (repeat_length _ _) Hr).
      reflexivity.
Qed.

(** X9.  [_calc_table_field_length] counts, for every record, how many of
    its tokens come from each field.  For records of fewer than 2^32
    tokens: when every field index is below [num_field] the result holds,
    for each record, the [num_field] numbers of occurrences of the indices
    [0 .. num_field - 1]; when some index is not below [num_field] the
    result is an [AssertionError]. *)
Theorem X9_field_lengths (record_index_list : list (list nat))
  (num_field : nat) :
  Forall (fun record => fits_u32 (List.length record) = true)
         record_index_list ->
  (Forall (Forall (fun idx => (idx < num_field)%nat)) record_index_list ->
   _calc_table_field_length record_index_list num_field
   = Ok (map (fun record =>
                map (count_occ Nat.eq_dec record) (range num_field))
             record_index_list)) /\
  (~ Forall (Forall (fun idx => (idx < num_field)%nat)) record_index_list ->
   _calc_table_field_length record_index_list num_field
   = Err AssertionError).
Proof.
  intros Hfit. split.
  - now apply _calc_table_field_length_counts.
  - now apply _calc_table_field_length_out_of_range.
Qed.

Lemma X9_field_lengths_witness :
  _calc_table_field_length [[0; 1; 1]; []; [2]]%nat 3
  = Ok [[1; 2; 0]; [0; 0; 0]; [0; 0; 1]]%nat.
Proof.
  apply (proj1 (X9_field_lengths [[0; 1; 1]; []; [2]]%nat 3
                  ltac:(repeat constructor))).
  repeat constructor.
Defined.

(** ** Token sums *)

Lemma token_sum_row (field_array : list nat) (k : nat) :
  forall acc : list nat,
  (k <= List.length field_array)%nat -> (k <= List.length acc)%nat ->
  exists out,
    foldM (fun acc j =>
             rbind (py_index acc j) (fun s =>
             rbind (py_index field_array j) (fun v =>
             Ok (update_at j (s + v)%nat acc))))
          (seq 0 k) acc = Ok out /\
    List.length out = List.length acc /\
    forall j, nth j out 0%nat
              = if (j <? k)%nat
                then (nth j acc 0 + nth j field_array 0)%nat
                else nth j acc 0%nat.
Proof.
  induction k as [|k IH]; intros acc Hf Ha.
  - exists acc. cbn. auto.
  - destruct (IH acc ltac:(lia) ltac:(lia)) as (mid & E & Hlen & Hmid).
    rewrite seq_S, foldM_app, E. cbn [rbind Nat.add foldM].
    rewrite (py_index_lt mid k 0%nat) by lia.
    rewrite (py_index_lt field_array k 0%nat) by lia. cbn [rbind].
    eexists. split; [reflexivity|].
    split; [now rewrite update_at_length|].
    intros j. rewrite update_at_nth by lia. rewrite !Hmid.
    rewrite Nat.ltb_irrefl.
    destruct (j =? k)%nat eqn:Ej.
    + apply Nat.eqb_eq in Ej. subst j.
      now rewrite (proj2 (Nat.ltb_lt k (S k))) by lia.
    + apply Nat.eqb_neq in Ej.
      destruct (j <? k)%nat eqn:L.
      * apply Nat.ltb_lt in L. now rewrite (proj2 (Nat.ltb_lt j (S k))) by lia.
      * apply Nat.ltb_ge in L. now rewrite (proj2 (Nat.ltb_ge j (S k))) by lia.
Qed.

Lemma token_sum_row_too_long (field_array acc : list nat) :
  (List.length acc < List.length field_array)%nat ->
  foldM (fun acc j =>
           rbind (py_index acc j) (fun s =>
           rbind (py_index field_array j) (fun v =>
           Ok (update_at j (s + v)%nat acc))))
        (range (List.length field_array)) acc = Err IndexError.
Proof.
  intros H. unfold range.
  replace (List.length field_array)
    with (List.length acc + S (List.length field_array - S (List.length acc)))%nat
    at 1 by lia.
  rewrite seq_app, foldM_app.
  destruct (token_sum_row field_array (List.length acc) acc ltac:(lia)
              ltac:(lia)) as (mid & E & Hlen & _).
  rewrite E. cbn [rbind Nat.add seq foldM].
  rewrite (py_index_ge mid (List.length acc)) by lia. reflexivity.
Qed.

Lemma token_sum_rows (table_field_length_list : list (list nat)) :
  forall table_field_token_sum : list nat,
  Forall (fun field_array =>
            (List.length field_array <= List.length table_field_token_sum)%nat)
         table_field_length_list ->
  exists out,
    foldM (fun table_field_token_sum field_array =>
             foldM (fun acc j =>
                      rbind (py_index acc j) (fun s =>
                      rbind (py_index field_array j) (fun v =>
                      Ok (update_at j (s + v)%nat acc))))
                   (range (List.length field_array)) table_field_token_sum)
          table_field_length_list table_field_token_sum = Ok out /\
    List.length out = List.length table_field_token_sum /\
    forall j, nth j out 0%nat
              = (nth j table_field_token_sum 0
                 + list_sum (map (fun field_array => nth j field_array 0)
                               table_field_length_list))%nat.
Proof.
  induction table_field_length_list as [|row rows IH]; intros acc H.
  - exists acc. cbn. split; [reflexivity|]. split; [reflexivity|].
    intros j. lia.
  - inversion H as [|? ? Hrow Hrows]; subst.
    destruct (token_sum_row row (List.length row) acc (Nat.le_refl _) Hrow)
      as (mid & E & Hlen & Hmid).
    cbn [foldM]. unfold range at 1. rewrite E. cbn [rbind].
    destruct (IH mid) as (out & E' & Hlen' & Hout).
    { rewrite Hlen. exact Hrows. }
    exists out. split; [exact E'|]. split; [lia|].
    intros j. rewrite Hout, Hmid. unfold list_sum. cbn [map fold_right].
    destruct (j <? List.length row)%nat eqn:L; [lia|].
    apply Nat.ltb_ge in L. rewrite (nth_overflow row 0%nat L). lia.
Qed.

Lemma token_sum_rows_too_long (table_field_length_list : list (list nat)) :
  forall table_field_token_sum : list nat,
  ~ Forall (fun field_array =>
              (List.length field_array <= List.length table_field_token_sum)%nat)
           table_field_length_list ->
  foldM (fun table_field_token_sum field_array =>
           foldM (fun acc j =>
                    rbind (py_index acc j) (fun s =>
                    rbind (py_index field_array j) (fun v =>
                    Ok (update_at j (s + v)%nat acc))))
                 (range (List.length field_array)) table_field_token_sum)
        table_field_length_list table_field_token_sum = Err IndexError.
Proof.
  induction table_field_length_list as [|row rows IH]; intros acc H.
  - exfalso. apply H. constructor.
  - cbn [foldM].
    destruct (le_lt_dec (List.length row) (List.length acc)) as [Hrow|Hrow].
    + destruct (token_sum_row row (List.length row) acc (Nat.le_refl _) Hrow)
        as (mid & E & Hlen & _).
      unfold range at 1. rewrite E. cbn [rbind]. apply IH.
      rewrite Hlen. intros Hrows. apply H. now constructor.
    + now rewrite token_sum_row_too_long.
Qed.

Lemma _calc_table_field_token_sum_sums
  (table_field_length_list : list (list nat)) (num_field : nat) :
  Forall (fun field_array => (List.length field_array <= num_field)%nat)
         table_field_length_list ->
  _calc_table_field_token_sum table_field_length_list num_field
  = Ok (map (fun j => list_sum (map (fun field_array => nth j field_array 0%nat)
                                  table_field_length_list))
            (range num_field)).
Proof.
  unfold _calc_table_field_token_sum. intros H.
  destruct (token_sum_rows table_field_length_list (repeat 0%nat num_field))
    as (out & E & Hlen & Hout).
  { now rewrite repeat_length. }
  rewrite E. f_equal. apply list_by_positions.
  - now rewrite Hlen, repeat_length.
  - intros j _. now rewrite Hout, zero_array_nth.
Qed.

(** X10.  [_calc_table_field_token_sum] adds the field lengths of the
    records field by field.  When no array is longer than [num_field] the
    result has [num_field] items, the item of field [j] being the sum of
    the items [j] of the arrays (an array that has no item [j] adds
    nothing); when some array is longer than [num_field] the result is an
    [IndexError]. *)
Theorem X10_field_token_sums (table_field_length_list : list (list nat))
  (num_field : nat) :
  (Forall (fun field_array => (List.length field_array <= num_field)%nat)
          table_field_length_list ->
   _calc_table_field_token_sum table_field_length_list num_field
   = Ok (map (fun j => list_sum (map (fun field_array => nth j field_array 0%nat)
                                   table_field_length_list))
             (range num_field))) /\
  (~ Forall (fun field_array => (List.length field_array <= num_field)%nat)
            table_field_length_list ->
   _calc_table_field_token_sum table_field_length_list num_field
   = Err IndexError).
Proof.
  split; intros H.
  - now apply _calc_table_field_token_sum_sums.
  - unfold _calc_table_field_token_sum.
    apply token_sum_rows_too_long. now rewrite repeat_length.
Qed.

Lemma X10_field_token_sums_witness :
  _calc_table_field_token_sum [[1; 2; 0]; [0; 0]; [4; 0; 1]]%nat 3
  = Ok [5; 2; 1]%nat.
Proof.
  apply (proj1 (X10_field_token_sums [[1; 2; 0]; [0; 0]; [4; 0; 1]]%nat 3)).
  repeat constructor.
Defined.

(** ** Field lengths of tokenized records *)

Lemma flat_map_rank_of_fields (order_dict : dict string nat) (n : nat)
  (record : list (string * nat)) :
  Forall (fun p => (snd p < n)%nat) record ->
  Forall (fun p => (snd p < n)%nat) (flat_map (rank_of order_dict) record).
Proof.
  induction 1 as [|tup record Ht _ IH]; cbn [flat_map]; [constructor|].
  apply Forall_app. split; [|exact IH].
  unfold rank_of. destruct (dict_get String.eqb order_dict (fst tup));
    [apply Forall_cons; [exact Ht | apply Forall_nil] | apply Forall_nil].
Qed.

Lemma split_both (record_list : list (list (nat * nat)))
  (acc out : list (list nat) * list (list nat)) :
  foldM (fun '(record_token_list, record_index_list) record =>
           let token_list := map fst record in
           let index_list := map snd record in
           rbind (array_I token_list) (fun tokens =>
           rbind (array_I index_list) (fun fields =>
           Ok (record_token_list ++ [tokens], record_index_list ++ [fields]))))
        record_list acc = Ok out ->
  out = (fst acc ++ map (map fst) record_list,
         snd acc ++ map (map snd) record_list).
Proof.
  revert acc. induction record_list as [|record rs IH]; intros [ts fs] E;
    cbn [foldM] in E.
  - inversion E. cbn. now rewrite !app_nil_r.
  - unfold array_I in E at 1 2.
    destruct (forallb fits_u32 (map fst record)); cbn [rbind] in E;
      [|discriminate E].
    destruct (forallb fits_u32 (map snd record)); cbn [rbind] in E;
      [|discriminate E].
    apply IH in E. rewrite E. cbn [fst snd map]. now rewrite <- !app_assoc.
Qed.

Lemma list_sum_map_add {A : Type} (f g : A -> nat) (l : list A) :
  list_sum (map (fun x => (f x + g x)%nat) l)
  = (list_sum (map f l) + list_sum (map g l))%nat.
Proof.
  induction l as [|x l IH]; [reflexivity|].
  cbn [map list_sum fold_right]. unfold list_sum in IH. lia.
Qed.

Lemma list_sum_indicator (idx n : nat) :
  list_sum (map (fun f => if Nat.eq_dec idx f then 1%nat else 0%nat) (seq 0 n))
  = if (idx <? n)%nat then 1%nat else 0%nat.
Proof.
  induction n as [|n IH]; [reflexivity|].
  rewrite seq_S, map_app, list_sum_app, IH. cbn [Nat.add map list_sum fold_right].
  destruct (Nat.eq_dec idx n) as [->|Hne].
  - rewrite Nat.ltb_irrefl. now rewrite (proj2 (Nat.ltb_lt n (S n))) by lia.
  - destruct (idx <? n)%nat eqn:L.
    + apply Nat.ltb_lt in L. now rewrite (proj2 (Nat.ltb_lt idx (S n))) by lia.
    + apply Nat.ltb_ge in L. now rewrite (proj2 (Nat.ltb_ge idx (S n))) by lia.
Qed.

Lemma list_sum_counts (record : list nat) (n : nat) :
  Forall (fun idx => (idx < n)%nat) record ->
  list_sum (map (count_occ Nat.eq_dec record) (range n)) = List.length record.
Proof.
  unfold range. induction 1 as [|idx record Hidx _ IH].
  - cbn [count_occ List.length]. induction (seq 0 n) as [|x l IHl];
      [reflexivity | exact IHl].
  - rewrite (map_ext (count_occ Nat.eq_dec (idx :: record))
               (fun f => ((if Nat.eq_dec idx f then 1 else 0)
                          + count_occ Nat.eq_dec record f)%nat)).
    2:{ intros f. cbn [count_occ]. now destruct (Nat.eq_dec idx f). }
    rewrite list_sum_map_add, list_sum_indicator, IH.
    rewrite (proj2 (Nat.ltb_lt idx n) Hidx). reflexivity.
Qed.

Lemma list_sum_positions (rows : list (list nat)) (n : nat) :
  Forall (fun row => List.length row = n) rows ->
  list_sum (map (fun j => list_sum (map (fun row => nth j row 0%nat) rows))
                (range n))
  = list_sum (map list_sum rows).
Proof.
  induction 1 as [|row rows Hrow _ IH].
  - cbn [map list_sum fold_right]. unfold range.
    induction (seq 0 n) as [|x l IHl]; [reflexivity | exact IHl].
  - rewrite (map_ext _ (fun j => (nth j row 0
                                  + list_sum (map (fun row => nth j row 0)
                                                rows))%nat))
      by reflexivity.
    rewrite list_sum_map_add, IH. cbn [map].
    rewrite <- Hrow at 1. rewrite map_nth_range. reflexivity.
Qed.

(** X11.  The field indices that [_get_tokenized_table] emits stay below
    the number of selected features through the replacement by ranks, the
    sort and the split, so [_calc_table_field_length], called with that
    number, does not raise its [AssertionError] on them.  For records of
    fewer than 2^32 tokens it returns, for each record, one length per
    feature, the lengths adding up to the number of tokens of the record;
    [_calc_table_field_token_sum] then returns one sum per feature, and
    the sums add up to the number of tokens of all records. *)
Theorem X11_field_lengths_of_tokenized_records
  (table : DataFrame) (table_key : label) (feature_list : list nat)
  (record_list : list (list (string * nat))) (order_dict : dict string nat)
  (record_token_list record_index_list : list (list nat)) :
  _get_tokenized_table table table_key feature_list = Ok record_list ->
  _split_record_token_and_index
    (_sort_record_tokens_by_global_order
       (_replace_token_with_numeric_index record_list order_dict))
  = Ok (record_token_list, record_index_list) ->
  Forall (fun record => fits_u32 (List.length record) = true)
         record_index_list ->
  exists table_field_length_list table_field_token_sum,
    _calc_table_field_length record_index_list (List.length feature_list)
    = Ok table_field_length_list /\
    _calc_table_field_token_sum table_field_length_list
      (List.length feature_list)
    = Ok table_field_token_sum /\
    Forall2 (fun record field_array =>
               List.length field_array = List.length feature_list /\
               list_sum field_array = List.length record)
            record_index_list table_field_length_list /\
    List.length table_field_token_sum = List.length feature_list /\
    list_sum table_field_token_sum
    = List.length (List.concat record_index_list).
Proof.
  intros Et Es Hfit.
  set (n := List.length feature_list) in *.
  destruct (_get_tokenized_table_records table table_key feature_list
              record_list Et) as (_ & _ & _ & Hfields).
  fold n in Hfields.
  unfold _split_record_token_and_index in Es. apply split_both in Es.
  cbn [fst snd app] in Es.
  assert (Eidx : record_index_list
                 = map (map snd)
                     (_sort_record_tokens_by_global_order
                        (_replace_token_with_numeric_index record_list
                           order_dict))) by congruence.
  clear Es.
  assert (Hidx : Forall (Forall (fun idx => (idx < n)%nat)) record_index_list).
  { rewrite Eidx.
    unfold _sort_record_tokens_by_global_order,
      _replace_token_with_numeric_index.
    rewrite !map_map. rewrite Forall_map.
    eapply Forall_impl; [|exact Hfields]. intros record Hr. cbv beta.
    rewrite replace_record. cbn [app]. rewrite Forall_map.
    assert (Hsnd : Forall (fun p : nat * nat => (snd p < n)%nat)
                     (flat_map (rank_of order_dict) record)).
    { apply flat_map_rank_of_fields.
      eapply Forall_impl; [|exact Hr]. intros p Hp. apply Hp. }
    rewrite Forall_forall in *. intros p Hp. apply Hsnd.
    eapply Permutation_in; [apply py_sorted_perm | exact Hp]. }
  clear Eidx.
  set (lengths := map (fun record =>
                         map (count_occ Nat.eq_dec record) (range n))
                      record_index_list).
  assert (Hlen : Forall (fun row => List.length row = n) lengths).
  { unfold lengths. rewrite Forall_map. apply Forall_forall. intros r _.
    unfold range. now rewrite length_map, length_seq. }
  exists lengths.
  exists (map (fun j => list_sum (map (fun field_array => nth j field_array 0%nat)
                                    lengths)) (range n)).
  split; [now apply _calc_table_field_length_counts|].
  split.
  { apply _calc_table_field_token_sum_sums.
    eapply Forall_impl; [|exact Hlen]. intros row ->. apply Nat.le_refl. }
  split.
  { unfold lengths. clear Hfit Hlen lengths.
    induction Hidx as [|record rs Hr _ IH]; cbn [map]; constructor;
      [|exact IH].
    split; [unfold range; now rewrite length_map, length_seq|].
    now apply list_sum_counts. }
  split; [unfold range; now rewrite length_map, length_seq|].
  rewrite (list_sum_positions lengths n Hlen).
  unfold lengths. rewrite map_map.
  clear Hfit Hlen lengths.
  induction Hidx as [|record rs Hr _ IH]; [reflexivity|].
  cbn [map List.concat]. rewrite length_app.
  change (list_sum (?x :: ?l)) with (x + list_sum l)%nat.
  rewrite IH. now rewrite list_sum_counts.
Qed.

Lemma X11_field_lengths_of_tokenized_records_witness :
  exists table_field_length_list table_field_token_sum,
    _calc_table_field_length [[0; 0; 0]]%nat 1 = Ok table_field_length_list /\
    _calc_table_field_token_sum table_field_length_list 1
    = Ok table_field_token_sum /\
    Forall2 (fun record field_array =>
               List.length field_array = 1%nat /\
               list_sum field_array = List.length record)
            [[0; 0; 0]]%nat table_field_length_list /\
    List.length table_field_token_sum = 1%nat /\
    list_sum table_field_token_sum
    = List.length (List.concat [[0; 0; 0]]%nat).
Proof.
  apply (X11_field_lengths_of_tokenized_records
           demo_collision (LName "id") [1%nat]
           [[("a", 0%nat); ("a_1", 0%nat); ("a_1", 0%nat)]]
           [("a", 0%nat); ("a_1", 1%nat)] [[0; 1; 1]]%nat [[0; 0; 0]]%nat).
  - reflexivity.
  - reflexivity.
  - repeat constructor.
Defined.

(** ** Rows of the candidate set *)

Lemma set_add_In (x y : nat) (s : list nat) :
  In y (set_add Nat.eqb x s) <-> In y s \/ y = x.
Proof.
  unfold set_add. destruct (existsb (Nat.eqb x) s) eqn:E.
  - split; [now left|]. intros [H| ->]; [exact H|].
    apply existsb_exists in E. destruct E as (z & Hz & Ez).
    apply Nat.eqb_eq in Ez. now subst z.
  - rewrite in_app_iff. cbn. intuition.
Qed.

Lemma indexed_add (index : candset_index) (l0 r0 l r : nat) :
  indexed
    match dict_get Nat.eqb index l0 with
    | Some s => dict_set Nat.eqb index l0 (set_add Nat.eqb r0 s)
    | None => dict_set Nat.eqb index l0 [r0]
    end l r
  <-> indexed index l r \/ (l = l0 /\ r = r0).
Proof.
  unfold indexed. destruct (Nat.eq_dec l l0) as [->|Hne].
  - destruct (dict_get Nat.eqb index l0) as [s|] eqn:G.
    + rewrite (dict_get_set_same Nat.eqb Nat.eqb_eq). split.
      * intros (s' & E & Hin). inversion E; subst s'.
        apply set_add_In in Hin. destruct Hin as [Hin| ->]; [left|right; auto].
        now exists s.
      * intros [(s' & E & Hin)|(_ & ->)].
        -- inversion E; subst s'. eexists. split; [reflexivity|].
           apply set_add_In. now left.
        -- eexists. split; [reflexivity|]. apply set_add_In. now right.
    + rewrite (dict_get_set_same Nat.eqb Nat.eqb_eq). split.
      * intros (s' & E & Hin). inversion E; subst s'.
        destruct Hin as [<-|[]]. right. auto.
      * intros [(s' & E & _)|(_ & ->)]; [discriminate E|].
        eexists. split; [reflexivity | now left].
  - assert (E : forall v, dict_get Nat.eqb (dict_set Nat.eqb index l0 v) l
                          = dict_get Nat.eqb index l).
    { intros v. now apply (dict_get_set_other Nat.eqb Nat.eqb_eq). }
    destruct (dict_get Nat.eqb index l0); rewrite E;
      (split; [intros H; now left | intros [H|[H _]]; [exact H | contradiction]]).
Qed.

Lemma index_rows (lmap rmap : dict cell nat) (lkeys rkeys : list cell)
  (k : nat) :
  List.length lkeys = List.length rkeys ->
  (k <= List.length lkeys)%nat ->
  exists index,
    foldM (fun new_formatted_candidate_set i =>
             (lid <- py_index lkeys i ;;
              if dict_mem cell_eqb lmap lid then
                rid <- py_index rkeys i ;;
                if dict_mem cell_eqb rmap rid then
                  l_key_data <- dict_item cell_eqb lmap lid ;;
                  r_key_data <- dict_item cell_eqb rmap rid ;;
                  match dict_get Nat.eqb new_formatted_candidate_set
                                 l_key_data with
                  | Some s =>
                      Ok (dict_set Nat.eqb new_formatted_candidate_set
                            l_key_data (set_add Nat.eqb r_key_data s))
                  | None =>
                      Ok (dict_set Nat.eqb new_formatted_candidate_set
                            l_key_data [r_key_data])
                  end
                else Ok new_formatted_candidate_set
              else Ok new_formatted_candidate_set)%res)
          (seq 0 k) [] = Ok index /\
    forall l r,
      indexed index l r
      <-> candidate_row lmap rmap (firstn k lkeys) (firstn k rkeys) l r.
Proof.
  intros Hlen. induction k as [|k IH]; intros Hk.
  - exists []. split; [reflexivity|]. intros l r. split.
    + intros (s & E & _). discriminate E.
    + intros (i & lid & rid & E & _). cbn [firstn] in E.
      destruct i; discriminate E.
  - destruct (IH ltac:(lia)) as (index & E & Hindex).
    rewrite seq_S, foldM_app, E. cbn [rbind Nat.add foldM].
    destruct (nth_error lkeys k) as [lid|] eqn:El.
    2:{ apply nth_error_None in El. lia. }
    destruct (nth_error rkeys k) as [rid|] eqn:Er.
    2:{ apply nth_error_None in Er. lia. }
    assert (Hrow : forall l r,
               candidate_row lmap rmap (firstn (S k) lkeys)
                 (firstn (S k) rkeys) l r
               <-> candidate_row lmap rmap (firstn k lkeys)
                     (firstn k rkeys) l r
                   \/ (dict_get cell_eqb lmap lid = Some l /\
                       dict_get cell_eqb rmap rid = Some r)).
    { intros l r.
      rewrite (firstn_snoc_nth lkeys k lid El),
        (firstn_snoc_nth rkeys k rid Er).
      assert (Hlk : List.length (firstn k lkeys) = k)
        by (rewrite length_firstn; lia).
      assert (Hrk : List.length (firstn k rkeys) = k)
        by (rewrite length_firstn; lia).
      split.
      - intros (i & a & b & Ea & Eb & Ga & Gb).
        destruct (Nat.lt_ge_cases i k) as [Hi|Hi].
        + left. exists i, a, b.
          rewrite nth_error_app1 in Ea by lia.
          rewrite nth_error_app1 in Eb by lia. auto.
        + right. rewrite nth_error_app2 in Ea by lia.
          rewrite nth_error_app2 in Eb by lia.
          rewrite Hlk in Ea. rewrite Hrk in Eb.
          destruct (i - k)%nat as [|d]; cbn in Ea, Eb.
          * inversion Ea; inversion Eb; subst. auto.
          * destruct d; discriminate Ea.
      - intros [(i & a & b & Ea & Eb & Ga & Gb)|(Ga & Gb)].
        + exists i, a, b.
          assert (i < k)%nat.
          { rewrite <- Hlk. apply nth_error_Some. congruence. }
          rewrite nth_error_app1 by lia. rewrite nth_error_app1 by lia. auto.
        + exists k, lid, rid.
          rewrite nth_error_app2 by lia. rewrite nth_error_app2 by lia.
          rewrite Hlk, Hrk, Nat.sub_diag. cbn. auto. }
    unfold py_index. rewrite El. cbn [rbind].
    unfold dict_mem, dict_item.
    destruct (dict_get cell_eqb lmap lid) as [l0|] eqn:Gl.
    2:{ exists index. split; [reflexivity|]. intros l r.
        rewrite Hrow, Hindex. split; [now left|].
        intros [H|[H _]]; [exact H | discriminate H]. }
    rewrite Er. cbn [rbind].
    destruct (dict_get cell_eqb rmap rid) as [r0|] eqn:Gr.
    2:{ exists index. split; [reflexivity|]. intros l r.
        rewrite Hrow, Hindex. split; [now left|].
        intros [H|[_ H]]; [exact H | discriminate H]. }
    cbn [rbind].
    exists match dict_get Nat.eqb index l0 with
           | Some s => dict_set Nat.eqb index l0 (set_add Nat.eqb r0 s)
           | None => dict_set Nat.eqb index l0 [r0]
           end.
    split; [destruct (dict_get Nat.eqb index l0); reflexivity|].
    intros l r. rewrite indexed_add, Hrow, Hindex.
    split; (intros [H|[H1 H2]]; [now left | right; split; congruence]).
Qed.

(** X12.  For a candidate set with rows whose metadata is found and valid,
    [_index_candidate_set] asks for the metadata, has it validated, and
    returns the pairs of record positions of the rows: the position pair
    [(l, r)] is in the result exactly when some row holds, in its two
    foreign-key columns, ids that the two id maps send to [l] and [r].
    Rows with an id that is in neither map are left out. *)
Theorem X12_candidate_index {F : FloatOps} (X : Collaborators)
  (candidate_set : DataFrame)
  (lrecord_id_to_index_map rrecord_id_to_index_map : dict cell nat)
  (verbose : bool) (t : trace) (md : candset_metadata)
  (ltable_key_data rtable_key_data : list cell) :
  df_len candidate_set <> 0%nat ->
  get_metadata_for_candset X candidate_set verbose = Ok md ->
  validate_metadata_for_candset X candidate_set md verbose = Ok tt ->
  getitem candidate_set (cm_fk_ltable md) = Ok ltable_key_data ->
  getitem candidate_set (cm_fk_rtable md) = Ok rtable_key_data ->
  List.length ltable_key_data = List.length rtable_key_data ->
  exists index,
    _index_candidate_set X candidate_set lrecord_id_to_index_map
      rrecord_id_to_index_map verbose t
    = (Ok index,
       t ++ [Call_get_metadata_for_candset;
             Call_validate_metadata_for_candset]) /\
    forall l r,
      indexed index l r
      <-> candidate_row lrecord_id_to_index_map rrecord_id_to_index_map
            ltable_key_data rtable_key_data l r.
Proof.
  intros Hn Hmd Hval Hl Hr Hlen. unfold _index_candidate_set.
  destruct (Nat.eqb_spec (df_len candidate_set) 0); [contradiction|].
  rewrite mbind_call, Hmd, mbind_call, Hval, mbind_lift, Hl, mbind_lift, Hr.
  destruct (index_rows lrecord_id_to_index_map rrecord_id_to_index_map
              ltable_key_data rtable_key_data (List.length ltable_key_data)
              Hlen (Nat.le_refl _)) as (index & E & Hindex).
  exists index. unfold range, lift. rewrite E. split.
  - now rewrite <- app_assoc.
  - intros l r. rewrite Hindex, firstn_all, Hlen, firstn_all. reflexivity.
Qed.

Lemma X12_candidate_index_witness :
  exists index,
    _index_candidate_set demo_catalog demo_pairs
      [(CStr "a1", 0%nat); (CStr "a2", 1%nat)]
      [(CStr "b1", 0%nat); (CStr "b2", 1%nat)] true []
    = (Ok index,
       [] ++ [Call_get_metadata_for_candset;
              Call_validate_metadata_for_candset]) /\
    forall l r,
      indexed index l r
      <-> candidate_row [(CStr "a1", 0%nat); (CStr "a2", 1%nat)]
            [(CStr "b1", 0%nat); (CStr "b2", 1%nat)]
            [CStr "a9"; CStr "a1"; CStr "a1"]
            [CStr "b1"; CStr "b2"; CStr "b2"] l r.
Proof.
  apply (X12_candidate_index demo_catalog demo_pairs
           [(CStr "a1", 0%nat); (CStr "a2", 1%nat)]
           [(CStr "b1", 0%nat); (CStr "b2", 1%nat)] true []
           (mkCandsetMetadata (LName "_id") (LName "ltable_id")
              (LName "rtable_id") demo_ltable demo_rtable
              (LName "id") (LName "id"))).
  - cbn. lia.
  - reflexivity.
  - reflexivity.
  - reflexivity.
  - reflexivity.
  - reflexivity.
Defined.

(** ** The parallel join *)

Lemma skipn_nth_error {A : Type} (l : list A) (a : nat) (x : A) :
  nth_error l a = Some x -> skipn a l = x :: skipn (S a) l.
Proof.
  revert a. induction l as [|y l IH]; intros [|a] H; try discriminate H.
  - inversion H. reflexivity.
  - cbn [nth_error] in H. cbn [skipn]. rewrite (IH a H). reflexivity.
Qed.

Lemma indexed_calls {A B : Type} (ev : nat -> event) (w : A -> result B)
  (l : list A) (n : nat) :
  forall (a : nat) (t : trace) (ys : list B),
  (a + n <= List.length l)%nat ->
  mapM w (firstn n (skipn a l)) = Ok ys ->
  mmap (fun i => mbind (lift (py_index l i)) (fun x => call (ev i) (w x)))
       (seq a n) t
  = (Ok ys, t ++ map ev (seq a n)).
Proof.
  induction n as [|n IH]; intros a t ys Ha E.
  - cbn in E. inversion E. cbn. now rewrite app_nil_r.
  - destruct (nth_error l a) as [x|] eqn:Ex.
    2:{ apply nth_error_None in Ex. lia. }
    rewrite (skipn_nth_error l a x Ex) in E. cbn [firstn mapM] in E.
    destruct (w x) as [y|e] eqn:Ew; [|discriminate E]. cbn [rbind] in E.
    destruct (mapM w (firstn n (skipn (S a) l))) as [ys'|e] eqn:Em;
      [|discriminate E].
    cbn [rbind] in E. inversion E; subst ys.
    cbn [seq mmap map]. unfold mbind at 1. rewrite mbind_lift.
    rewrite (py_index_nth l a x Ex). unfold call at 1. rewrite Ew.
    unfold mbind at 1. rewrite (IH (S a) (t ++ [ev a]) ys' ltac:(lia) Em).
    unfold mret. now rewrite <- app_assoc.
Qed.

Lemma _get_config_num_bound (P n_jobs n_configs N k : Z) :
  _get_config_num P n_jobs n_configs N = Ok k -> (k <= N)%Z.
Proof.
  unfold _get_config_num.
  destruct ((n_jobs =? 0)%Z || (n_configs =? 0)%Z || (n_configs <? -2)%Z)%bool;
    [discriminate|].
  match goal with
  | |- context [if (?a <? N)%Z then _ else _] =>
      destruct (Z.ltb_spec a N); intros E; inversion E; lia
  end.
Qed.

Lemma debugblocker_cython_parallel_runs {F : FloatOps} (X : Collaborators)
  (ltok rtok lidx ridx : list (list nat)) (lsum rsum : list nat)
  (cand : candset_index) (num_fields : nat)
  (output_size n_jobs n_configs : Z) (t : trace) (configs : list (config X))
  (k : Z) (rec_lists : list (list (float * nat * nat))) :
  debugblocker_config_cython X lsum rsum num_fields
    (pickled_len X (pickle_dumps X ltok))
    (pickled_len X (pickle_dumps X rtok)) = Ok configs ->
  _get_config_num (cpu_count X) n_jobs n_configs
    (Z.of_nat (List.length configs)) = Ok k ->
  mapM (fun cfg =>
          debugblocker_topk_cython_wrapper X cfg (pickle_dumps X ltok)
            (pickle_dumps X rtok) (pickle_dumps X lidx) (pickle_dumps X ridx)
            cand output_size)
       (firstn (Z.to_nat k) configs) = Ok rec_lists ->
  debugblocker_cython_parallel X ltok rtok lidx ridx lsum rsum cand
    num_fields output_size n_jobs n_configs t
  = (debugblocker_merge_topk_cython X rec_lists,
     t ++ [Call_debugblocker_config_cython]
       ++ map Call_debugblocker_topk_cython (range (Z.to_nat k))
       ++ [Call_debugblocker_merge_topk_cython]).
Proof.
  intros Hc Hk Hw. unfold debugblocker_cython_parallel.
  rewrite mbind_call, Hc, mbind_lift, Hk.
  assert (Hb := _get_config_num_bound _ _ _ _ _ Hk).
  unfold mbind at 1. unfold range.
  rewrite (indexed_calls Call_debugblocker_topk_cython
             (fun cfg =>
                debugblocker_topk_cython_wrapper X cfg (pickle_dumps X ltok)
                  (pickle_dumps X rtok) (pickle_dumps X lidx)
                  (pickle_dumps X ridx) cand output_size)
             configs (Z.to_nat k) 0 _ rec_lists).
  - unfold call. now rewrite <- !app_assoc.
  - lia.
  - exact Hw.
Qed.

(** X13.  When the configurations are generated and the resolved count is
    [k], [debugblocker_cython_parallel] runs the join for the first [k]
    configurations, in their order and with the pickled arrays, the
    candidate set and the output size, and returns what the merge makes of
    the results; the resolved count never exceeds the number of
    configurations, so no configuration is missing. *)
Theorem X13_parallel_join {F : FloatOps} (X : Collaborators)
  (ltok rtok lidx ridx : list (list nat)) (lsum rsum : list nat)
  (cand : candset_index) (num_fields : nat)
  (output_size n_jobs n_configs : Z) (t : trace) (configs : list (config X))
  (k : Z) (rec_lists : list (list (float * nat * nat))) :
  debugblocker_config_cython X lsum rsum num_fields
    (pickled_len X (pickle_dumps X ltok))
    (pickled_len X (pickle_dumps X rtok)) = Ok configs ->
  _get_config_num (cpu_count X) n_jobs n_configs
    (Z.of_nat (List.length configs)) = Ok k ->
  mapM (fun cfg =>
          debugblocker_topk_cython_wrapper X cfg (pickle_dumps X ltok)
            (pickle_dumps X rtok) (pickle_dumps X lidx) (pickle_dumps X ridx)
            cand output_size)
       (firstn (Z.to_nat k) configs) = Ok rec_lists ->
  (Z.to_nat k <= List.length configs)%nat /\
  List.length rec_lists = Z.to_nat k /\
  debugblocker_cython_parallel X ltok rtok lidx ridx lsum rsum cand
    num_fields output_size n_jobs n_configs t
  = (debugblocker_merge_topk_cython X rec_lists,
     t ++ [Call_debugblocker_config_cython]
       ++ map Call_debugblocker_topk_cython (range (Z.to_nat k))
       ++ [Call_debugblocker_merge_topk_cython]).
Proof.
  intros Hc Hk Hw.
  assert (Hb := _get_config_num_bound _ _ _ _ _ Hk).
  split; [lia|]. split.
  - apply mapM_length in Hw. rewrite Hw, length_firstn. lia.
  - now apply (debugblocker_cython_parallel_runs X ltok rtok lidx ridx lsum
                 rsum cand num_fields output_size n_jobs n_configs t configs).
Qed.

Lemma X13_parallel_join_witness :
  (Z.to_nat 2 <= List.length [0; 1; 2]%nat)%nat /\
  List.length [[(@float_of_int QFloat 1%Z, 0%nat, 0%nat)];
               [(@float_of_int QFloat 1%Z, 1%nat, 0%nat)]] = Z.to_nat 2 /\
  debugblocker_cython_parallel demo_catalog [[0%nat]] [[0%nat]] [[0%nat]] [[0%nat]] [1%nat] [1%nat]
    [] 1%nat 5%Z 1%Z 2%Z []
  = (debugblocker_merge_topk_cython demo_catalog
       [[(@float_of_int QFloat 1%Z, 0%nat, 0%nat)];
        [(@float_of_int QFloat 1%Z, 1%nat, 0%nat)]],
     [] ++ [Call_debugblocker_config_cython]
        ++ map Call_debugblocker_topk_cython (range (Z.to_nat 2))
        ++ [Call_debugblocker_merge_topk_cython]).
Proof.
  apply (X13_parallel_join demo_catalog [[0%nat]] [[0%nat]] [[0%nat]] [[0%nat]] [1%nat] [1%nat]
           [] 1%nat 5%Z 1%Z 2%Z [] [0; 1; 2]%nat 2%Z).
  - reflexivity.
  - reflexivity.
  - reflexivity.
Defined.

(** X14.  With [n_configs = -1] and a negative [n_jobs] that leaves no
    core ([cpu_count + 1 + n_jobs <= 0]) the resolved count is not
    positive: [debugblocker_cython_parallel] then runs no join at all and
    returns what the merge makes of no result, without an error. *)
Theorem X14_no_core_no_join {F : FloatOps} (X : Collaborators)
  (ltok rtok lidx ridx : list (list nat)) (lsum rsum : list nat)
  (cand : candset_index) (num_fields : nat)
  (output_size n_jobs : Z) (t : trace) (configs : list (config X)) :
  debugblocker_config_cython X lsum rsum num_fields
    (pickled_len X (pickle_dumps X ltok))
    (pickled_len X (pickle_dumps X rtok)) = Ok configs ->
  (n_jobs < 0)%Z -> (cpu_count X + 1 + n_jobs <= 0)%Z ->
  debugblocker_cython_parallel X ltok rtok lidx ridx lsum rsum cand
    num_fields output_size n_jobs (-1) t
  = (debugblocker_merge_topk_cython X [],
     t ++ [Call_debugblocker_config_cython;
           Call_debugblocker_merge_topk_cython]).
Proof.
  intros Hc Hj Hp.
  assert (Hk : exists k,
             _get_config_num (cpu_count X) n_jobs (-1)
               (Z.of_nat (List.length configs)) = Ok k /\ (k <= 0)%Z).
  { unfold _get_config_num.
    rewrite (proj2 (Z.eqb_neq n_jobs 0)) by lia.
    change (-1 =? 0)%Z with false. change (-1 <? -2)%Z with false.
    change (-1 =? -2)%Z with false. change (-1 =? -1)%Z with true.
    cbn [orb]. rewrite (proj2 (Z.ltb_lt n_jobs 0) Hj).
    destruct (Z.ltb_spec (cpu_count X + 1 + n_jobs)
                (Z.of_nat (List.length configs)));
      eexists; (split; [reflexivity | lia]). }
  destruct Hk as (k & Hk & Hle).
  rewrite (debugblocker_cython_parallel_runs X ltok rtok lidx ridx lsum rsum
             cand num_fields output_size n_jobs (-1) t configs k [] Hc Hk).
  - replace (Z.to_nat k) with 0%nat by lia. reflexivity.
  - replace (Z.to_nat k) with 0%nat by lia. reflexivity.
Qed.

Lemma X14_no_core_no_join_witness :
  debugblocker_cython_parallel demo_catalog [[0%nat]] [[0%nat]] [[0%nat]] [[0%nat]] [1%nat] [1%nat]
    [] 1%nat 5%Z (-5)%Z (-1) []
  = (debugblocker_merge_topk_cython demo_catalog [],
     [] ++ [Call_debugblocker_config_cython;
            Call_debugblocker_merge_topk_cython]).
Proof.
  apply (X14_no_core_no_join demo_catalog [[0%nat]] [[0%nat]] [[0%nat]] [[0%nat]] [1%nat] [1%nat]
           [] 1%nat 5%Z (-5)%Z [] [0; 1; 2]%nat).
  - reflexivity.
  - lia.
  - cbn. lia.
Defined.

(** ** The assembled table *)

Lemma without_position_from (A : Type) (k : nat) (record : list A) :
  forall a,
  List.length (filter (fun jx : nat * A => negb (fst jx =? k)%nat)
                 (combine (seq a (List.length record)) record))
  = if ((a <=? k) && (k <? a + List.length record))%nat%bool
    then (List.length record - 1)%nat
    else List.length record.
Proof.
  induction record as [|x record IH]; intros a.
  - cbn. destruct (_ && _)%bool; reflexivity.
  - cbn [List.length seq combine filter fst]. specialize (IH (S a)).
    destruct (Nat.eqb_spec a k) as [->|Hne]; cbn [negb].
    + rewrite IH, Nat.leb_refl.
      rewrite (proj2 (Nat.leb_gt (S k) k)) by lia.
      rewrite (proj2 (Nat.ltb_lt k (k + S (List.length record)))) by lia.
      cbn. lia.
    + cbn [List.length]. rewrite IH.
      destruct (Nat.leb_spec (S a) k), (Nat.leb_spec a k); try lia;
        cbn [andb]; [|reflexivity].
      destruct (Nat.ltb_spec k (S a + List.length record)),
        (Nat.ltb_spec k (a + S (List.length record))); try lia.
Qed.


Lemma py_remove_names (x : string) (names : list string) :
  py_remove label_eqb (LName x) (map LName names)
  = rbind (py_remove String.eqb x names) (fun r => Ok (map LName r)).
Proof.
  induction names as [|y names IH]; [reflexivity|].
  cbn [map py_remove label_eqb]. destruct (String.eqb y x); [reflexivity|].
  rewrite IH. destruct (py_remove String.eqb x names); reflexivity.
Qed.

Lemma prefix_strings (prefix : string) (names : list string)
  (acc : list string) :
  foldM (fun names c =>
           rbind (prefix_label prefix c) (fun s => Ok (names ++ [s])))
        (map LName names) acc
  = Ok (acc ++ map (String.append prefix) names).
Proof.
  revert acc. induction names as [|c names IH]; intros acc; cbn [map foldM].
  - now rewrite app_nil_r.
  - cbn [prefix_label rbind]. rewrite IH. now rewrite <- app_assoc.
Qed.

Lemma assemble_rows {F : FloatOps} (rec_list : list (float * nat * nat))
  (ltable rtable : DataFrame) (lkey_index rkey_index : nat) (k : nat)
  (rows : list (list cell)) :
  foldM (fun ret_tuple_list i =>
           (tup <- py_index rec_list i ;;
            lrecord <- loc ltable (snd (fst tup)) ;;
            rrecord <- loc rtable (snd tup) ;;
            let ret_tuple := [CNum (inject_Z (Z.of_nat i))] in
            lk <- py_index lrecord lkey_index ;;
            let ret_tuple := ret_tuple ++ [lk] in
            rk <- py_index rrecord rkey_index ;;
            let ret_tuple := ret_tuple ++ [rk] in
            let ret_tuple :=
              ret_tuple ++ without_position lkey_index lrecord in
            let ret_tuple :=
              ret_tuple ++ without_position rkey_index rrecord in
            Ok (ret_tuple_list ++ [ret_tuple]))%res)
        (seq 0 k) [] = Ok rows ->
  List.length rows = k /\
  map (fun row => nth 0 row CNaN) rows
  = map (fun i => CNum (inject_Z (Z.of_nat i))) (seq 0 k).
Proof.
  revert rows. induction k as [|k IH]; intros rows E.
  - cbn in E. inversion E. auto.
  - rewrite seq_S, foldM_app in E.
    match type of E with
    | rbind ?loop _ = _ => destruct loop as [rows0|e]; [|discriminate E]
    end.
    destruct (IH rows0 eq_refl) as [Hlen Hid].
    cbn [rbind Nat.add foldM] in E.
    destruct (py_index rec_list k) as [tup|e];
      cbn [rbind] in E; [|discriminate E].
    destruct (loc ltable (snd (fst tup))) as [lrecord|e];
      cbn [rbind] in E; [|discriminate E].
    destruct (loc rtable (snd tup)) as [rrecord|e];
      cbn [rbind] in E; [|discriminate E].
    destruct (py_index lrecord lkey_index) as [lk|e];
      cbn [rbind] in E; [|discriminate E].
    destruct (py_index rrecord rkey_index) as [rk|e];
      cbn [rbind] in E; [|discriminate E].
    inversion E; subst rows. split.
    + rewrite length_app, Hlen. cbn. lia.
    + rewrite seq_S, !map_app, Hid. reflexivity.
Qed.

Lemma map_fst_combine_eq {A B : Type} (l : list A) (l' : list B) :
  List.length l = List.length l' -> map fst (combine l l') = l.
Proof.
  revert l'. induction l as [|x l IH]; intros [|y l'] H; cbn in *;
    try reflexivity; try discriminate.
  f_equal. apply IH. lia.
Qed.

Lemma relabelled_columns (n : nat) (names : list label) (cols : list column) :
  List.length names = List.length cols ->
  columns (mkFrame n (map (fun nc => mkColumn (fst nc) (col_dtype (snd nc))
                                              (col_values (snd nc)))
                          (combine names cols))) = names.
Proof.
  intros H. unfold columns. cbn [df_cols]. rewrite map_map. cbn [col_label].
  rewrite <- (map_map fst (fun x => x)), map_id.
  now apply map_fst_combine_eq.
Qed.

Lemma relabelled_first (n : nat) (name : string) (names : list string)
  (col : column) (cols : list column) :
  (forall x, In x names -> String.eqb x name = false) ->
  getitem (mkFrame n (map (fun nc => mkColumn (fst nc) (col_dtype (snd nc))
                                              (col_values (snd nc)))
                          (combine (map LName (name :: names)) (col :: cols))))
          (LName name)
  = Ok (col_values col).
Proof.
  intros H. unfold getitem, labelled.
  cbn [df_cols map combine filter col_label fst snd label_eqb].
  rewrite String.eqb_refl.
  assert (Hrest : filter (fun c => label_eqb (col_label c) (LName name))
                    (map (fun nc => mkColumn (fst nc) (col_dtype (snd nc))
                                             (col_values (snd nc)))
                         (combine (map LName names) cols)) = []).
  { clear col. revert cols H.
    induction names as [|x names IH]; intros cols H; [reflexivity|].
    destruct cols as [|c cols]; [reflexivity|].
    cbn [map combine filter col_label fst label_eqb].
    rewrite (H x (or_introl eq_refl)). apply IH.
    intros y Hy. apply H. now right. }
  rewrite Hrest. reflexivity.
Qed.

(** X15.  Over tables with the default integer index whose columns are
    named by strings, whenever [_assemble_topk_table] returns a frame for
    a result list that is not empty, the two keys are among the column
    names and the frame has one row per result triple.  Its columns are
    [_id], the two keys with their prefixes, then the other left columns
    and the other right columns with their prefixes; [_id] numbers the
    rows from 0; and the frame was handed once to
    [set_candset_properties], which accepted it. *)
Theorem X15_assembled_table {F : FloatOps} (X : Collaborators)
  (rec_list : list (float * nat * nat)) (ltable rtable : DataFrame)
  (lkey rkey : string) (lcols rcols : list string) (t t' : trace)
  (data_frame : DataFrame) :
  columns ltable = map LName lcols -> columns rtable = map LName rcols ->
  rec_list <> [] ->
  _assemble_topk_table X rec_list ltable rtable (LName lkey) (LName rkey) t
  = (Ok data_frame, t') ->
  exists lrest rrest,
    py_remove String.eqb lkey lcols = Ok lrest /\
    py_remove String.eqb rkey rcols = Ok rrest /\
    df_len data_frame = List.length rec_list /\
    columns data_frame
    = map LName ("_id" :: ("ltable_" ++ lkey)%string
                       :: ("rtable_" ++ rkey)%string
                       :: map (String.append "ltable_") lrest
                          ++ map (String.append "rtable_") rrest) /\
    getitem data_frame (LName "_id")
    = Ok (map (fun i => CNum (inject_Z (Z.of_nat i)))
              (range (List.length rec_list))) /\
    set_candset_properties X data_frame (LName "_id")
      (LName ("ltable_" ++ lkey)) (LName ("rtable_" ++ rkey)) ltable rtable
    = Ok tt /\
    t' = t ++ [Call_set_candset_properties].
Proof.
  intros Hcl Hcr Hne E. unfold _assemble_topk_table in E.
  rewrite mbind_lift in E. cbn [prefix_label] in E.
  rewrite mbind_lift in E.
  rewrite mbind_lift, Hcl, py_remove_names in E.
  destruct (py_remove String.eqb lkey lcols) as [lrest|e];
    cbn [rbind] in E; [|discriminate E].
  rewrite mbind_lift, Hcr, py_remove_names in E.
  destruct (py_remove String.eqb rkey rcols) as [rrest|e];
    cbn [rbind] in E; [|discriminate E].
  rewrite mbind_lift, prefix_strings, mbind_lift, prefix_strings in E.
  unfold range at 1 in E. rewrite mbind_lift in E.
  match type of E with
  | match ?loop with Ok _ => _ | Err _ => _ end = _ =>
      destruct loop as [rows|e] eqn:Erows; [|discriminate E]
  end.
  apply assemble_rows in Erows. destruct Erows as [Hlen Hid].
  cbv zeta in E.
  assert (Hz : (df_len (frame_of_rows X rows) =? 0)%nat = false).
  { apply Nat.eqb_neq. cbn [frame_of_rows df_len]. rewrite Hlen.
    destruct rec_list; [congruence | discriminate]. }
  rewrite Hz in E. rewrite mbind_lift in E.
  change ((((["_id"] ++ [("ltable_" ++ lkey)%string])
            ++ [("rtable_" ++ rkey)%string])
           ++ map (String.append "ltable_") lrest)
          ++ map (String.append "rtable_") rrest)
    with ("_id" :: ("ltable_" ++ lkey)%string
                :: ("rtable_" ++ rkey)%string
                :: map (String.append "ltable_") lrest
                   ++ map (String.append "rtable_") rrest) in E.
  set (names := "_id" :: ("ltable_" ++ lkey)%string
                      :: ("rtable_" ++ rkey)%string
                      :: map (String.append "ltable_") lrest
                         ++ map (String.append "rtable_") rrest) in *.
  unfold set_columns in E.
  match type of E with
  | context [if ?b then _ else _] =>
      destruct b eqn:Hnames; [|discriminate E]
  end.
  apply Nat.eqb_eq in Hnames.
  assert (Hcols : exists dtype rest,
             df_cols (frame_of_rows X rows)
             = mkColumn (LPos 0) dtype (map (fun row => nth 0 row CNaN) rows)
               :: rest).
  { revert Hnames. unfold frame_of_rows. cbn [df_cols].
    destruct (fold_right _ 0%nat rows) as [|w]; [discriminate|].
    intros _. unfold range. cbn [seq map]. eauto. }
  destruct Hcols as (dtype & rest & Ecols). rewrite Ecols in E, Hnames.
  rewrite mbind_call in E.
  match type of E with
  | match ?r with Ok _ => _ | Err _ => _ end = _ =>
      destruct r as [[]|e] eqn:Eset; [|discriminate E]
  end.
  unfold mret in E. injection E as <- <-.
  exists lrest, rrest.
  split; [reflexivity|]. split; [reflexivity|]. split; [exact Hlen|]. split.
  { exact (relabelled_columns _ (map LName names) _ Hnames). }
  split; [|split; [exact Eset | reflexivity]].
  transitivity (Ok (map (fun row => nth 0 row CNaN) rows));
    [|now rewrite Hid].
  apply (relabelled_first _ "_id"
           (("ltable_" ++ lkey)%string
              :: ("rtable_" ++ rkey)%string
              :: map (String.append "ltable_") lrest
                 ++ map (String.append "rtable_") rrest)
           (mkColumn (LPos 0) dtype (map (fun row => nth 0 row CNaN) rows))
           rest).
  intros name [<-|[<-|Hin]]; [reflexivity | reflexivity |].
    apply in_app_or in Hin. destruct Hin as [Hin|Hin];
      apply in_map_iff in Hin; destruct Hin as (x & <- & _); reflexivity.
Qed.

Lemma X15_assembled_table_witness :
  exists data_frame t',
    _assemble_topk_table demo_collaborators
      [(@float_of_int QFloat 1%Z, 0%nat, 1%nat)] demo_ltable demo_rtable
      (LName "id") (LName "id") [] = (Ok data_frame, t') /\
    exists lrest rrest,
      py_remove String.eqb "id" ["id"; "name"; "age"] = Ok lrest /\
      py_remove String.eqb "id" ["id"; "name"; "age"] = Ok rrest /\
      df_len data_frame
      = List.length [(@float_of_int QFloat 1%Z, 0%nat, 1%nat)] /\
      columns data_frame
      = map LName ("_id" :: ("ltable_" ++ "id")%string
                         :: ("rtable_" ++ "id")%string
                         :: map (String.append "ltable_") lrest
                            ++ map (String.append "rtable_") rrest) /\
      getitem data_frame (LName "_id")
      = Ok (map (fun i => CNum (inject_Z (Z.of_nat i)))
                (range (List.length
                          [(@float_of_int QFloat 1%Z, 0%nat, 1%nat)]))) /\
      set_candset_properties demo_collaborators data_frame (LName "_id")
        (LName ("ltable_" ++ "id")) (LName ("rtable_" ++ "id"))
        demo_ltable demo_rtable
      = Ok tt /\
      t' = [] ++ [Call_set_candset_properties].
Proof.
  eexists. eexists. split; [vm_compute; reflexivity|].
  eapply (X15_assembled_table demo_collaborators
            [(@float_of_int QFloat 1%Z, 0%nat, 1%nat)] demo_ltable
            demo_rtable "id" "id" ["id"; "name"; "age"]
            ["id"; "name"; "age"] []).
  - reflexivity.
  - reflexivity.
  - discriminate.
  - vm_compute. reflexivity.
Defined.

(** ** The selected features *)

Lemma _select_features_ok {F : FloatOps} (ltable rtable : DataFrame)
  (lkey rkey : label) (selected : list nat) :
  _select_features ltable rtable lkey rkey = Ok selected ->
  exists lweight rweight li ri,
    List.length (columns ltable) = List.length (columns rtable) /\
    find_key_index lkey (columns ltable) = Z.of_nat li /\
    nth_error (columns ltable) li = Some lkey /\
    find_key_index rkey (columns rtable) = Z.of_nat ri /\
    nth_error (columns rtable) ri = Some rkey /\
    df_len ltable <> 0%nat /\ df_len rtable <> 0%nat /\
    List.length lweight = List.length (columns ltable) /\
    List.length rweight = List.length (columns ltable) /\
    selected
    = map index
        (firstn (Nat.min (List.length
                            (without_keys li ri (scores lweight rweight)))
                         SELECTED_FIELDS_UPPER_BOUND)
                (sort_by_weight_desc
                   (without_keys li ri (scores lweight rweight)))).
Proof.
  intros H.
  destruct (Nat.eq_dec (List.length (columns ltable))
              (List.length (columns rtable))) as [Hlen|Hlen].
  2:{ rewrite _select_features_schema_mismatch in H by (now left).
      discriminate H. }
  destruct (find_key_index_spec lkey (columns ltable))
    as [[Hn _]|(li & Eli & Nli & _)].
  { rewrite _select_features_schema_mismatch in H by (right; now left).
    discriminate H. }
  destruct (find_key_index_spec rkey (columns rtable))
    as [[Hn _]|(ri & Eri & Nri & _)].
  { rewrite _select_features_schema_mismatch in H by (right; now right).
    discriminate H. }
  assert (Bli : (li < List.length (columns ltable))%nat)
    by (apply nth_error_Some; congruence).
  assert (Bri : (ri < List.length (columns rtable))%nat)
    by (apply nth_error_Some; congruence).
  unfold _select_features in H. rewrite Hlen, Nat.eqb_refl in H.
  cbn [negb] in H. rewrite Eli, Eri in H.
  destruct (Z.ltb_spec (Z.of_nat li) 0); [lia|].
  destruct (Z.ltb_spec (Z.of_nat ri) 0); [lia|].
  destruct (Nat.eq_dec (df_len ltable) 0) as [Hl0|Hl0].
  { rewrite (_get_feature_weight_empty ltable Hl0) in H. discriminate H. }
  destruct (_get_feature_weight_total ltable Hl0) as (lw & Elw & Llw & _).
  rewrite Elw in H. cbn [rbind] in H.
  destruct (Nat.eq_dec (df_len rtable) 0) as [Hr0|Hr0].
  { rewrite (_get_feature_weight_empty rtable Hr0) in H. discriminate H. }
  destruct (_get_feature_weight_total rtable Hr0) as (rw & Erw & Lrw & _).
  rewrite Erw in H. cbn [rbind] in H.
  assert (Hww : List.length lw = List.length rw) by lia.
  rewrite Hww, Nat.eqb_refl in H. cbn [negb] in H.
  rewrite <- Hww, (rank_list_loop lw rw Hww) in H. cbn [rbind] in H.
  destruct (@pop_keys F (scores lw rw) li ri) as [Hpop _].
  { apply scores_index, Hww. }
  { rewrite scores_length by exact Hww. lia. }
  { rewrite scores_length by exact Hww. lia. }
  rewrite Hpop in H. cbn [rbind] in H.
  rewrite !sort_by_weight_desc_length in H.
  set (rem := without_keys li ri (scores lw rw)) in *.
  assert (Hnum : (if (List.length rem <? SELECTED_FIELDS_UPPER_BOUND)%nat
                  then List.length rem else SELECTED_FIELDS_UPPER_BOUND)
                 = Nat.min (List.length rem) SELECTED_FIELDS_UPPER_BOUND).
  { destruct (Nat.ltb_spec (List.length rem) SELECTED_FIELDS_UPPER_BOUND); lia. }
  rewrite Hnum in H.
  rewrite (foldM_take index (sort_by_weight_desc rem)) in H
    by (rewrite sort_by_weight_desc_length; lia).
  cbn [app] in H. inversion H as [Hsel].
  exists lw, rw, li, ri. repeat (split; [assumption || lia|]).
  reflexivity.
Qed.

Lemma distinct_images_filter {A B : Type} (f : A -> B) (keep : A -> bool)
  (items : list A) (Hnd : NoDup (map f items)) :
  NoDup (map f (filter keep items)).
Proof.
  induction items as [|x items IH]; [constructor|].
  cbn [map] in Hnd. inversion Hnd as [|? ? Hnotin Hnd']; subst.
  cbn [filter]. destruct (keep x); [|now apply IH].
  cbn [map]. constructor; [|now apply IH].
  intros Hin. apply Hnotin. apply in_map_iff in Hin.
  destruct Hin as (y & Ey & Hy). apply filter_In in Hy.
  apply in_map_iff. exists y. tauto.
Qed.

Lemma NoDup_map_firstn {A B : Type} (f : A -> B) (n : nat) (l : list A) :
  NoDup (map f l) -> NoDup (map f (firstn n l)).
Proof.
  intros H. rewrite <- (firstn_skipn n l), map_app in H.
  now apply NoDup_app_remove_r in H.
Qed.

Lemma In_firstn {A : Type} (n : nat) (l : list A) (x : A) :
  In x (firstn n l) -> In x l.
Proof.
  intros H. rewrite <- (firstn_skipn n l). apply in_or_app. now left.
Qed.

Lemma popped_length {F : FloatOps} (li ri : nat) (ranks : list Rank) :
  (li < List.length ranks)%nat -> (ri < List.length ranks)%nat ->
  List.length (popped li ri ranks)
  = (List.length ranks - (if (li =? ri)%nat then 1 else 2))%nat.
Proof.
  intros Hl Hr. unfold popped. destruct (Nat.eqb_spec li ri) as [E|E].
  - now apply remove_at_length.
  - rewrite remove_at_length; rewrite remove_at_length; lia.
Qed.

(** X16.  A feature list that [_select_features] returns holds column
    positions of the filtered tables, none of them twice and none of them
    the position found for a key; it has [min(n - k, 8)] entries for [n]
    columns, [k] being 1 when the two keys are found at the same position
    and 2 otherwise; and for at most nine columns every position other
    than the keys' is in it. *)
Theorem X16_selected_features {F : FloatOps} (ltable rtable : DataFrame)
  (lkey rkey : label) (feature_list : list nat) :
  _select_features ltable rtable lkey rkey = Ok feature_list ->
  let n := List.length (columns ltable) in
  let lkey_index := find_key_index lkey (columns ltable) in
  let rkey_index := find_key_index rkey (columns rtable) in
  NoDup feature_list /\
  Forall (fun i => (i < n)%nat /\ (i < List.length (columns rtable))%nat /\
                   Z.of_nat i <> lkey_index /\ Z.of_nat i <> rkey_index)
         feature_list /\
  List.length feature_list
  = Nat.min (n - (if (lkey_index =? rkey_index)%Z then 1 else 2))
            SELECTED_FIELDS_UPPER_BOUND /\
  ((n <= S SELECTED_FIELDS_UPPER_BOUND)%nat ->
   forall i, (i < n)%nat ->
             Z.of_nat i <> lkey_index -> Z.of_nat i <> rkey_index ->
             In i feature_list).
Proof.
  intros H n lkey_index rkey_index.
  destruct (_select_features_ok ltable rtable lkey rkey feature_list H)
    as (lw & rw & li & ri & Hlen & Eli & Nli & Eri & Nri & _ & _ & Llw & Lrw
        & Hsel).
  subst n lkey_index rkey_index. rewrite Eli, Eri.
  assert (Hww : List.length lw = List.length rw) by lia.
  assert (Bli : (li < List.length (columns ltable))%nat)
    by (apply nth_error_Some; congruence).
  assert (Bri : (ri < List.length (columns rtable))%nat)
    by (apply nth_error_Some; congruence).
  pose proof (scores_index lw rw Hww) as Hidx.
  pose proof (scores_length lw rw Hww) as Hsl.
  set (rem := without_keys li ri (scores lw rw)) in *.
  assert (Hrem : List.length rem
                 = (List.length (columns ltable)
                    - (if (li =? ri)%nat then 1 else 2))%nat).
  { destruct (@pop_keys F (scores lw rw) li ri) as [_ Hpop];
      [exact Hidx | lia | lia |].
    unfold rem. rewrite Hpop, popped_length by lia. lia. }
  assert (Hin : forall i, In i (map index rem) <->
                          (i < List.length (columns ltable))%nat /\
                          i <> li /\ i <> ri).
  { intros i. unfold rem, without_keys. rewrite in_map_iff. split.
    - intros (r & <- & Hr). apply filter_In in Hr. destruct Hr as [Hr Hb].
      apply andb_prop in Hb. destruct Hb as [H1 H2].
      apply negb_true_iff, Nat.eqb_neq in H1, H2.
      apply (in_map index) in Hr. rewrite Hidx in Hr. apply in_seq in Hr.
      lia.
    - intros (Hi & H1 & H2).
      assert (Hs : In i (map index (scores lw rw)))
        by (rewrite Hidx; apply in_seq; lia).
      apply in_map_iff in Hs. destruct Hs as (r & Er & Hr).
      exists r. split; [exact Er|]. apply filter_In. split; [exact Hr|].
      rewrite Er. apply andb_true_intro.
      split; apply negb_true_iff, Nat.eqb_neq; assumption. }
  assert (Hperm : Permutation (sort_by_weight_desc rem) rem)
    by apply sort_by_weight_desc_perm.
  split; [|split; [|split]].
  - rewrite Hsel. apply NoDup_map_firstn.
    eapply Permutation_NoDup;
      [apply Permutation_map, Permutation_sym, Hperm|].
    unfold rem, without_keys. apply distinct_images_filter.
    rewrite Hidx. apply seq_NoDup.
  - rewrite Hsel. apply Forall_forall. intros i Hi.
    apply in_map_iff in Hi. destruct Hi as (r & <- & Hr).
    apply In_firstn in Hr. apply (Permutation_in _ Hperm) in Hr.
    apply (in_map index) in Hr. apply Hin in Hr. lia.
  - rewrite Hsel, length_map, length_firstn, sort_by_weight_desc_length, Hrem.
    destruct (Z.eqb_spec (Z.of_nat li) (Z.of_nat ri)),
      (Nat.eqb_spec li ri); lia.
  - intros Hn i Hi H1 H2. rewrite Hsel.
    rewrite firstn_all2.
    2:{ rewrite sort_by_weight_desc_length, Hrem.
        unfold SELECTED_FIELDS_UPPER_BOUND in *.
        destruct (li =? ri)%nat; lia. }
    eapply Permutation_in;
      [apply Permutation_map, Permutation_sym, Hperm|].
    apply Hin. lia.
Qed.

Lemma X16_selected_features_witness :
  NoDup [1%nat] /\
  Forall (fun i => (i < 2)%nat /\ (i < 2)%nat /\
                   Z.of_nat i <> 0%Z /\ Z.of_nat i <> 0%Z) [1%nat] /\
  List.length [1%nat] = 1%nat /\
  ((2 <= 9)%nat ->
   forall i, (i < 2)%nat -> Z.of_nat i <> 0%Z -> Z.of_nat i <> 0%Z ->
             In i [1%nat]).
Proof.
  apply (X16_selected_features (F := QFloat) demo_lfiltered demo_rfiltered
           (LName "id") (LName "id") [1%nat]).
  reflexivity.
Defined.

(** ** Tokenizing the selected features *)







(** ** The calls of a successful run *)

Lemma indexed_calls_trace {A B : Type} (ev : nat -> event)
  (w : A -> result B) (l : list A) (idxs : list nat) :
  forall (t t' : trace) (ys : list B),
  mmap (fun i => mbind (lift (py_index l i)) (fun x => call (ev i) (w x)))
       idxs t = (Ok ys, t') ->
  t' = t ++ map ev idxs.
Proof.
  induction idxs as [|i idxs IH]; intros t t' ys H.
  - cbn in H. inversion H. now rewrite app_nil_r.
  - cbn [mmap] in H. unfold mbind at 1 in H. rewrite mbind_lift in H.
    destruct (py_index l i) as [x|e]; [|discriminate H].
    unfold call at 1 in H. destruct (w x) as [y|e]; [|discriminate H].
    unfold mbind at 1 in H.
    destruct (mmap _ idxs (t ++ [ev i])) as [[ys'|e] t2] eqn:E2;
      [|discriminate H].
    apply IH in E2. unfold mret in H. inversion H; subst.
    cbn [map]. now rewrite <- app_assoc.
Qed.

Lemma debugblocker_cython_parallel_trace {F : FloatOps} (X : Collaborators)
  (ltok rtok lidx ridx : list (list nat)) (lsum rsum : list nat)
  (cand : candset_index) (num_fields : nat)
  (output_size n_jobs n_configs : Z) (t t' : trace)
  (rec_list : list (float * nat * nat)) :
  debugblocker_cython_parallel X ltok rtok lidx ridx lsum rsum cand
    num_fields output_size n_jobs n_configs t = (Ok rec_list, t') ->
  exists n_joins,
    t' = t ++ [Call_debugblocker_config_cython]
           ++ map Call_debugblocker_topk_cython (range n_joins)
           ++ [Call_debugblocker_merge_topk_cython].
Proof.
  unfold debugblocker_cython_parallel. intros H.
  step_in H. step_in H. unfold mbind at 1 in H.
  match type of H with
  | context [mmap ?f ?idxs ?t0] =>
      destruct (mmap f idxs t0) as [[rec_lists|e] t2] eqn:Em;
        [|discriminate H]
  end.
  apply indexed_calls_trace in Em. unfold call in H.
  match type of H with
  | (?r, _) = _ => destruct r; [|discriminate H]
  end.
  inversion H; subst. eexists. now rewrite <- !app_assoc.
Qed.

Lemma _index_candidate_set_trace {F : FloatOps} (X : Collaborators)
  (candidate_set : DataFrame) (lmap rmap : dict cell nat) (verbose : bool)
  (t t' : trace) (index : candset_index) :
  _index_candidate_set X candidate_set lmap rmap verbose t = (Ok index, t') ->
  t' = t ++ (if (df_len candidate_set =? 0)%nat then []
             else [Call_get_metadata_for_candset;
                   Call_validate_metadata_for_candset]).
Proof.
  unfold _index_candidate_set. intros H.
  destruct (df_len candidate_set =? 0)%nat.
  - inversion H. now rewrite app_nil_r.
  - step_in H. step_in H. step_in H. step_in H. unfold lift in H.
    inversion H. now rewrite <- app_assoc.
Qed.

Lemma _assemble_topk_table_trace {F : FloatOps} (X : Collaborators)
  (rec_list : list (float * nat * nat)) (ltable rtable : DataFrame)
  (lkey rkey : label) (t t' : trace) (data_frame : DataFrame) :
  _assemble_topk_table X rec_list ltable rtable lkey rkey t
  = (Ok data_frame, t') ->
  t' = t ++ (if (df_len data_frame =? 0)%nat then []
             else [Call_set_candset_properties]).
Proof.
  unfold _assemble_topk_table. intros H.
  do 7 step_in H.
  match type of H with
  | context [if (df_len ?f =? 0)%nat then _ else _] =>
      destruct (df_len f =? 0)%nat eqn:Ez
  end.
  - inversion H; subst. rewrite Ez. now rewrite app_nil_r.
  - step_in H. step_in H. unfold mret in H. injection H as Ha Ht. subst.
    match goal with
    | E : set_columns ?f _ = Ok ?d |- _ =>
        assert (Hd : df_len d = df_len f)
          by (unfold set_columns in E;
              destruct (_ =? _)%nat in E; [|discriminate E];
              injection E as <-; reflexivity)
    end.
    now rewrite Hd, Ez.
Qed.

Lemma join_tables_trace {F : FloatOps} (X : Collaborators)
  (candidate_set ltable_filtered rtable_filtered : DataFrame)
  (l_key r_key : label) (output_size : Z) (verbose : bool)
  (n_jobs n_configs : Z) (t t' : trace) (data_frame : DataFrame) :
  join_tables X candidate_set ltable_filtered rtable_filtered l_key r_key
    output_size verbose n_jobs n_configs t = (Ok data_frame, t') ->
  exists n_joins,
    t' = t ++ (if (df_len candidate_set =? 0)%nat then []
               else [Call_get_metadata_for_candset;
                     Call_validate_metadata_for_candset])
           ++ [Call_debugblocker_config_cython]
           ++ map Call_debugblocker_topk_cython (range n_joins)
           ++ [Call_debugblocker_merge_topk_cython]
           ++ (if (df_len data_frame =? 0)%nat then []
               else [Call_set_candset_properties]).
Proof.
  unfold join_tables. intros H. step_in H.
  destruct (List.length _ =? 0)%nat; [discriminate H|].
  do 7 step_in H.
  unfold mbind at 1 in H.
  match type of H with
  | context [_index_candidate_set ?X ?c ?l ?r ?v ?t0] =>
      destruct (_index_candidate_set X c l r v t0) as [[index|e] t1] eqn:Ei;
        [|discriminate H]
  end.
  apply _index_candidate_set_trace in Ei.
  do 4 step_in H.
  unfold mbind at 1 in H.
  match type of H with
  | context [debugblocker_cython_parallel ?X ?a ?b ?c ?d ?e ?f ?g ?h ?i ?j ?k
               ?t0] =>
      destruct (debugblocker_cython_parallel X a b c d e f g h i j k t0)
        as [[rec_list|e'] t2] eqn:Ep; [|discriminate H]
  end.
  apply debugblocker_cython_parallel_trace in Ep.
  destruct Ep as (n_joins & Ep).
  apply _assemble_topk_table_trace in H.
  exists n_joins. rewrite H, Ep, Ei. now rewrite <- !app_assoc.
Qed.

Lemma prepare_tables_trace {F : FloatOps} (X : Collaborators)
  (ltable rtable : DataFrame) (attr_corres : pyobj) (verbose : bool)
  (t t' : trace) (out : label * label * DataFrame * DataFrame) :
  prepare_tables X ltable rtable attr_corres verbose t = (Ok out, t') ->
  t' = t ++ [Call_get_keys_for_ltable_rtable;
             Call_validate_metadata_for_table "ltable";
             Call_validate_metadata_for_table "rtable"]
         ++ match attr_corres with
            | PList (_ :: _) => []
            | _ => [Call_get_attr_corres]
            end.
Proof.
  unfold prepare_tables. intros H.
  step_as H p Ek. do 3 step_in H. step_as H o E3.
  unfold mbind at 1 in H. rewrite _get_field_correspondence_list_spec in H.
  assert (Hu : match attr_corres with
               | PList (_ :: _) => exists q qs, o = Some (q :: qs)
               | _ => o = None \/ o = Some []
               end).
  { unfold labels_of_corres, corres_of in E3.
    destruct attr_corres; try (inversion E3; now left).
    destruct items as [|p0 ps0].
    - cbn in E3. inversion E3. now right.
    - destruct (mapM labels_of_pair (p0 :: ps0)) as [ls|e] eqn:Em;
        [|discriminate E3].
      cbn in E3. inversion E3; subst. apply mapM_length in Em.
      destruct ls as [|q qs]; [discriminate Em | eauto]. }
  assert (Ht : forall (t1 : trace) (cl : list (label * label)),
             (c <- lift (_filter_corres_list ltable rtable (fst p)
                           (snd p) (_build_col_name_index_dict ltable)
                           (_build_col_name_index_dict rtable) cl) ;;
              filtered <- lift (_get_filtered_table ltable rtable c) ;;
              mret (fst p, snd p, fst filtered, snd filtered))%M t1
             = (Ok out, t') -> t' = t1).
  { intros t1 cl Hr. step_in Hr. step_in Hr. now inversion Hr. }
  assert (Hc : (o = None \/ o = Some []) ->
               t' = t ++ [Call_get_keys_for_ltable_rtable;
                          Call_validate_metadata_for_table "ltable";
                          Call_validate_metadata_for_table "rtable"]
                      ++ [Call_get_attr_corres]).
  { intros [-> | ->];
      destruct (get_attr_corres X ltable rtable) as [[|q base]|e];
      try discriminate H; cbv beta iota in H; apply Ht in H; subst t';
      now rewrite <- !app_assoc. }
  destruct attr_corres as [|b|z|s|items|items|df]; try (exact (Hc Hu)).
  destruct items as [|p0 ps0]; [exact (Hc Hu)|].
  destruct Hu as (q & qs & ->). cbv beta iota in H. apply Ht in H. subst t'.
  now rewrite <- !app_assoc, app_nil_r.
Qed.

(** X18.  A run of [debug_blocker] that returns a frame has consulted its
    collaborators in this order and logged no error: the keys of the two
    tables and the validation of each table; the attribute correspondence
    of the catalog exactly when the caller gave no non-empty list; the
    candidate set's metadata and its validation exactly when the candidate
    set has rows; the configurations, some number of joins numbered from
    0, and the merge; and the candidate-set properties exactly when the
    returned frame has rows. *)
Theorem X18_calls_of_a_successful_run {F : FloatOps} (X : Collaborators)
  (candidate_set ltable rtable : DataFrame) (output_size : Z)
  (attr_corres : pyobj) (verbose : bool) (n_jobs n_configs : Z)
  (t t' : trace) (data_frame : DataFrame) :
  debug_blocker X (PFrame candidate_set) (PFrame ltable) (PFrame rtable)
    (PInt output_size) attr_corres (PBool verbose) n_jobs n_configs t
  = (Ok data_frame, t') ->
  exists n_joins,
    t' = t ++ [Call_get_keys_for_ltable_rtable;
               Call_validate_metadata_for_table "ltable";
               Call_validate_metadata_for_table "rtable"]
           ++ match attr_corres with
              | PList (_ :: _) => []
              | _ => [Call_get_attr_corres]
              end
           ++ (if (df_len candidate_set =? 0)%nat then []
               else [Call_get_metadata_for_candset;
                     Call_validate_metadata_for_candset])
           ++ [Call_debugblocker_config_cython]
           ++ map Call_debugblocker_topk_cython (range n_joins)
           ++ [Call_debugblocker_merge_topk_cython]
           ++ (if (df_len data_frame =? 0)%nat then []
               else [Call_set_candset_properties]).
Proof.
  intros H. unfold debug_blocker in H. unfold mbind at 1 in H.
  destruct (_validate_types_cases (PFrame ltable) (PFrame rtable)
              (PFrame candidate_set) (PInt output_size) attr_corres
              (PBool verbose) t) as [(E & _)|(t1 & E & _)];
    rewrite E in H; [|discriminate H].
  cbn [as_int] in H.
  destruct (df_len ltable =? 0)%nat; [discriminate H|].
  destruct (df_len rtable =? 0)%nat; [discriminate H|].
  destruct (output_size <=? 0)%Z; [discriminate H|].
  unfold debug_blocker_body in H. unfold mbind at 1 in H.
  destruct (prepare_tables X ltable rtable attr_corres verbose t)
    as [[[[[l_key r_key] lf] rf]|e] t1] eqn:Ep; [|discriminate H].
  apply prepare_tables_trace in Ep.
  apply join_tables_trace in H. destruct H as (n_joins & H).
  exists n_joins. rewrite H, Ep. now rewrite <- !app_assoc.
Qed.

Lemma X18_calls_of_a_successful_run_witness :
  exists data_frame t',
    debug_blocker demo_catalog (PFrame demo_pairs) (PFrame demo_ltable)
      (PFrame demo_rtable) (PInt 5) PNone (PBool true) 1 2 []
    = (Ok data_frame, t') /\
    exists n_joins,
      t' = [] ++ [Call_get_keys_for_ltable_rtable;
                  Call_validate_metadata_for_table "ltable";
                  Call_validate_metadata_for_table "rtable"]
              ++ [Call_get_attr_corres]
              ++ (if (df_len demo_pairs =? 0)%nat then []
                  else [Call_get_metadata_for_candset;
                        Call_validate_metadata_for_candset])
              ++ [Call_debugblocker_config_cython]
              ++ map Call_debugblocker_topk_cython (range n_joins)
              ++ [Call_debugblocker_merge_topk_cython]
              ++ (if (df_len data_frame =? 0)%nat then []
                  else [Call_set_candset_properties]).
Proof.
  eexists. eexists. split.
  - vm_compute. reflexivity.
  - apply (X18_calls_of_a_successful_run demo_catalog demo_pairs demo_ltable
             demo_rtable 5 PNone true 1 2 []).
    vm_compute. reflexivity.
Defined.

(** ** Candidate pairs and table rows *)

Lemma dict_get_swapped (items : list (nat * cell)) (id : cell) (i : nat) :
  dict_get cell_eqb (map (fun ix => (snd ix, fst ix)) items) id = Some i ->
  exists id', In (i, id') items /\ cell_eqb id id' = true.
Proof.
  induction items as [|[j a] items IH]; cbn; [discriminate|].
  destruct (cell_eqb id a) eqn:E.
  - intros H. inversion H; subst. exists a. auto.
  - intros H. destruct (IH H) as (id' & Hin & He). exists id'. auto.
Qed.

Lemma _build_id_to_index_map_rows (table : DataFrame) (table_key : label)
  (ids : list cell) (record_id_to_index : dict cell nat) :
  getitem table table_key = Ok ids ->
  _build_id_to_index_map table table_key = Ok record_id_to_index ->
  forall id i,
    dict_get cell_eqb record_id_to_index id = Some i ->
    exists id', nth_error ids i = Some id' /\ cell_eqb id id' = true.
Proof.
  intros Hg Hb id i Hd. unfold _build_id_to_index_map in Hb.
  rewrite Hg in Hb. cbn [rbind] in Hb.
  rewrite (foldM_range_index
             (fun d i id => if dict_mem cell_eqb d id then Err AssertionError
                            else Ok (dict_set cell_eqb d id i))) in Hb.
  pose proof (_build_id_to_index_map_loop _ _ _ Hb) as Hdiff.
  rewrite (_build_id_to_index_map_loop_ok _ _ Hdiff) in Hb.
  cbn [app] in Hb. inversion Hb; subst record_id_to_index.
  destruct (dict_get_swapped _ _ _ Hd) as (id' & Hin & He).
  exists id'. split; [|exact He].
  apply In_nth_error in Hin. destruct Hin as (n & Hn).
  rewrite enumerate_nth in Hn.
  destruct (nth_error ids n) as [x|] eqn:En; [|discriminate Hn].
  cbn in Hn. inversion Hn; subst. exact En.
Qed.

Lemma index_rows_sound (lmap rmap : dict cell nat) (lkeys rkeys : list cell)
  (idxs : list nat) (index : candset_index) :
  foldM (fun new_formatted_candidate_set i =>
           (lid <- py_index lkeys i ;;
            if dict_mem cell_eqb lmap lid then
              rid <- py_index rkeys i ;;
              if dict_mem cell_eqb rmap rid then
                l_key_data <- dict_item cell_eqb lmap lid ;;
                r_key_data <- dict_item cell_eqb rmap rid ;;
                match dict_get Nat.eqb new_formatted_candidate_set
                               l_key_data with
                | Some s =>
                    Ok (dict_set Nat.eqb new_formatted_candidate_set
                          l_key_data (set_add Nat.eqb r_key_data s))
                | None =>
                    Ok (dict_set Nat.eqb new_formatted_candidate_set
                          l_key_data [r_key_data])
                end
              else Ok new_formatted_candidate_set
            else Ok new_formatted_candidate_set)%res)
        idxs [] = Ok index ->
  forall l r, indexed index l r -> candidate_row lmap rmap lkeys rkeys l r.
Proof.
  intros H.
  eapply (foldM_invariant
            (fun index => forall l r, indexed index l r ->
                                      candidate_row lmap rmap lkeys rkeys l r));
    [| |exact H].
  - intros a i a' _ Ha E l r Hi. cbn beta in E.
    unfold py_index, dict_mem, dict_item in E.
    destruct (nth_error lkeys i) as [lid|] eqn:El; [|discriminate E].
    cbn [rbind] in E.
    destruct (dict_get cell_eqb lmap lid) as [l0|] eqn:Gl.
    2:{ inversion E; subst. now apply Ha. }
    destruct (nth_error rkeys i) as [rid|] eqn:Er; [|discriminate E].
    cbn [rbind] in E.
    destruct (dict_get cell_eqb rmap rid) as [r0|] eqn:Gr.
    2:{ inversion E; subst. now apply Ha. }
    cbn [rbind] in E.
    assert (Ea : a' = match dict_get Nat.eqb a l0 with
                      | Some s => dict_set Nat.eqb a l0 (set_add Nat.eqb r0 s)
                      | None => dict_set Nat.eqb a l0 [r0]
                      end)
      by (destruct (dict_get Nat.eqb a l0); now inversion E).
    rewrite Ea in Hi. apply indexed_add in Hi.
    destruct Hi as [Hi|[-> ->]]; [now apply Ha|].
    exists i, lid, rid. auto.
  - intros l r (s & E & _). discriminate E.
Qed.

(** X19.  Every pair in the reformatted candidate set names rows of the
    two tables.  With the id maps built by [_build_id_to_index_map] from
    the tables' key columns, a pair [(l, r)] that [_index_candidate_set]
    returns comes from a row of the candidate set whose foreign keys are
    equal to the ids of row [l] of the left and of row [r] of the right
    table; so [l] and [r] are positions inside the key columns. *)
Theorem X19_candidate_pairs_are_rows {F : FloatOps} (X : Collaborators)
  (candidate_set ltable rtable : DataFrame) (l_key r_key : label)
  (lids rids : list cell)
  (lrecord_id_to_index_map rrecord_id_to_index_map : dict cell nat)
  (verbose : bool) (t t' : trace) (md : candset_metadata)
  (ltable_key_data rtable_key_data : list cell) (index : candset_index) :
  getitem ltable l_key = Ok lids -> getitem rtable r_key = Ok rids ->
  _build_id_to_index_map ltable l_key = Ok lrecord_id_to_index_map ->
  _build_id_to_index_map rtable r_key = Ok rrecord_id_to_index_map ->
  get_metadata_for_candset X candidate_set verbose = Ok md ->
  getitem candidate_set (cm_fk_ltable md) = Ok ltable_key_data ->
  getitem candidate_set (cm_fk_rtable md) = Ok rtable_key_data ->
  _index_candidate_set X candidate_set lrecord_id_to_index_map
    rrecord_id_to_index_map verbose t = (Ok index, t') ->
  forall l r,
    indexed index l r ->
    (l < List.length lids)%nat /\ (r < List.length rids)%nat /\
    exists i fk_l fk_r lid rid,
      nth_error ltable_key_data i = Some fk_l /\
      nth_error rtable_key_data i = Some fk_r /\
      nth_error lids l = Some lid /\ cell_eqb fk_l lid = true /\
      nth_error rids r = Some rid /\ cell_eqb fk_r rid = true.
Proof.
  intros Hgl Hgr Hbl Hbr Hmd Hkl Hkr H l r Hi.
  unfold _index_candidate_set in H.
  destruct (df_len candidate_set =? 0)%nat.
  { inversion H; subst. destruct Hi as (s & E & _). discriminate E. }
  rewrite mbind_call, Hmd in H. cbv beta in H.
  rewrite mbind_call in H.
  destruct (validate_metadata_for_candset X candidate_set md verbose);
    [|discriminate H].
  rewrite mbind_lift, Hkl, mbind_lift, Hkr in H. unfold lift in H.
  match type of H with
  | (?loop, _) = _ => destruct loop as [index'|e] eqn:El; [|discriminate H]
  end.
  inversion H; subst index'.
  destruct (index_rows_sound _ _ _ _ _ _ El l r Hi)
    as (i & fk_l & fk_r & Nl & Nr & Gl & Gr).
  destruct (_build_id_to_index_map_rows ltable l_key lids _ Hgl Hbl fk_l l Gl)
    as (lid & Hl & El').
  destruct (_build_id_to_index_map_rows rtable r_key rids _ Hgr Hbr fk_r r Gr)
    as (rid & Hr & Er').
  split; [apply nth_error_Some; congruence|].
  split; [apply nth_error_Some; congruence|].
  exists i, fk_l, fk_r, lid, rid. auto 10.
Qed.

Lemma X19_candidate_pairs_are_rows_witness :
  (0 < List.length [CStr "a1"; CStr "a2"])%nat /\
  (1 < List.length [CStr "b1"; CStr "b2"])%nat /\
  exists i fk_l fk_r lid rid,
    nth_error [CStr "a9"; CStr "a1"; CStr "a1"] i = Some fk_l /\
    nth_error [CStr "b1"; CStr "b2"; CStr "b2"] i = Some fk_r /\
    nth_error [CStr "a1"; CStr "a2"] 0 = Some lid /\
    cell_eqb fk_l lid = true /\
    nth_error [CStr "b1"; CStr "b2"] 1 = Some rid /\
    cell_eqb fk_r rid = true.
Proof.
  apply (X19_candidate_pairs_are_rows demo_catalog demo_pairs demo_ltable
           demo_rtable (LName "id") (LName "id")
           [CStr "a1"; CStr "a2"] [CStr "b1"; CStr "b2"]
           [(CStr "a1", 0%nat); (CStr "a2", 1%nat)]
           [(CStr "b1", 0%nat); (CStr "b2", 1%nat)] true []
           [Call_get_metadata_for_candset; Call_validate_metadata_for_candset]
           (mkCandsetMetadata (LName "_id") (LName "ltable_id")
              (LName "rtable_id") demo_ltable demo_rtable
              (LName "id") (LName "id"))
           [CStr "a9"; CStr "a1"; CStr "a1"]
           [CStr "b1"; CStr "b2"; CStr "b2"]
           [(0%nat, [1%nat])]);
    try reflexivity.
  exists [1%nat]. split; [reflexivity | now left].
Defined.

(** ** A correspondence to a missing column *)

Lemma col_dict_item (table : DataFrame) (c : label) :
  (In c (columns table) /\
   exists i d,
     dict_item label_eqb (_build_col_name_index_dict table) c = Ok i /\
     py_index (dtypes table) i = Ok d) \/
  (~ In c (columns table) /\
   dict_item label_eqb (_build_col_name_index_dict table) c = Err KeyError).
Proof.
  pose proof (col_dict_spec (columns table) c) as H.
  rewrite <- _build_col_name_index_dict_enumerate in H.
  destruct (dict_get label_eqb (_build_col_name_index_dict table) c)
    as [i|] eqn:G.
  - left. destruct H as [Hn _].
    assert (Hin : In c (columns table)) by (eapply nth_error_In; exact Hn).
    split; [exact Hin|].
    destruct (dtype_of_column table c Hin) as (i' & d & Ei & Ed & _).
    exists i', d. auto.
  - right. split; [exact H|]. unfold dict_item. now rewrite G.
Qed.

Lemma firstn_remove_at {A : Type} (n : nat) (l : list A) :
  firstn n (remove_at n l) = firstn n l.
Proof.
  revert n. induction l as [|x l IH]; intros [|n]; cbn; try reflexivity.
  now rewrite IH.
Qed.

Lemma filter_loop_missing (ltable rtable : DataFrame)
  (ltable_key rtable_key : label) (corres_list : list (label * label))
  (n : nat) :
  forall cur : list (label * label),
  (n <= List.length corres_list)%nat ->
  firstn n cur = firstn n corres_list ->
  Exists (fun p => ~ In (fst p) (columns ltable)) (firstn n corres_list) ->
  foldM (fun cur i =>
     rbind (py_index cur i) (fun p =>
     let lcol_name := fst p in
     let rcol_name := snd p in
     rbind (dict_item label_eqb (_build_col_name_index_dict ltable) lcol_name)
       (fun li =>
     rbind (py_index (dtypes ltable) li) (fun ld =>
     if negb (dtype_eqb ld DObject) then
       rbind (dict_item label_eqb (_build_col_name_index_dict rtable) rcol_name)
         (fun ri =>
       rbind (py_index (dtypes rtable) ri) (fun rd =>
       if negb (dtype_eqb rd DObject) then
         if (negb (label_eqb lcol_name ltable_key)
             && negb (label_eqb rcol_name rtable_key))%bool
         then py_pop cur (Z.of_nat i)
         else Ok cur
       else Ok cur))
     else Ok cur))))
    (List.rev (range n)) cur
  = Err KeyError.
Proof.
  induction n as [|n IH]; intros cur Hn Hcur Hbad.
  - cbn in Hbad. inversion Hbad.
  - rewrite rev_range_S. cbn [foldM].
    destruct (nth_error corres_list n) as [p|] eqn:Hp;
      [|apply nth_error_None in Hp; lia].
    assert (Hsplit : firstn (S n) corres_list = firstn n corres_list ++ [p])
      by (apply firstn_snoc_nth; exact Hp).
    assert (Hlen : List.length (firstn n corres_list) = n)
      by (apply firstn_length_le; lia).
    assert (Hcp : nth_error cur n = Some p).
    { rewrite <- (firstn_skipn (S n) cur), Hcur, Hsplit.
      rewrite <- app_assoc. rewrite nth_error_app2 by lia.
      now rewrite Hlen, Nat.sub_diag. }
    assert (Hcl : (n < List.length cur)%nat)
      by (apply nth_error_Some; congruence).
    assert (Hpre : firstn n cur = firstn n corres_list).
    { transitivity (firstn n (firstn (S n) cur)).
      - rewrite firstn_firstn. f_equal. lia.
      - rewrite Hcur, firstn_firstn. f_equal. lia. }
    rewrite (py_index_nth _ _ _ Hcp). cbn [rbind]. cbv zeta.
    destruct (col_dict_item ltable (fst p))
      as [(Hin & li & ld & Eli & Eld)|(Hnot & Eli)]; rewrite Eli;
      [|reflexivity].
    cbn [rbind]. rewrite Eld. cbn [rbind].
    assert (Hrest : Exists (fun p => ~ In (fst p) (columns ltable))
                           (firstn n corres_list)).
    { rewrite Hsplit in Hbad. apply Exists_app in Hbad.
      destruct Hbad as [Hb|Hb]; [exact Hb|].
      inversion Hb as [? ? Hb'|? ? Hb']; [contradiction | inversion Hb']. }
    destruct (negb (dtype_eqb ld DObject)); [|now apply IH; try lia].
    destruct (col_dict_item rtable (snd p))
      as [(_ & ri & rd & Eri & Erd)|(_ & Eri)]; rewrite Eri;
      [|reflexivity].
    cbn [rbind]. rewrite Erd. cbn [rbind].
    destruct (negb (dtype_eqb rd DObject)); [|now apply IH; try lia].
    destruct (negb (label_eqb (fst p) ltable_key)
              && negb (label_eqb (snd p) rtable_key))%bool;
      [|now apply IH; try lia].
    rewrite (py_pop_nat cur n Hcl). cbn [rbind].
    apply IH; [lia | | exact Hrest].
    now rewrite firstn_remove_at.
Qed.

(** X20.  A correspondence list with a pair whose left column is no column
    of the left table makes [_filter_corres_list] raise [KeyError]: the
    column dictionary has no entry for it.  This is what happens for a key
    that is no column of the left table, since the key pair is in every
    list the filter receives. *)
Theorem X20_correspondence_to_missing_column (ltable rtable : DataFrame)
  (ltable_key rtable_key : label) (corres_list : list (label * label)) :
  Exists (fun p => ~ In (fst p) (columns ltable)) corres_list ->
  _filter_corres_list ltable rtable ltable_key rtable_key
    (_build_col_name_index_dict ltable) (_build_col_name_index_dict rtable)
    corres_list
  = Err KeyError.
Proof.
  intros H. unfold _filter_corres_list.
  pose proof (filter_loop_missing ltable rtable ltable_key rtable_key
                corres_list (List.length corres_list) corres_list
                (Nat.le_refl _) eq_refl) as L.
  rewrite firstn_all in L. specialize (L H).
  cbv zeta in L. cbv zeta. now rewrite L.
Qed.

Lemma X20_correspondence_to_missing_column_witness :
  _filter_corres_list demo_ltable demo_rtable (LName "key") (LName "id")
    (_build_col_name_index_dict demo_ltable)
    (_build_col_name_index_dict demo_rtable)
    [(LName "name", LName "name"); (LName "key", LName "id")]
  = Err KeyError.
Proof.
  apply (X20_correspondence_to_missing_column demo_ltable demo_rtable
           (LName "key") (LName "id")
           [(LName "name", LName "name"); (LName "key", LName "id")]).
  apply Exists_cons_tl. apply Exists_cons_hd. cbn.
  intros [H|[H|[H|[]]]]; discriminate H.
Defined.

(** ** The size of the result *)

Lemma foldM_length_append {A B : Type} (f : list A -> B -> result (list A))
  (xs : list B) :
  (forall a x a', f a x = Ok a' -> List.length a' = S (List.length a)) ->
  forall a out, foldM f xs a = Ok out ->
                List.length out = (List.length a + List.length xs)%nat.
Proof.
  intros Hf. induction xs as [|x xs IH]; intros a out H; cbn [foldM] in H.
  - inversion H. cbn. lia.
  - destruct (f a x) as [a'|e] eqn:E; [|discriminate H]. cbn [rbind] in H.
    apply IH in H. apply Hf in E. cbn [List.length]. lia.
Qed.

Lemma _assemble_topk_table_rows {F : FloatOps} (X : Collaborators)
  (rec_list : list (float * nat * nat)) (ltable rtable : DataFrame)
  (lkey rkey : label) (t t' : trace) (data_frame : DataFrame) :
  _assemble_topk_table X rec_list ltable rtable lkey rkey t
  = (Ok data_frame, t') ->
  df_len data_frame = List.length rec_list.
Proof.
  unfold _assemble_topk_table. intros H.
  do 6 step_in H. step_as H rows Er.
  assert (Hrows : List.length rows = List.length rec_list).
  { apply foldM_length_append in Er.
    - unfold range in Er. now rewrite length_seq in Er.
    - intros acc i acc' Ha.
      destruct (py_index rec_list i) as [tup|e]; [|discriminate Ha].
      cbn [rbind] in Ha.
      destruct (loc ltable (snd (fst tup))) as [lrecord|e]; [|discriminate Ha].
      cbn [rbind] in Ha.
      destruct (loc rtable (snd tup)) as [rrecord|e]; [|discriminate Ha].
      cbn [rbind] in Ha.
      destruct (py_index lrecord _) as [lk|e]; [|discriminate Ha].
      cbn [rbind] in Ha.
      destruct (py_index rrecord _) as [rk|e]; [|discriminate Ha].
      cbn [rbind] in Ha. inversion Ha. rewrite length_app. cbn. lia. }
  match type of H with
  | context [if (df_len ?f =? 0)%nat then _ else _] =>
      destruct (df_len f =? 0)%nat
  end.
  - inversion H; subst. exact Hrows.
  - step_in H. step_in H. unfold mret in H. injection H as Ha Ht. subst.
    match goal with
    | E : set_columns ?f _ = Ok ?d |- _ =>
        unfold set_columns in E;
        destruct (_ =? _)%nat in E; [|discriminate E];
        injection E as <-
    end.
    exact Hrows.
Qed.

Lemma join_tables_rows {F : FloatOps} (X : Collaborators)
  (candidate_set ltable_filtered rtable_filtered : DataFrame)
  (l_key r_key : label) (output_size : Z) (verbose : bool)
  (n_jobs n_configs : Z) (t t' : trace) (data_frame : DataFrame) :
  join_tables X candidate_set ltable_filtered rtable_filtered l_key r_key
    output_size verbose n_jobs n_configs t = (Ok data_frame, t') ->
  (df_len data_frame <= Z.to_nat output_size)%nat.
Proof.
  unfold join_tables. intros H. step_in H.
  destruct (List.length _ =? 0)%nat; [discriminate H|].
  do 7 step_in H.
  unfold mbind at 1 in H.
  match type of H with
  | context [_index_candidate_set ?X ?c ?l ?r ?v ?t0] =>
      destruct (_index_candidate_set X c l r v t0) as [[index|e] t1];
        [|discriminate H]
  end.
  do 4 step_in H.
  unfold mbind at 1 in H.
  match type of H with
  | context [debugblocker_cython_parallel ?X ?a ?b ?c ?d ?e ?f ?g ?h ?i ?j ?k
               ?t0] =>
      destruct (debugblocker_cython_parallel X a b c d e f g h i j k t0)
        as [[rec_list|e'] t2]; [|discriminate H]
  end.
  apply _assemble_topk_table_rows in H. rewrite H. apply firstn_le_length.
Qed.

(** X21.  A frame that [debug_blocker] returns has at most [output_size]
    rows: the merged result list is cut to its first [output_size]
    triples and the assembled frame has one row per triple. *)
Theorem X21_at_most_output_size_rows {F : FloatOps} (X : Collaborators)
  (candidate_set ltable rtable : DataFrame) (output_size : Z)
  (attr_corres : pyobj) (verbose : bool) (n_jobs n_configs : Z)
  (t t' : trace) (data_frame : DataFrame) :
  debug_blocker X (PFrame candidate_set) (PFrame ltable) (PFrame rtable)
    (PInt output_size) attr_corres (PBool verbose) n_jobs n_configs t
  = (Ok data_frame, t') ->
  (0 < output_size)%Z /\ (Z.of_nat (df_len data_frame) <= output_size)%Z.
Proof.
  intros H. unfold debug_blocker in H. unfold mbind at 1 in H.
  destruct (_validate_types (PFrame ltable) (PFrame rtable)
              (PFrame candidate_set) (PInt output_size) attr_corres
              (PBool verbose) t) as [[u|e] t0]; [|discriminate H].
  cbn [as_int] in H.
  destruct (df_len ltable =? 0)%nat; [discriminate H|].
  destruct (df_len rtable =? 0)%nat; [discriminate H|].
  destruct (Z.leb_spec output_size 0); [discriminate H|].
  unfold debug_blocker_body in H. unfold mbind at 1 in H.
  destruct (prepare_tables X ltable rtable attr_corres verbose t0)
    as [[[[[l_key r_key] lf] rf]|e] t1]; [|discriminate H].
  apply join_tables_rows in H. lia.
Qed.

Lemma X21_at_most_output_size_rows_witness :
  exists data_frame t',
    debug_blocker demo_catalog (PFrame demo_pairs) (PFrame demo_ltable)
      (PFrame demo_rtable) (PInt 1) PNone (PBool true) 1 2 []
    = (Ok data_frame, t') /\
    (0 < 1)%Z /\ (Z.of_nat (df_len data_frame) <= 1)%Z.
Proof.
  eexists. eexists. split.
  - vm_compute. reflexivity.
  - eapply (X21_at_most_output_size_rows demo_catalog demo_pairs demo_ltable
              demo_rtable 1 PNone true 1 2 []).
    vm_compute. reflexivity.
Defined.
